(** * PhaseTwoAnalysis: muon filter and ntuple producer

    A shallow embedding of [PatMuonFilter] (the producer of the loose, medium
    and tight muon collections) and of [MiniFromPat] (the flat ntuple
    producer), both found in [Muons/plugins/PatMuonFilter.cc], followed by
    the properties of the selection and classification engine.

    C++ [double]s are the kernel's binary64 floats: comparisons with NaN
    are false, division by a zero is an infinity or NaN, and [-0.0] is a
    value of its own.  A C++ [float] is held as the double of the same
    value (the conversion is exact) and the operations on two [float]s
    round the exact result once to binary32.  [int] and [size_t] are
    integers of [Z] with the conversions between them written out. *)

From Stdlib Require Import String.
From Stdlib Require Import ZArith List Bool Lia Floats.
From Stdlib Require Uint63.
Import ListNotations.

Set Warnings "-inexact-float".

Local Open Scope Z_scope.

(** ** The order of binary64 numbers

    A number that is not NaN is measured by an integer, its value in units
    of the smallest subnormal number [2^-1074]; the infinities lie beyond
    every finite number and the two zeros measure the same.  Comparisons of
    doubles are comparisons of these integers (see [ltb_ord] below). *)

Module IEEE754.

Definition SFisnan (f : spec_float) : bool :=
  match f with
  | S754_nan => true
  | _ => false
  end.

Definition SFord (f : spec_float) : Z :=
  match f with
  | S754_zero _ => 0
  | S754_nan => 0
  | S754_infinity s => if s then - 2 ^ 2100 else 2 ^ 2100
  | S754_finite s m e =>
      if s then - (Zpos m * 2 ^ (e + 1074)) else Zpos m * 2 ^ (e + 1074)
  end.

Definition ord (x : float) : Z := SFord (Prim2SF x).

(** A number that is not NaN and carries the sign [s]. *)
Definition signed (s : bool) (f : spec_float) : Prop :=
  match f with
  | S754_zero s' | S754_infinity s' | S754_finite s' _ _ => s' = s
  | S754_nan => False
  end.

(** Division is read on exact fractions of integers. *)

(** The position of [N / D] between [m] and [m + 1], as a location. *)
Definition locate (N D m : Z) : location :=
  if N - m * D =? 0 then loc_Exact else loc_Inexact (2 * (N - m * D) ?= D).

(** A shift record that holds the integer part and the position of
    [N / D]. *)
Definition located (N D : Z) (mrs : shr_record) : Prop :=
  0 <= shr_m mrs
  /\ shr_m mrs * D <= N < (shr_m mrs + 1) * D
  /\ loc_of_shr_record mrs = locate N D (shr_m mrs).

(** Rounding to nearest, ties to even, read on the fraction [N / D]. *)
Definition roundUp (N D m : Z) : bool :=
  (D <? 2 * (N - m * D)) || ((D =? 2 * (N - m * D)) && Z.odd m).

(** The measure of a magnitude that may overflow to infinity. *)
Definition clip (v : Z) : Z := if v <? 2 ^ 2098 then v else 2 ^ 2100.

(** [v] is the quotient [A / B] rounded to 53 significant bits, to the
    nearest and to even on a tie, on the grid of the non-negative multiples
    of one unit. *)
Definition rounds (A B v : Z) : Prop :=
  exists m E,
    0 <= E /\ 0 <= m < 2 ^ 53 /\ (0 < E -> 2 ^ 52 <= m)
    /\ m * (2 ^ E * B) <= A < (m + 1) * (2 ^ E * B)
    /\ v = (if roundUp A (2 ^ E * B) m then m + 1 else m) * 2 ^ E.

End IEEE754.

(** ** C++ scalars and [std::vector] access *)

Module Cxx.

Abbreviation double := float (only parsing).

(** [fabs], [std::max], [std::min] and [std::isfinite] on doubles.
    [std::max(a,b)] is [(a < b) ? b : a] and [std::min(a,b)] is
    [(b < a) ? b : a]. *)
Definition fabs (x : double) : double := abs x.
Definition std_max (a b : double) : double := if (a <? b)%float then b else a.
Definition std_min (a b : double) : double := if (b <? a)%float then b else a.
Definition isfinite (x : double) : bool := negb (is_nan x) && negb (is_infinity x).

(** [a > b] and [a >= b] are the mirrored primitive comparisons. *)
Definition gtb (a b : double) : bool := (b <? a)%float.
Definition geb (a b : double) : bool := (b <=? a)%float.

(** Converting a [size_t] to a 32-bit [int], and an [int] to a 64-bit
    [size_t]. *)
Definition int_of_size_t (i : Z) : Z := (i + 2 ^ 31) mod 2 ^ 32 - 2 ^ 31.
Definition size_t_of_int (i : Z) : Z := i mod 2 ^ 64.

(** [v.at(i)] for a [size_t] index: [None] stands for the
    [std::out_of_range] exception. *)
Definition at_ {A : Type} (v : list A) (i : Z) : option A :=
  if (0 <=? i) && (i <? Z.of_nat (length v)) then nth_error v (Z.to_nat i) else None.

(** An [int] converted to [double] (exact on 32 bits). *)
Definition double_of_int (i : Z) : double :=
  if i <? 0 then (- of_uint63 (Uint63.of_Z (- i)))%float else of_uint63 (Uint63.of_Z i).

(** A [bool] promoted to [int]. *)
Definition int_of_bool (b : bool) : Z := if b then 1 else 0.

End Cxx.

Import Cxx.

(** ** C++ [float]

    The members and accessors of the event data that are [float] hold
    binary32 numbers.  An operation on two of them is computed in
    binary32: the exact result is rounded once, to 24 significant bits
    and the exponent range of binary32.  Mixed with a [double] a [float] is
    promoted, which changes no value, and the operation is the binary64
    one. *)

Abbreviation float32 := float (only parsing).

Module Binary32.

Definition prec : Z := 24.
Definition emax : Z := 128.

Definition add (a b : float32) : float32 :=
  SF2Prim (SFadd prec emax (Prim2SF a) (Prim2SF b)).
Definition sub (a b : float32) : float32 :=
  SF2Prim (SFsub prec emax (Prim2SF a) (Prim2SF b)).
Definition div (a b : float32) : float32 :=
  SF2Prim (SFdiv prec emax (Prim2SF a) (Prim2SF b)).
(** [std::sqrt] on a [float]. *)
Definition sqrt (a : float32) : float32 :=
  SF2Prim (SFsqrt prec emax (Prim2SF a)).

(** The [float] nearest to a [double], ties to even: the conversion
    [(float) x], as the rounded product of [x] and 1. *)
Definition of_double (x : double) : float32 :=
  SF2Prim (SFmul prec emax (Prim2SF x) (Prim2SF 1)).

End Binary32.

Declare Scope cxx_scope.
Delimit Scope cxx_scope with cxx.
Notation "a >? b" := (gtb a b) (at level 70, no associativity) : cxx_scope.

(** ** Event data *)

Record Point := { pos_x : double; pos_y : double; pos_z : double }.

Module Vertex.
Record t := { isFake : bool; ndof : double; position : Point }.
End Vertex.

(** The search for the primary vertex, the same loop in
    [PatMuonFilter::produce] and in [MiniFromPat::recoAnalysis]; [i] is the
    [size_t] loop index and [prVtx] the [int] found so far. *)
Fixpoint primaryVertex_from (i : Z) (vertices : list Vertex.t) (prVtx : Z) : Z :=
  match vertices with
  | [] => prVtx
  | v :: rest =>
      primaryVertex_from (i + 1) rest
        (if Vertex.isFake v then prVtx
         else if (Vertex.ndof v <=? 4)%float then prVtx
         else if prVtx <? 0 then int_of_size_t i else prVtx)
  end.

Definition primaryVertex (vertices : list Vertex.t) : Z :=
  primaryVertex_from 0 vertices (-1).

Record LocalPoint := { lp_x : float32; lp_y : float32; lp_z : float32 }.
Record LocalVector := { lv_x : float32; lv_y : float32; lv_z : float32 }.

(** [reco::Track], as far as the muon identification reads it. *)
Module Track.
Record t := {
  dxy : Point -> double;
  dz : Point -> double;
  numberOfValidPixelHits : Z;
  highPurity : bool
}.
End Track.

(** [reco::MuonSegmentMatch] and [reco::MuonChamberMatch]; their
    positions, uncertainties and slopes are [float] members. *)
Module Segment.
Record t := {
  x : float32; y : float32;
  xErr : float32; yErr : float32;
  dXdZ : float32; dYdZ : float32
}.
End Segment.

Module Chamber.
Record t := {
  id : Z;
  detector : Z;
  x : float32; y : float32;
  xErr : float32; yErr : float32;
  dXdZ : float32; dYdZ : float32;
  me0Matches : list Segment.t
}.
End Chamber.

(** [pat::Muon].  [innerTrack] and [muonBestTrack] are references that may
    be null; the three isolations are [float] accessors. *)
Module Muon.
Record t := {
  pt : double; eta : double; phi : double; p : double;
  charge : Z;
  isME0Muon : bool;
  matches : list Chamber.t;
  innerTrack : option Track.t;
  muonBestTrack : option Track.t;
  puppiNoLeptonsChargedHadronIso : float32;
  puppiNoLeptonsNeutralHadronIso : float32;
  puppiNoLeptonsPhotonIso : float32
}.
End Muon.

(** [pat::Electron]; the kinematics and the pseudorapidity of the
    supercluster are [double], the shower and track variables, the
    energies and the isolations are [float] accessors. *)
Module Electron.
Record t := {
  pt : double; eta : double; phi : double;
  charge : Z;
  superCluster_eta : double;
  full5x5_sigmaIetaIeta : float32;
  deltaEtaSuperClusterTrackAtVtx : float32;
  deltaPhiSuperClusterTrackAtVtx : float32;
  hcalOverEcal : float32;
  sumChargedHadronPt : float32;
  ecalEnergy : float32;
  eSuperClusterOverP : float32;
  puppiNoLeptonsChargedHadronIso : float32;
  puppiNoLeptonsNeutralHadronIso : float32;
  puppiNoLeptonsPhotonIso : float32
}.
End Electron.

(** A four-momentum, as the angular distances read it, and the candidates
    that are plain kinematics with a particle code: [pat::PackedCandidate],
    [pat::PackedGenParticle] and the constituents of a [reco::GenJet]. *)
Record P4 := { p4_pt : double; p4_eta : double; p4_phi : double; p4_mass : double }.

Module Candidate.
Record t := {
  pdgId : Z;
  pt : double; eta : double; phi : double; mass : double;
  trackHighPurity : bool
}.
Definition p4 (c : t) : P4 :=
  {| p4_pt := pt c; p4_eta := eta c; p4_phi := phi c; p4_mass := mass c |}.
End Candidate.

Module GenJet.
Record t := {
  pdgId : Z;
  pt : double; eta : double; phi : double; mass : double;
  getJetConstituentsQuick : list Candidate.t
}.
Definition p4 (j : t) : P4 :=
  {| p4_pt := pt j; p4_eta := eta j; p4_phi := phi j; p4_mass := mass j |}.
End GenJet.

(** [pat::Jet]; [genParton] is a pointer that may be null and
    [bDiscriminator] returns a [float]. *)
Module Jet.
Record t := {
  pt : double; eta : double; phi : double; mass : double;
  bDiscriminator : String.string -> float32;
  partonFlavour : Z;
  hadronFlavour : Z;
  genParton : option Candidate.t
}.
Definition p4 (j : t) : P4 :=
  {| p4_pt := pt j; p4_eta := eta j; p4_phi := phi j; p4_mass := mass j |}.
End Jet.

Module MET.
Record t := { pt : double; phi : double }.
End MET.

Definition Muon_p4 (m : Muon.t) : P4 :=
  {| p4_pt := Muon.pt m; p4_eta := Muon.eta m; p4_phi := Muon.phi m; p4_mass := 0%float |}.
Definition Electron_p4 (e : Electron.t) : P4 :=
  {| p4_pt := Electron.pt e; p4_eta := Electron.eta e; p4_phi := Electron.phi e;
     p4_mass := 0%float |}.

(** ** External collaborators

    What the two plugins call and do not define: the arc tangent of the
    math library, the standard muon and jet identification, the ME0
    geometry, the conversion matcher and the angular distances of ROOT and
    of [DataFormats/Math].  A chamber that the geometry does not know is
    [None] (a null pointer).  The global points of the geometry have
    [float] coordinates, and [computeDeltaPhi] returns a [float].

    [fabs] and [atan] are called without [std::].  Which functions these
    are depends on the headers that the translation unit has seen: the C
    functions on [double], or the [float] overloads when the [math.h] of
    the C++ library has put them in the global namespace.  The value of
    [fabs] and of [atan] is the same in both cases, as a number; what
    changes is the type of the result, and with it the width of the
    operation that takes it: [cmath_float_overloads] tells which. *)

Module ME0Chamber.
Record t (GlobalPoint : Type) := {
  toGlobal : LocalPoint -> GlobalPoint;
  computeDeltaPhi : LocalPoint -> LocalVector -> float32
}.
Arguments toGlobal {GlobalPoint}.
Arguments computeDeltaPhi {GlobalPoint}.
End ME0Chamber.

Class Collaborators := {
  cmath_float_overloads : bool;
  atan : double -> double;
  isLooseMuon : Muon.t -> bool;
  isMediumMuon : Muon.t -> bool;
  isTightMuon : Muon.t -> Vertex.t -> bool;
  GlobalPoint : Type;
  GlobalPoint_eta : GlobalPoint -> float32;
  GlobalPoint_phi : GlobalPoint -> float32;
  Phi_minus : float32 -> float32 -> float32;
  ME0Geometry_chamber : Z -> option (ME0Chamber.t GlobalPoint);
  ConversionCollection : Type;
  hasMatchedConversion : Electron.t -> ConversionCollection -> Point -> bool;
  VectorUtil_DeltaR : P4 -> P4 -> double;
  reco_deltaR : double -> double -> double -> double -> double;
  jetIDLoose : Jet.t -> bool;
  jetIDTight : Jet.t -> bool
}.

(** The two expressions whose width follows the overload that the
    unqualified call selects. *)
Section OverloadedCalls.
Context {C : Collaborators}.

(** [fabs(a) / b] for a [float] [a] and a [float] [b]: a binary32 division
    when [fabs] is the [float] overload, and the binary64 division of the
    promoted [b] into the [double] that the C function returns
    otherwise. *)
Definition fabs_over (a b : float32) : double :=
  if cmath_float_overloads then Binary32.div (fabs a) b else (fabs a / b)%float.

(** [fabs(atan(a) - atan(b))] for two [float]s: the difference is taken in
    binary32 when [atan] is the [float] overload and in binary64
    otherwise. *)
Definition fabs_atan_diff (a b : float32) : double :=
  fabs (if cmath_float_overloads then Binary32.sub (atan a) (atan b)
        else (atan a - atan b)%float).

End OverloadedCalls.

(** ** The error monad of a crashing event: [None] is an exception or a
    null dereference. *)

Definition bind {A B : Type} (m : option A) (f : A -> option B) : option B :=
  match m with
  | Some a => f a
  | None => None
  end.

Notation "x <- m ;; k" := (bind m (fun x => k))
  (at level 61, m at next level, right associativity).

(** [for] over a vector with a body that may fail. *)
Fixpoint foldM {A S : Type} (body : S -> A -> option S) (l : list A) (s : S) : option S :=
  match l with
  | [] => Some s
  | a :: rest => s' <- body s a ;; foldM body rest s'
  end.

(** ** PatMuonFilter *)

Module PatMuonFilter.

(** The residuals that [isME0MuonSel] keeps across its two loops. *)
Record Residuals := {
  deltaX : double; deltaY : double;
  pullX : double; pullY : double;
  deltaPhi : double
}.

Record Products := {
  LooseMuons : list Muon.t;
  LooseMuonRelIso : list double;
  MediumMuons : list Muon.t;
  MediumMuonRelIso : list double;
  TightMuons : list Muon.t;
  TightMuonRelIso : list double
}.

Section WithCollaborators.
Context {C : Collaborators}.

Definition Residuals_init : Residuals :=
  {| deltaX := 999; deltaY := 999; pullX := 999; pullY := 999; deltaPhi := 999 |}.

(** The body of the inner loop of [isME0MuonSel]: one segment of one
    chamber.  The differences of the positions and the sums of the
    uncertainties are operations on two [float] members, and [std::sqrt]
    takes and returns a [float]. *)
Definition segment_step (chamber : Chamber.t) (r : Residuals) (segment : Segment.t)
  : Residuals :=
  if Chamber.detector chamber =? 5 then
    {| deltaX := fabs (Binary32.sub (Chamber.x chamber) (Segment.x segment));
       deltaY := fabs (Binary32.sub (Chamber.y chamber) (Segment.y segment));
       pullX := fabs_over (Binary32.sub (Chamber.x chamber) (Segment.x segment))
                  (Binary32.sqrt (Binary32.add (Chamber.xErr chamber) (Segment.xErr segment)));
       pullY := fabs_over (Binary32.sub (Chamber.y chamber) (Segment.y segment))
                  (Binary32.sqrt (Binary32.add (Chamber.yErr chamber) (Segment.yErr segment)));
       deltaPhi := fabs_atan_diff (Chamber.dXdZ chamber) (Segment.dXdZ segment) |}
  else r.

Definition chamber_step (r : Residuals) (chamber : Chamber.t) : Residuals :=
  fold_left (segment_step chamber) (Chamber.me0Matches chamber) r.

Definition isME0MuonSel (muon : Muon.t) (pullXCut dXCut pullYCut dYCut dPhi : double)
  : bool :=
  if Muon.isME0Muon muon then
    let r := fold_left chamber_step (Muon.matches muon) Residuals_init in
    let X_MatchFound := (pullX r <? pullXCut)%float || (deltaX r <? dXCut)%float in
    let Y_MatchFound := (pullY r <? pullYCut)%float || (deltaY r <? dYCut)%float in
    let Dir_MatchFound := (deltaPhi r <? dPhi)%float in
    X_MatchFound && Y_MatchFound && Dir_MatchFound
  else false.

(** The body of the inner loop of [isME0MuonSelNew], with the chamber of
    the geometry already fetched.  The two pseudorapidities are [float]s
    and their difference is a binary32 one; [segDPhi] and [trackDPhi] are
    [double] variables. *)
Definition segmentNew_step (me0chamber : ME0Chamber.t GlobalPoint) (chamber : Chamber.t)
    (dEtaCut dPhiCut dPhiBendCut : double) (result : bool) (segment : Segment.t) : bool :=
  let trk_loc_coord :=
    {| lp_x := Chamber.x chamber; lp_y := Chamber.y chamber; lp_z := 0 |} in
  let seg_loc_coord :=
    {| lp_x := Segment.x segment; lp_y := Segment.y segment; lp_z := 0 |} in
  let trk_loc_vec :=
    {| lv_x := Chamber.dXdZ chamber; lv_y := Chamber.dYdZ chamber; lv_z := 1 |} in
  let trk_glb_coord := ME0Chamber.toGlobal me0chamber trk_loc_coord in
  let seg_glb_coord := ME0Chamber.toGlobal me0chamber seg_loc_coord in
  let segDPhi := fabs_atan_diff (Chamber.dXdZ chamber) (Segment.dXdZ segment) in
  let trackDPhi := ME0Chamber.computeDeltaPhi me0chamber trk_loc_coord trk_loc_vec in
  let deltaEta :=
    fabs (Binary32.sub (GlobalPoint_eta trk_glb_coord) (GlobalPoint_eta seg_glb_coord)) in
  let deltaPhi :=
    fabs (Phi_minus (GlobalPoint_phi trk_glb_coord) (GlobalPoint_phi seg_glb_coord)) in
  let deltaPhiBend := fabs (segDPhi - trackDPhi)%float in
  if (deltaEta <? dEtaCut)%float && (deltaPhi <? dPhiCut)%float
     && (deltaPhiBend <? dPhiBendCut)%float
  then true else result.

(** One chamber of the outer loop.  The geometry is asked for the chamber
    once per segment and the pointer is used unchecked, so a chamber with
    segments that the geometry does not know ends the event. *)
Definition chamberNew_step (dEtaCut dPhiCut dPhiBendCut : double)
    (result : bool) (chamber : Chamber.t) : option bool :=
  if Chamber.detector chamber =? 5 then
    match Chamber.me0Matches chamber with
    | [] => Some result
    | _ :: _ =>
        me0chamber <- ME0Geometry_chamber (Chamber.id chamber) ;;
        Some (fold_left (segmentNew_step me0chamber chamber dEtaCut dPhiCut dPhiBendCut)
                (Chamber.me0Matches chamber) result)
    end
  else Some result.

Definition isME0MuonSelNew (muon : Muon.t) (dEtaCut dPhiCut dPhiBendCut : double)
  : option bool :=
  if Muon.isME0Muon muon then
    foldM (chamberNew_step dEtaCut dPhiCut dPhiBendCut) (Muon.matches muon) false
  else Some false.

(** The momentum-dependent cuts of [produce]:
    [std::min(std::max(k/mom, k/100), ceiling)]. *)
Definition dPhiCut_loose (mom : double) : double :=
  std_min (std_max (1.2 / mom) (1.2 / 100)) 0.056.
Definition dPhiBendCut_loose (mom : double) : double :=
  std_min (std_max (0.2 / mom) (0.2 / 100)) 0.0096.
Definition dPhiCut_tight (mom : double) : double :=
  std_min (std_max (1.2 / mom) (1.2 / 100)) 0.032.
Definition dPhiBendCut_tight (mom : double) : double :=
  std_min (std_max (0.2 / mom) (0.2 / 100)) 0.0041.

(** The three isolations are [float]s, added in binary32; the sum is
    promoted for the division by the [double] pt. *)
Definition relIso (muon : Muon.t) : double :=
  (Binary32.add
     (Binary32.add (Muon.puppiNoLeptonsChargedHadronIso muon)
        (Muon.puppiNoLeptonsNeutralHadronIso muon))
     (Muon.puppiNoLeptonsPhotonIso muon)
   / Muon.pt muon)%float.

(** The track requirements [(ipxy, ipz, validPxlHit, highPurity)]; they stay
    [false] without an inner track. *)
Definition trackFlags (muon : Muon.t) (priVertex : Vertex.t)
  : option (bool * bool * bool * bool) :=
  match Muon.innerTrack muon with
  | Some inner =>
      best <- Muon.muonBestTrack muon ;;
      Some ((fabs (Track.dxy best (Vertex.position priVertex)) <? 0.2)%float,
            (fabs (Track.dz best (Vertex.position priVertex)) <? 0.5)%float,
            0 <? Track.numberOfValidPixelHits inner,
            Track.highPurity inner)
  | None => Some (false, false, false, false)
  end.

(** The three decisions of [produce] for a muon that passed the kinematic
    preselection: [(loose, medium, tight)]. *)
Definition tiers (vertices : list Vertex.t) (prVtx : Z) (muon : Muon.t)
  : option (bool * bool * bool) :=
  priVertex <- at_ vertices (size_t_of_int prVtx) ;;
  let isLoose := isLooseMuon muon in
  let isMedium := isMediumMuon muon in
  let isTight := (double_of_int prVtx >? -0.5)%cxx && isTightMuon muon priVertex in
  let mom := Muon.p muon in
  isLooseME0 <- isME0MuonSelNew muon 0.077 (dPhiCut_loose mom) (dPhiBendCut_loose mom) ;;
  flags <- trackFlags muon priVertex ;;
  let '(ipxy, ipz, validPxlHit, highPurity) := flags in
  sel <- isME0MuonSelNew muon 0.077 (dPhiCut_loose mom) (dPhiBendCut_loose mom) ;;
  let isMediumME0 := sel && ipxy && validPxlHit && highPurity in
  selT <- isME0MuonSelNew muon 0.048 (dPhiCut_tight mom) (dPhiBendCut_tight mom) ;;
  let isTightME0 := selT && ipxy && ipz && validPxlHit && highPurity in
  Some (isLoose || (fabs (Muon.eta muon) >? 2.4)%cxx && isLooseME0,
        isMedium || (fabs (Muon.eta muon) >? 2.4)%cxx && isMediumME0,
        isTight || (fabs (Muon.eta muon) >? 2.4)%cxx && isTightME0).

(** The kinematic preselection: [pt >= 2] and [|eta| <= 3], as the two
    [continue]s leave it. *)
Definition preselected (muon : Muon.t) : bool :=
  negb (Muon.pt muon <? 2)%float && negb (fabs (Muon.eta muon) >? 3)%cxx.

Definition push_if {A : Type} (c : bool) (v : list A) (a : A) : list A :=
  if c then v ++ [a] else v.

(** The body of the muon loop. *)
Definition muon_step (vertices : list Vertex.t) (prVtx : Z) (out : Products)
    (muon : Muon.t) : option Products :=
  if (Muon.pt muon <? 2)%float then Some out
  else if (fabs (Muon.eta muon) >? 3)%cxx then Some out
  else
    t <- tiers vertices prVtx muon ;;
    let '(loose, medium, tight) := t in
    Some {| LooseMuons := push_if loose (LooseMuons out) muon;
            LooseMuonRelIso := push_if loose (LooseMuonRelIso out) (relIso muon);
            MediumMuons := push_if medium (MediumMuons out) muon;
            MediumMuonRelIso := push_if medium (MediumMuonRelIso out) (relIso muon);
            TightMuons := push_if tight (TightMuons out) muon;
            TightMuonRelIso := push_if tight (TightMuonRelIso out) (relIso muon) |}.

Definition Products_empty : Products :=
  {| LooseMuons := []; LooseMuonRelIso := []; MediumMuons := []; MediumMuonRelIso := [];
     TightMuons := []; TightMuonRelIso := [] |}.

(** [PatMuonFilter::produce]: the six products put into the event, or
    [None] when the event ends in an exception. *)
Definition produce (vertices : list Vertex.t) (muons : list Muon.t) : option Products :=
  let prVtx := primaryVertex vertices in
  foldM (muon_step vertices prVtx) muons Products_empty.

End WithCollaborators.
End PatMuonFilter.

(** ** The flat event record of the ntupler

    [MiniEvent_t] is a struct of counters and of arrays indexed up to the
    counters.  Its declaration ([MiniEvent.h]) fixes the capacity of the
    arrays; here an array is a total map from the index, so the record
    holds as many entries as an event has. *)

Module MiniEvent.

Inductive Counter := ngj | ngl | nl | nj | nmet | npf | run | lumi | event.

Inductive IntArray :=
  | gj_pid | gl_pid
  | l_id | l_pid | l_g
  | j_id | j_flav | j_hadflav | j_pid | j_g
  | pf_pid | pf_hp.

Inductive FloatArray :=
  | gj_pt | gj_phi | gj_eta | gj_mass
  | gl_pt | gl_phi | gl_eta | gl_mass | gl_relIso
  | l_pt | l_phi | l_eta | l_relIso
  | j_pt | j_phi | j_eta | j_mass | j_csvv2 | j_deepcsv
  | met_pt | met_phi
  | pf_pt | pf_eta | pf_phi | pf_mass | pf_relIso.

Scheme Equality for Counter.
Scheme Equality for IntArray.
Scheme Equality for FloatArray.

Record t := {
  counter : Counter -> Z;
  ints : IntArray -> Z -> Z;
  floats : FloatArray -> Z -> double
}.

Definition set_counter (ev : t) (c : Counter) (v : Z) : t :=
  {| counter := fun c' => if Counter_beq c c' then v else counter ev c';
     ints := ints ev;
     floats := floats ev |}.

Definition set_int (ev : t) (a : IntArray) (i : Z) (v : Z) : t :=
  {| counter := counter ev;
     ints := fun a' i' => if IntArray_beq a a' && (i =? i') then v else ints ev a' i';
     floats := floats ev |}.

Definition set_float (ev : t) (a : FloatArray) (i : Z) (v : double) : t :=
  {| counter := counter ev;
     ints := ints ev;
     floats := fun a' i' => if FloatArray_beq a a' && (i =? i') then v else floats ev a' i' |}.

(** [ev_.n++] *)
Definition incr (ev : t) (c : Counter) : t := set_counter ev c (counter ev c + 1).

End MiniEvent.

(** What the ntupler reads from [edm::Event]. *)
Module Event.
Record t {C : Collaborators} := {
  isRealData : bool;
  id_run : Z;
  luminosityBlock : Z;
  id_event : Z;
  vertices : list Vertex.t;
  elecs : list Electron.t;
  conversions : ConversionCollection;
  beamspot_position : Point;
  muons : list Muon.t;
  mets : list MET.t;
  pfCands : list Candidate.t;
  jets : list Jet.t;
  genParts : list Candidate.t;
  genJets : list GenJet.t
}.
End Event.

(** ** MiniFromPat *)

Module MiniFromPat.
Import MiniEvent.

Section WithCollaborators.
Context {C : Collaborators}.

(** [abs(pdgId) != 11 && abs(pdgId) != 13], the test that skips what is
    no electron and no muon. *)
Definition notLepton (pdgId : Z) : bool :=
  negb (Z.abs pdgId =? 11) && negb (Z.abs pdgId =? 13).

(** *** Generator level *)

(** The overlap loop of a generator jet over the generator particles; it
    breaks at the first lepton that the jet duplicates. *)
Fixpoint genOverlaps (jet : GenJet.t) (genParts : list Candidate.t) : bool :=
  match genParts with
  | [] => false
  | part :: rest =>
      if notLepton (Candidate.pdgId part) then genOverlaps jet rest
      else if (fabs (GenJet.pt jet - Candidate.pt part) <? 0.01 * Candidate.pt part)%float
              && (VectorUtil_DeltaR (Candidate.p4 part) (GenJet.p4 jet) <? 0.01)%float
      then true
      else genOverlaps jet rest
  end.

(** The body of the generator-jet loop.  [jGenJets] holds the selected
    jets in order (the source keeps their indices and reads them back with
    [at]). *)
Definition genJet_step (genParts : list Candidate.t) (st : MiniEvent.t * list GenJet.t)
    (jet : GenJet.t) : MiniEvent.t * list GenJet.t :=
  let '(ev, jGenJets) := st in
  if (GenJet.pt jet <? 20)%float then st
  else if (fabs (GenJet.eta jet) >? 5)%cxx then st
  else if genOverlaps jet genParts then st
  else
    let n := counter ev ngj in
    let ev := set_float ev gj_pt n (GenJet.pt jet) in
    let ev := set_float ev gj_phi n (GenJet.phi jet) in
    let ev := set_float ev gj_eta n (GenJet.eta jet) in
    let ev := set_float ev gj_mass n (GenJet.mass jet) in
    let ev := set_int ev gj_pid n (GenJet.pdgId jet) in
    (incr ev ngj, jGenJets ++ [jet]).

(** The innermost loop of the generator isolation: one jet constituent. *)
Definition constituent_step (part : Candidate.t) (genIso : double) (k : Candidate.t)
  : double :=
  let deltaR := VectorUtil_DeltaR (Candidate.p4 part) (Candidate.p4 k) in
  if (deltaR <? 0.01)%float then genIso
  else if (Z.abs (Candidate.pdgId part) =? 13) && (deltaR >? 0.4)%cxx then genIso
  else if (Z.abs (Candidate.pdgId part) =? 11) && (deltaR >? 0.3)%cxx then genIso
  else (genIso + Candidate.pt k)%float.

Definition genIso_jet_step (part : Candidate.t) (genIso : double) (jet : GenJet.t)
  : double :=
  if (VectorUtil_DeltaR (Candidate.p4 part) (GenJet.p4 jet) >? 0.7)%cxx then genIso
  else fold_left (constituent_step part) (GenJet.getJetConstituentsQuick jet) genIso.

(** The relative isolation of a generator lepton over the selected jets. *)
Definition genIso (part : Candidate.t) (jGenJets : list GenJet.t) : double :=
  (fold_left (genIso_jet_step part) jGenJets 0 / Candidate.pt part)%float.

(** The body of the generator-lepton loop. *)
Definition genLepton_step (jGenJets : list GenJet.t) (ev : MiniEvent.t)
    (part : Candidate.t) : MiniEvent.t :=
  if notLepton (Candidate.pdgId part) then ev
  else if (Candidate.pt part <? 10)%float then ev
  else if (fabs (Candidate.eta part) >? 3)%cxx then ev
  else
    let n := counter ev ngl in
    let ev := set_int ev gl_pid n (Candidate.pdgId part) in
    let ev := set_float ev gl_pt n (Candidate.pt part) in
    let ev := set_float ev gl_phi n (Candidate.phi part) in
    let ev := set_float ev gl_eta n (Candidate.eta part) in
    let ev := set_float ev gl_mass n (Candidate.mass part) in
    let ev := set_float ev gl_relIso n (genIso part jGenJets) in
    incr ev ngl.

Definition genAnalysis (iEvent : Event.t) (ev : MiniEvent.t) : MiniEvent.t :=
  let ev := set_counter ev ngj 0 in
  let '(ev, jGenJets) :=
    fold_left (genJet_step (Event.genParts iEvent)) (Event.genJets iEvent) (ev, []) in
  let ev := set_counter ev ngl 0 in
  fold_left (genLepton_step jGenJets) (Event.genParts iEvent) ev.

(** *** The pull and distance selection of ME0 muons, as the ntupler
    repeats it. *)

Definition segment_step (chamber : Chamber.t) (r : PatMuonFilter.Residuals)
    (segment : Segment.t) : PatMuonFilter.Residuals :=
  if Chamber.detector chamber =? 5 then
    {| PatMuonFilter.deltaX := fabs (Binary32.sub (Chamber.x chamber) (Segment.x segment));
       PatMuonFilter.deltaY := fabs (Binary32.sub (Chamber.y chamber) (Segment.y segment));
       PatMuonFilter.pullX :=
         fabs_over (Binary32.sub (Chamber.x chamber) (Segment.x segment))
           (Binary32.sqrt (Binary32.add (Chamber.xErr chamber) (Segment.xErr segment)));
       PatMuonFilter.pullY :=
         fabs_over (Binary32.sub (Chamber.y chamber) (Segment.y segment))
           (Binary32.sqrt (Binary32.add (Chamber.yErr chamber) (Segment.yErr segment)));
       PatMuonFilter.deltaPhi :=
         fabs_atan_diff (Chamber.dXdZ chamber) (Segment.dXdZ segment) |}
  else r.

Definition chamber_step (r : PatMuonFilter.Residuals) (chamber : Chamber.t)
  : PatMuonFilter.Residuals :=
  fold_left (segment_step chamber) (Chamber.me0Matches chamber) r.

Definition isME0MuonSel (muon : Muon.t) (pullXCut dXCut pullYCut dYCut dPhi : double)
  : bool :=
  if Muon.isME0Muon muon then
    let r := fold_left chamber_step (Muon.matches muon) PatMuonFilter.Residuals_init in
    let X_MatchFound :=
      (PatMuonFilter.pullX r <? pullXCut)%float || (PatMuonFilter.deltaX r <? dXCut)%float in
    let Y_MatchFound :=
      (PatMuonFilter.pullY r <? pullYCut)%float || (PatMuonFilter.deltaY r <? dYCut)%float in
    let Dir_MatchFound := (PatMuonFilter.deltaPhi r <? dPhi)%float in
    X_MatchFound && Y_MatchFound && Dir_MatchFound
  else false.

(** *** Electron identification *)

Section ElectronID.
Variable patEl : Electron.t.
Variable conversions : ConversionCollection.
Variable beamspot_position : Point.

(** The energy-momentum consistency variable, the same four lines in the
    three tiers.  [1./E] divides a [double] by the promoted energy; the
    ratio of the two [float]s [eSuperClusterOverP] and [ecalEnergy] is a
    binary32 division, promoted for the difference. *)
Definition Ooemoop : double :=
  if (Electron.ecalEnergy patEl =? 0)%float then 0%float
  else if negb (isfinite (Electron.ecalEnergy patEl)) then 998%float
  else fabs (1 / Electron.ecalEnergy patEl
             - Binary32.div (Electron.eSuperClusterOverP patEl)
                 (Electron.ecalEnergy patEl))%float.

(** The veto of the gap between barrel and endcap. *)
Definition inGap : bool :=
  (fabs (Electron.superCluster_eta patEl) >? 1.479)%cxx
  && (fabs (Electron.superCluster_eta patEl) <? 1.556)%float.

Definition isLooseElec : bool :=
  if inGap then false
  else if (Electron.full5x5_sigmaIetaIeta patEl >? 0.02992)%cxx then false
  else if (fabs (Electron.deltaEtaSuperClusterTrackAtVtx patEl) >? 0.004119)%cxx then false
  else if (fabs (Electron.deltaPhiSuperClusterTrackAtVtx patEl) >? 0.05176)%cxx then false
  else if (Electron.hcalOverEcal patEl >? 6.741)%cxx then false
  else if ((Electron.sumChargedHadronPt patEl / Electron.pt patEl)%float >? 2.5)%cxx
       then false
  else if (Ooemoop >? 73.76)%cxx then false
  else if hasMatchedConversion patEl conversions beamspot_position then false
  else true.

Definition isMediumElec : bool :=
  if inGap then false
  else if (Electron.full5x5_sigmaIetaIeta patEl >? 0.01609)%cxx then false
  else if (fabs (Electron.deltaEtaSuperClusterTrackAtVtx patEl) >? 0.001766)%cxx then false
  else if (fabs (Electron.deltaPhiSuperClusterTrackAtVtx patEl) >? 0.03130)%cxx then false
  else if (Electron.hcalOverEcal patEl >? 7.371)%cxx then false
  else if ((Electron.sumChargedHadronPt patEl / Electron.pt patEl)%float >? 1.325)%cxx
       then false
  else if (Ooemoop >? 22.6)%cxx then false
  else if hasMatchedConversion patEl conversions beamspot_position then false
  else true.

Definition isTightElec : bool :=
  if inGap then false
  else if (Electron.full5x5_sigmaIetaIeta patEl >? 0.01614)%cxx then false
  else if (fabs (Electron.deltaEtaSuperClusterTrackAtVtx patEl) >? 0.001322)%cxx then false
  else if (fabs (Electron.deltaPhiSuperClusterTrackAtVtx patEl) >? 0.06129)%cxx then false
  else if (Electron.hcalOverEcal patEl >? 4.492)%cxx then false
  else if ((Electron.sumChargedHadronPt patEl / Electron.pt patEl)%float >? 1.255)%cxx
       then false
  else if (Ooemoop >? 18.26)%cxx then false
  else if hasMatchedConversion patEl conversions beamspot_position then false
  else true.

End ElectronID.

(** *** Reconstructed level *)

(** The identification word [isTight | (isMedium<<1) | (isLoose<<2)]. *)
Definition idWord (isLoose isMedium isTight : bool) : Z :=
  Z.lor (int_of_bool isTight)
    (Z.lor (Z.shiftl (int_of_bool isMedium) 1) (Z.shiftl (int_of_bool isLoose) 2)).

(** The association of the lepton being filled (entry [nl]) with the
    generator leptons: [n] iterations are left and [ig] is the index. *)
Fixpoint matchLepton (n : nat) (ig : Z) (ev : MiniEvent.t) : MiniEvent.t :=
  match n with
  | O => ev
  | S n' =>
      let k := counter ev nl in
      matchLepton n' (ig + 1)
        (if negb (Z.abs (ints ev gl_pid ig) =? Z.abs (ints ev l_pid k)) then ev
         else if (reco_deltaR (floats ev gl_eta ig) (floats ev gl_phi ig)
                    (floats ev l_eta k) (floats ev l_phi k) >? 0.4)%cxx then ev
         else set_int ev l_g k ig)
  end.

(** The association of the jet being filled (entry [nj]) with the
    generator jets; it breaks at the first one. *)
Fixpoint matchJet (n : nat) (ig : Z) (ev : MiniEvent.t) : MiniEvent.t :=
  match n with
  | O => ev
  | S n' =>
      let k := counter ev nj in
      if (reco_deltaR (floats ev gj_eta ig) (floats ev gj_phi ig)
            (floats ev j_eta k) (floats ev j_phi k) >? 0.4)%cxx
      then matchJet n' (ig + 1) ev
      else set_int ev j_g k ig
  end.

(** The three muon decisions of [recoAnalysis]; the primary vertex is read
    only when the first two tests of the tight decision hold. *)
Definition muonTiers (vertices : list Vertex.t) (prVtx : Z) (muon : Muon.t)
  : option (bool * bool * bool) :=
  let abseta := fabs (Muon.eta muon) in
  let isLoose :=
    (abseta <? 2.4)%float && isLooseMuon muon
    || (abseta >? 2.4)%cxx && isME0MuonSel muon 3 4 3 4 0.5 in
  let isMedium :=
    (abseta <? 2.4)%float && isMediumMuon muon
    || (abseta >? 2.4)%cxx && isME0MuonSel muon 3 4 3 4 0.3 in
  tightStd <-
    (if (abseta <? 2.4)%float && (0 <? Z.of_nat (List.length vertices))
     then v <- at_ vertices (size_t_of_int prVtx) ;; Some (isTightMuon muon v)
     else Some false) ;;
  let isTight := tightStd || (abseta >? 2.4)%cxx && isME0MuonSel muon 3 4 3 4 0.1 in
  Some (isLoose, isMedium, isTight).

(** Filling entry [nl] of the lepton arrays, the association included. *)
Definition fillLepton (id pid : Z) (pt phi eta relIso : double) (ev : MiniEvent.t)
  : MiniEvent.t :=
  let n := counter ev nl in
  let ev := set_int ev l_id n id in
  let ev := set_int ev l_pid n pid in
  let ev := set_float ev l_pt n pt in
  let ev := set_float ev l_phi n phi in
  let ev := set_float ev l_eta n eta in
  let ev := set_float ev l_relIso n relIso in
  let ev := set_int ev l_g n (-1) in
  let ev := matchLepton (Z.to_nat (counter ev ngl)) 0 ev in
  incr ev nl.

Definition muon_step (vertices : list Vertex.t) (prVtx : Z) (ev : MiniEvent.t)
    (muon : Muon.t) : option MiniEvent.t :=
  if (Muon.pt muon <? 10)%float then Some ev
  else if (fabs (Muon.eta muon) >? 3)%cxx then Some ev
  else
    t <- muonTiers vertices prVtx muon ;;
    let '(isLoose, isMedium, isTight) := t in
    Some (fillLepton (idWord isLoose isMedium isTight) (Muon.charge muon * 13)
            (Muon.pt muon) (Muon.phi muon) (Muon.eta muon)
            (Binary32.add
               (Binary32.add (Muon.puppiNoLeptonsChargedHadronIso muon)
                  (Muon.puppiNoLeptonsNeutralHadronIso muon))
               (Muon.puppiNoLeptonsPhotonIso muon)
             / Muon.pt muon)%float ev).

Definition elec_step (conversions : ConversionCollection) (beamspot_position : Point)
    (ev : MiniEvent.t) (elec : Electron.t) : MiniEvent.t :=
  if (Electron.pt elec <? 10)%float then ev
  else if (fabs (Electron.eta elec) >? 3)%cxx then ev
  else
    let isLoose := isLooseElec elec conversions beamspot_position in
    let isMedium := isMediumElec elec conversions beamspot_position in
    let isTight := isTightElec elec conversions beamspot_position in
    fillLepton (idWord isLoose isMedium isTight) (Electron.charge elec * 11)
      (Electron.pt elec) (Electron.phi elec) (Electron.eta elec)
      (Binary32.add
         (Binary32.add (Electron.puppiNoLeptonsChargedHadronIso elec)
            (Electron.puppiNoLeptonsNeutralHadronIso elec))
         (Electron.puppiNoLeptonsPhotonIso elec)
       / Electron.pt elec)%float ev.

(** The two overlap loops of a jet, over the electrons and over the muons;
    each breaks at the first lepton that the jet duplicates. *)
Fixpoint overlaps (jet : Jet.t) (leptons : list P4) : bool :=
  match leptons with
  | [] => false
  | l :: rest =>
      if (fabs (Jet.pt jet - p4_pt l) <? 0.01 * p4_pt l)%float
         && (VectorUtil_DeltaR l (Jet.p4 jet) <? 0.01)%float
      then true
      else overlaps jet rest
  end.

(** The body of the jet loop.  The identification word goes to entry [nl]
    of [j_id], all the rest to entry [nj].  The two discriminators of
    [j_deepcsv] are [float]s and their sum is a binary32 one. *)
Definition jet_step (elecs : list Electron.t) (muons : list Muon.t) (ev : MiniEvent.t)
    (jet : Jet.t) : MiniEvent.t :=
  if (Jet.pt jet <? 20)%float then ev
  else if (fabs (Jet.eta jet) >? 5)%cxx then ev
  else if overlaps jet (map Electron_p4 elecs) then ev
  else if overlaps jet (map Muon_p4 muons) then ev
  else
    let isLoose := jetIDLoose jet in
    let isTight := jetIDTight jet in
    let n := counter ev nj in
    let ev := set_int ev j_id (counter ev nl)
                (Z.lor (int_of_bool isTight) (Z.shiftl (int_of_bool isLoose) 1)) in
    let ev := set_float ev j_pt n (Jet.pt jet) in
    let ev := set_float ev j_phi n (Jet.phi jet) in
    let ev := set_float ev j_eta n (Jet.eta jet) in
    let ev := set_float ev j_mass n (Jet.mass jet) in
    let ev := set_float ev j_csvv2 n
                (Jet.bDiscriminator jet "pfCombinedInclusiveSecondaryVertexV2BJetTags"%string) in
    let ev := set_float ev j_deepcsv n
                (Binary32.add (Jet.bDiscriminator jet "pfDeepCSVJetTags:probb"%string)
                   (Jet.bDiscriminator jet "pfDeepCSVJetTags:probbb"%string)) in
    let ev := set_int ev j_flav n (Jet.partonFlavour jet) in
    let ev := set_int ev j_hadflav n (Jet.hadronFlavour jet) in
    let ev := set_int ev j_pid n
                match Jet.genParton jet with
                | Some parton => Candidate.pdgId parton
                | None => 0
                end in
    let ev := set_int ev j_g n (-1) in
    let ev := matchJet (Z.to_nat (counter ev ngj)) 0 ev in
    incr ev nj.

(** The isolation of a particle-flow lepton: the sum runs over every
    particle-flow candidate of the event. *)
Definition isoPF_step (cand : Candidate.t) (isoPF : double) (k : Candidate.t) : double :=
  if (VectorUtil_DeltaR (Candidate.p4 cand) (Candidate.p4 k)
      >? (if Z.abs (Candidate.pdgId cand) =? 11 then 0.4%float else 0.3%float))%cxx
  then isoPF
  else (isoPF + Candidate.pt k)%float.

Definition isoPF (cand : Candidate.t) (pfCands : list Candidate.t) : double :=
  (fold_left (isoPF_step cand) pfCands 0 / Candidate.pt cand)%float.

Definition pf_step (pfCands : list Candidate.t) (ev : MiniEvent.t) (cand : Candidate.t)
  : MiniEvent.t :=
  if notLepton (Candidate.pdgId cand) then ev
  else if (Candidate.pt cand <? 10)%float then ev
  else if (fabs (Candidate.eta cand) >? 3)%cxx then ev
  else
    let n := counter ev npf in
    let ev := set_int ev pf_pid n (Candidate.pdgId cand) in
    let ev := set_float ev pf_pt n (Candidate.pt cand) in
    let ev := set_float ev pf_eta n (Candidate.eta cand) in
    let ev := set_float ev pf_phi n (Candidate.phi cand) in
    let ev := set_float ev pf_mass n (Candidate.mass cand) in
    let ev := set_float ev pf_relIso n (isoPF cand pfCands) in
    let ev := set_int ev pf_hp n (int_of_bool (Candidate.trackHighPurity cand)) in
    incr ev npf.

Definition fillMET (mets : list MET.t) (ev : MiniEvent.t) : MiniEvent.t :=
  let ev := set_counter ev nmet 0 in
  match mets with
  | met :: _ =>
      let n := counter ev nmet in
      let ev := set_float ev met_pt n (MET.pt met) in
      let ev := set_float ev met_phi n (MET.phi met) in
      incr ev nmet
  | [] => ev
  end.

Definition recoAnalysis (iEvent : Event.t) (ev : MiniEvent.t) : option MiniEvent.t :=
  let prVtx := primaryVertex (Event.vertices iEvent) in
  if prVtx <? 0 then Some ev
  else
    let ev := set_counter ev nl 0 in
    ev <- foldM (muon_step (Event.vertices iEvent) prVtx) (Event.muons iEvent) ev ;;
    let ev :=
      fold_left (elec_step (Event.conversions iEvent) (Event.beamspot_position iEvent))
        (Event.elecs iEvent) ev in
    let ev := set_counter ev nj 0 in
    let ev := fold_left (jet_step (Event.elecs iEvent) (Event.muons iEvent))
                (Event.jets iEvent) ev in
    let ev := fillMET (Event.mets iEvent) ev in
    let ev := set_counter ev npf 0 in
    Some (fold_left (pf_step (Event.pfCands iEvent)) (Event.pfCands iEvent) ev).

(** [analyze]: the state is the record [ev_] and the entries of the tree
    filled so far. *)
Definition analyze (iEvent : Event.t) (st : MiniEvent.t * list MiniEvent.t)
  : option (MiniEvent.t * list MiniEvent.t) :=
  let '(ev, tree) := st in
  let ev := if negb (Event.isRealData iEvent) then genAnalysis iEvent ev else ev in
  ev <- recoAnalysis iEvent ev ;;
  let ev := set_counter ev run (Event.id_run iEvent) in
  let ev := set_counter ev lumi (Event.luminosityBlock iEvent) in
  let ev := set_counter ev event (Event.id_event iEvent) in
  Some (ev, tree ++ [ev]).

End WithCollaborators.
End MiniFromPat.

(** ** A concrete setting for the examples

    Collaborators to evaluate the plugins with: the identification
    predicates accept everything, the geometry knows no chamber, no
    electron matches a conversion, and the angular distance is the
    Euclidean one in (eta, phi), which is what ROOT and [reco::deltaR]
    compute when the difference of the two azimuths needs no wrapping. *)

Module Sample.

Definition deltaR (eta1 phi1 eta2 phi2 : double) : double :=
  sqrt ((eta1 - eta2) * (eta1 - eta2) + (phi1 - phi2) * (phi1 - phi2))%float.

Definition collaborators : Collaborators :=
  {| cmath_float_overloads := false;
     atan := fun x => x;
     isLooseMuon := fun _ => true;
     isMediumMuon := fun _ => true;
     isTightMuon := fun _ _ => true;
     GlobalPoint := LocalPoint;
     GlobalPoint_eta := lp_x;
     GlobalPoint_phi := lp_y;
     Phi_minus := Binary32.sub;
     ME0Geometry_chamber := fun _ => None;
     ConversionCollection := unit;
     hasMatchedConversion := fun _ _ _ => false;
     VectorUtil_DeltaR := fun a b => deltaR (p4_eta a) (p4_phi a) (p4_eta b) (p4_phi b);
     reco_deltaR := deltaR;
     jetIDLoose := fun _ => true;
     jetIDTight := fun _ => true |}.

Definition origin : Point := {| pos_x := 0; pos_y := 0; pos_z := 0 |}.

(** A central muon of the standard detector, with no track attached. *)
Definition muon (pt eta : double) : Muon.t :=
  {| Muon.pt := pt; Muon.eta := eta; Muon.phi := 0; Muon.p := pt;
     Muon.charge := 1;
     Muon.isME0Muon := false;
     Muon.matches := [];
     Muon.innerTrack := None;
     Muon.muonBestTrack := None;
     Muon.puppiNoLeptonsChargedHadronIso := 0;
     Muon.puppiNoLeptonsNeutralHadronIso := 0;
     Muon.puppiNoLeptonsPhotonIso := 0 |}.

Definition vertex (isFake : bool) (ndof : double) : Vertex.t :=
  {| Vertex.isFake := isFake; Vertex.ndof := ndof; Vertex.position := origin |}.

(** A barrel electron that passes every cut of the three tiers, up to
    the three shape variables given; they are [float]s, the nearest ones
    to the numbers given. *)
Definition electron (sigmaIetaIeta dPhiIn hOverE : double) : Electron.t :=
  {| Electron.pt := 20; Electron.eta := 0; Electron.phi := 0;
     Electron.charge := -1;
     Electron.superCluster_eta := 0;
     Electron.full5x5_sigmaIetaIeta := Binary32.of_double sigmaIetaIeta;
     Electron.deltaEtaSuperClusterTrackAtVtx := 0;
     Electron.deltaPhiSuperClusterTrackAtVtx := Binary32.of_double dPhiIn;
     Electron.hcalOverEcal := Binary32.of_double hOverE;
     Electron.sumChargedHadronPt := 0;
     Electron.ecalEnergy := 50;
     Electron.eSuperClusterOverP := 1;
     Electron.puppiNoLeptonsChargedHadronIso := 0;
     Electron.puppiNoLeptonsNeutralHadronIso := 0;
     Electron.puppiNoLeptonsPhotonIso := 0 |}.

Definition candidate (pdgId : Z) (pt eta phi : double) : Candidate.t :=
  {| Candidate.pdgId := pdgId;
     Candidate.pt := pt; Candidate.eta := eta; Candidate.phi := phi;
     Candidate.mass := 0;
     Candidate.trackHighPurity := true |}.

(** An ME0 chamber match with one segment, given the two positions along
    x and the two uncertainties, as the nearest [float]s; nothing differs
    along y. *)
Definition segment (x xErr : double) : Segment.t :=
  {| Segment.x := Binary32.of_double x; Segment.y := 0;
     Segment.xErr := Binary32.of_double xErr; Segment.yErr := 1;
     Segment.dXdZ := 0; Segment.dYdZ := 0 |}.

Definition chamber (x xErr segx segxErr : double) : Chamber.t :=
  {| Chamber.id := 1; Chamber.detector := 5;
     Chamber.x := Binary32.of_double x; Chamber.y := 0;
     Chamber.xErr := Binary32.of_double xErr; Chamber.yErr := 1;
     Chamber.dXdZ := 0; Chamber.dYdZ := 0;
     Chamber.me0Matches := [segment segx segxErr] |}.

Definition me0muon (matches : list Chamber.t) : Muon.t :=
  {| Muon.pt := 20; Muon.eta := 2.6; Muon.phi := 0; Muon.p := 100;
     Muon.charge := 1;
     Muon.isME0Muon := true;
     Muon.matches := matches;
     Muon.innerTrack := None;
     Muon.muonBestTrack := None;
     Muon.puppiNoLeptonsChargedHadronIso := 0;
     Muon.puppiNoLeptonsNeutralHadronIso := 0;
     Muon.puppiNoLeptonsPhotonIso := 0 |}.

(** A record with nothing in it, and a simulated event (run 1, luminosity
    block 1, event 1) with no electron, no jet and no missing energy. *)
Definition ev0 : MiniEvent.t :=
  {| MiniEvent.counter := fun _ => 0;
     MiniEvent.ints := fun _ _ => 0;
     MiniEvent.floats := fun _ _ => 0%float |}.

Definition event (vertices : list Vertex.t) (muons : list Muon.t)
    (pfCands genParts : list Candidate.t) (genJets : list GenJet.t)
  : @Event.t collaborators :=
  @Event.Build_t collaborators
    false 1 1 1 vertices [] tt origin muons [] pfCands [] genParts genJets.



(** The same collaborators with a geometry that knows every chamber, at
    the place that its local coordinates give. *)
Definition knownChamber : ME0Chamber.t LocalPoint :=
  ME0Chamber.Build_t LocalPoint (fun p => p) (fun _ _ => 0%float).

Definition collaboratorsWithGeometry : Collaborators :=
  {| cmath_float_overloads := false;
     atan := fun x => x;
     isLooseMuon := fun _ => true;
     isMediumMuon := fun _ => true;
     isTightMuon := fun _ _ => true;
     GlobalPoint := LocalPoint;
     GlobalPoint_eta := lp_x;
     GlobalPoint_phi := lp_y;
     Phi_minus := Binary32.sub;
     ME0Geometry_chamber := fun _ => Some knownChamber;
     ConversionCollection := unit;
     hasMatchedConversion := fun _ _ _ => false;
     VectorUtil_DeltaR :=
       fun a b => deltaR (p4_eta a) (p4_phi a) (p4_eta b) (p4_phi b);
     reco_deltaR := deltaR;
     jetIDLoose := fun _ => true;
     jetIDTight := fun _ => true |}.

(** The first collaborators again, where the unqualified [fabs] and [atan]
    are the [float] overloads. *)
Definition collaboratorsWithOverloads : Collaborators :=
  {| cmath_float_overloads := true;
     atan := fun x => x;
     isLooseMuon := fun _ => true;
     isMediumMuon := fun _ => true;
     isTightMuon := fun _ _ => true;
     GlobalPoint := LocalPoint;
     GlobalPoint_eta := lp_x;
     GlobalPoint_phi := lp_y;
     Phi_minus := Binary32.sub;
     ME0Geometry_chamber := fun _ => None;
     ConversionCollection := unit;
     hasMatchedConversion := fun _ _ _ => false;
     VectorUtil_DeltaR :=
       fun a b => deltaR (p4_eta a) (p4_phi a) (p4_eta b) (p4_phi b);
     reco_deltaR := deltaR;
     jetIDLoose := fun _ => true;
     jetIDTight := fun _ => true |}.

(** An event of real data with nothing in it, and a jet and a missing
    energy to put into an event. *)
Definition dataEvent : @Event.t collaborators :=
  @Event.Build_t collaborators true 1 1 2 [] [] tt origin [] [] [] [] [] [].

Definition jet (pt eta : double) : Jet.t :=
  {| Jet.pt := pt; Jet.eta := eta; Jet.phi := 1; Jet.mass := 5;
     Jet.bDiscriminator := fun _ => 0%float;
     Jet.partonFlavour := 5; Jet.hadronFlavour := 5;
     Jet.genParton := None |}.

Definition met (pt : double) : MET.t := {| MET.pt := pt; MET.phi := 0 |}.

(** A muon and an electron whose isolations add up differently in
    binary32 and in binary64, and a jet whose two discriminators do. *)
Definition isolatedMuon : Muon.t :=
  {| Muon.pt := 16; Muon.eta := 0; Muon.phi := 0; Muon.p := 16;
     Muon.charge := 1;
     Muon.isME0Muon := false;
     Muon.matches := [];
     Muon.innerTrack := None;
     Muon.muonBestTrack := None;
     Muon.puppiNoLeptonsChargedHadronIso := 1;
     Muon.puppiNoLeptonsNeutralHadronIso := 0x1p-24;
     Muon.puppiNoLeptonsPhotonIso := 0x1p-24 |}.

Definition electronAt (eta : double) : Electron.t :=
  {| Electron.pt := 20; Electron.eta := eta; Electron.phi := 0;
     Electron.charge := -1;
     Electron.superCluster_eta := eta;
     Electron.full5x5_sigmaIetaIeta := 0;
     Electron.deltaEtaSuperClusterTrackAtVtx := 0;
     Electron.deltaPhiSuperClusterTrackAtVtx := 0;
     Electron.hcalOverEcal := 0;
     Electron.sumChargedHadronPt := 0;
     Electron.ecalEnergy := 50;
     Electron.eSuperClusterOverP := 1;
     Electron.puppiNoLeptonsChargedHadronIso := 1;
     Electron.puppiNoLeptonsNeutralHadronIso := 0x1p-24;
     Electron.puppiNoLeptonsPhotonIso := 0x1p-24 |}.

Definition bjet (pt eta : double) : Jet.t :=
  {| Jet.pt := pt; Jet.eta := eta; Jet.phi := 1; Jet.mass := 5;
     Jet.bDiscriminator := fun tag =>
       if String.eqb tag "pfDeepCSVJetTags:probb" then 0.5%float
       else if String.eqb tag "pfDeepCSVJetTags:probbb" then 0x1p-26%float
       else 0.25%float;
     Jet.partonFlavour := 5; Jet.hadronFlavour := 5;
     Jet.genParton := None |}.

(** An electron of the barrel with the given energy in the calorimeter
    and the given ratio of the energy of the supercluster to the momentum,
    and nothing else that a tier could reject. *)
Definition electronOf (ecalEnergy eSuperClusterOverP : double) : Electron.t :=
  {| Electron.pt := 20; Electron.eta := 0; Electron.phi := 0;
     Electron.charge := -1;
     Electron.superCluster_eta := 0;
     Electron.full5x5_sigmaIetaIeta := 0;
     Electron.deltaEtaSuperClusterTrackAtVtx := 0;
     Electron.deltaPhiSuperClusterTrackAtVtx := 0;
     Electron.hcalOverEcal := 0;
     Electron.sumChargedHadronPt := 0;
     Electron.ecalEnergy := Binary32.of_double ecalEnergy;
     Electron.eSuperClusterOverP := Binary32.of_double eSuperClusterOverP;
     Electron.puppiNoLeptonsChargedHadronIso := 0;
     Electron.puppiNoLeptonsNeutralHadronIso := 0;
     Electron.puppiNoLeptonsPhotonIso := 0 |}.

Definition genJet (eta phi : double) : GenJet.t :=
  {| GenJet.pdgId := 0; GenJet.pt := 40; GenJet.eta := eta; GenJet.phi := phi;
     GenJet.mass := 5; GenJet.getJetConstituentsQuick := [] |}.

(** A simulated event with one good vertex, that muon, that electron at
    eta 1, and two jets at eta 2 and -2.  At the generator level: two muons
    near the reconstructed one, the nearer one first, an electron on the
    reconstructed one, and two jets near the reconstructed jet at eta 2,
    the nearer one last. *)
Definition busyEvent : @Event.t collaborators :=
  @Event.Build_t collaborators false 1 1 4
    [vertex false 10] [electronAt 1] tt origin [isolatedMuon]
    [met 30] [] [bjet 50 2; bjet 60 (-2)]
    [candidate 13 20 0 0; candidate (-13) 20 0.125 0; candidate 11 20 1 0]
    [genJet 2.25 1; genJet 2 1].


(** One good vertex, one muon, two jets, two missing energies and one
    particle-flow muon. *)
Definition fullEvent : @Event.t collaborators :=
  @Event.Build_t collaborators false 1 1 3
    [vertex false 10] [] tt origin [muon 20 0]
    [met 30; met 40] [candidate 13 20 0 0] [jet 50 1; jet 60 2] [] [].

End Sample.

(** ** Predicates that the statements use *)

(** A vertex that the primary-vertex search accepts: not fake, and with
    more than 4 degrees of freedom or with a NaN in their place. *)
Definition acceptedVertex (v : Vertex.t) : bool :=
  negb (Vertex.isFake v) && ((Vertex.ndof v >? 4)%cxx || is_nan (Vertex.ndof v)).

(** A vertex as the specification describes the valid ones: not fake and
    with more than 4 degrees of freedom. *)
Definition validVertex (v : Vertex.t) : bool :=
  negb (Vertex.isFake v) && (Vertex.ndof v >? 4)%cxx.


(** [std::signbit] of a zero: the double is [-0.0]. *)
Definition isNegZero (x : double) : bool := is_zero x && get_sign x.

Section ME0Pairs.
Context {C : Collaborators}.

(** The (chamber, segment) pairs of the ME0 chambers of a muon, in the
    order in which the two loops of the selections visit them. *)
Definition me0Pairs (muon : Muon.t) : list (Chamber.t * Segment.t) :=
  flat_map
    (fun chamber =>
       if Chamber.detector chamber =? 5
       then map (pair chamber) (Chamber.me0Matches chamber)
       else [])
    (Muon.matches muon).

(** The residuals of one pair: the distances are the absolute values of
    the binary32 differences of the positions, the pulls divide them by the
    binary32 square root of the binary32 sum of the two uncertainties. *)
Definition residualsOf (p : Chamber.t * Segment.t) : PatMuonFilter.Residuals :=
  let '(chamber, segment) := p in
  {| PatMuonFilter.deltaX := fabs (Binary32.sub (Chamber.x chamber) (Segment.x segment));
     PatMuonFilter.deltaY := fabs (Binary32.sub (Chamber.y chamber) (Segment.y segment));
     PatMuonFilter.pullX :=
       fabs_over (Binary32.sub (Chamber.x chamber) (Segment.x segment))
         (Binary32.sqrt (Binary32.add (Chamber.xErr chamber) (Segment.xErr segment)));
     PatMuonFilter.pullY :=
       fabs_over (Binary32.sub (Chamber.y chamber) (Segment.y segment))
         (Binary32.sqrt (Binary32.add (Chamber.yErr chamber) (Segment.yErr segment)));
     PatMuonFilter.deltaPhi :=
       fabs_atan_diff (Chamber.dXdZ chamber) (Segment.dXdZ segment) |}.

(** The residuals of the last pair, or the initial 999s of a muon with no
    pair. *)
Definition lastResiduals (muon : Muon.t) : PatMuonFilter.Residuals :=
  last (map residualsOf (me0Pairs muon)) PatMuonFilter.Residuals_init.

(** The cuts of the pull and distance selection on given residuals. *)
Definition passesPull (r : PatMuonFilter.Residuals)
    (pullXCut dXCut pullYCut dYCut dPhi : double) : bool :=
  ((PatMuonFilter.pullX r <? pullXCut)%float || (PatMuonFilter.deltaX r <? dXCut)%float)
  && ((PatMuonFilter.pullY r <? pullYCut)%float || (PatMuonFilter.deltaY r <? dYCut)%float)
  && (PatMuonFilter.deltaPhi r <? dPhi)%float.

(** The three angles of one pair in a chamber of the geometry: the
    distances in pseudorapidity and in azimuth between the track and the
    segment in the global frame, and the distance between the bending of
    the segment and the one expected of the track. *)
Record Angles := {
  deltaEta : double;
  deltaPhi : double;
  deltaPhiBend : double
}.

Definition anglesOf (me0chamber : ME0Chamber.t GlobalPoint) (p : Chamber.t * Segment.t)
  : Angles :=
  let '(chamber, segment) := p in
  let trk := {| lp_x := Chamber.x chamber; lp_y := Chamber.y chamber; lp_z := 0 |} in
  let seg := {| lp_x := Segment.x segment; lp_y := Segment.y segment; lp_z := 0 |} in
  let dir := {| lv_x := Chamber.dXdZ chamber; lv_y := Chamber.dYdZ chamber; lv_z := 1 |} in
  {| deltaEta :=
       fabs (Binary32.sub (GlobalPoint_eta (ME0Chamber.toGlobal me0chamber trk))
               (GlobalPoint_eta (ME0Chamber.toGlobal me0chamber seg)));
     deltaPhi :=
       fabs (Phi_minus (GlobalPoint_phi (ME0Chamber.toGlobal me0chamber trk))
               (GlobalPoint_phi (ME0Chamber.toGlobal me0chamber seg)));
     deltaPhiBend :=
       fabs (fabs_atan_diff (Chamber.dXdZ chamber) (Segment.dXdZ segment)
             - ME0Chamber.computeDeltaPhi me0chamber trk dir)%float |}.

(** The cuts of the angle and eta selection on one pair: each of the three
    angles is below its cut.  A chamber that the geometry does not know
    passes nothing. *)
Definition passesAngle (dEtaCut dPhiCut dPhiBendCut : double)
    (p : Chamber.t * Segment.t) : bool :=
  match ME0Geometry_chamber (Chamber.id (fst p)) with
  | Some me0chamber =>
      (deltaEta (anglesOf me0chamber p) <? dEtaCut)%float
      && (deltaPhi (anglesOf me0chamber p) <? dPhiCut)%float
      && (deltaPhiBend (anglesOf me0chamber p) <? dPhiBendCut)%float
  | None => false
  end.

End ME0Pairs.


Section Associations.
Context {C : Collaborators}.




(** The same two tests between entries of one record, as the loops make
    them on the entry being filled.  Generator lepton [ig] qualifies for
    the lepton of entry [k]: the same absolute particle code, and an
    angular distance that is not above 0.4. *)
Definition leptonQualifies (ev : MiniEvent.t) (k ig : Z) : bool :=
  (Z.abs (MiniEvent.ints ev MiniEvent.gl_pid ig)
   =? Z.abs (MiniEvent.ints ev MiniEvent.l_pid k))
  && negb (reco_deltaR (MiniEvent.floats ev MiniEvent.gl_eta ig)
             (MiniEvent.floats ev MiniEvent.gl_phi ig)
             (MiniEvent.floats ev MiniEvent.l_eta k)
             (MiniEvent.floats ev MiniEvent.l_phi k) >? 0.4)%cxx.

(** Generator jet [ig] qualifies for the reconstructed jet of entry [k]:
    an angular distance that is not above 0.4. *)
Definition jetQualifies (ev : MiniEvent.t) (k ig : Z) : bool :=
  negb (reco_deltaR (MiniEvent.floats ev MiniEvent.gj_eta ig)
          (MiniEvent.floats ev MiniEvent.gj_phi ig)
          (MiniEvent.floats ev MiniEvent.j_eta k)
          (MiniEvent.floats ev MiniEvent.j_phi k) >? 0.4)%cxx.

End Associations.



(** The shape of a momentum-dependent cut [cut] with numerator [k] and
    ceiling [ceiling], at two momenta [p1] and [p2]: the cut is the clamp
    of [k / p] between [k / 100] and the ceiling, it does not grow from
    [p1] to [p2], and it lies between its bounds. *)
Definition clampShape (k ceiling : double) (cut : double -> double) (p1 p2 : double)
  : Prop :=
  cut p1 = std_min (std_max (k / p1) (k / 100)) ceiling
  /\ (cut p2 <=? cut p1)%float = true
  /\ (k / 100 <=? cut p1)%float = true
  /\ (cut p1 <=? ceiling)%float = true.

(** What the loops of the ntupler keep, as their [continue]s leave it. *)
Section Selections.
Context {C : Collaborators}.

(** The cuts of an electron tier beside the one on the energy-momentum
    variable, with the thresholds of the tier on the shower shape, the two
    track-cluster distances, the hadronic fraction and the charged
    isolation. *)
Definition passesShapeCuts (sigma dEta dPhi hOverE iso : double) (patEl : Electron.t)
    (conversions : ConversionCollection) (bs : Point) : bool :=
  negb (MiniFromPat.inGap patEl)
  && negb (Electron.full5x5_sigmaIetaIeta patEl >? sigma)%cxx
  && negb (fabs (Electron.deltaEtaSuperClusterTrackAtVtx patEl) >? dEta)%cxx
  && negb (fabs (Electron.deltaPhiSuperClusterTrackAtVtx patEl) >? dPhi)%cxx
  && negb (Electron.hcalOverEcal patEl >? hOverE)%cxx
  && negb ((Electron.sumChargedHadronPt patEl / Electron.pt patEl)%float >? iso)%cxx
  && negb (hasMatchedConversion patEl conversions bs).

Definition selectedGenJet (genParts : list Candidate.t) (jet : GenJet.t) : bool :=
  negb (GenJet.pt jet <? 20)%float && negb (fabs (GenJet.eta jet) >? 5)%cxx
  && negb (MiniFromPat.genOverlaps jet genParts).

Definition selectedLepton (part : Candidate.t) : bool :=
  negb (MiniFromPat.notLepton (Candidate.pdgId part))
  && negb (Candidate.pt part <? 10)%float && negb (fabs (Candidate.eta part) >? 3)%cxx.

Definition selectedMuon (muon : Muon.t) : bool :=
  negb (Muon.pt muon <? 10)%float && negb (fabs (Muon.eta muon) >? 3)%cxx.

Definition selectedElectron (elec : Electron.t) : bool :=
  negb (Electron.pt elec <? 10)%float && negb (fabs (Electron.eta elec) >? 3)%cxx.

Definition selectedJet (elecs : list Electron.t) (muons : list Muon.t) (jet : Jet.t) : bool :=
  negb (Jet.pt jet <? 20)%float && negb (fabs (Jet.eta jet) >? 5)%cxx
  && negb (MiniFromPat.overlaps jet (map Electron_p4 elecs))
  && negb (MiniFromPat.overlaps jet (map Muon_p4 muons)).

End Selections.

(** Two records that agree on every counter and array outside the listed
    ones. *)
Definition agreeOutside (cs : list MiniEvent.Counter) (ia : list MiniEvent.IntArray)
    (fa : list MiniEvent.FloatArray) (ev ev' : MiniEvent.t) : Prop :=
  (forall c, existsb (MiniEvent.Counter_beq c) cs = false ->
     MiniEvent.counter ev' c = MiniEvent.counter ev c)
  /\ (forall a i, existsb (MiniEvent.IntArray_beq a) ia = false ->
        MiniEvent.ints ev' a i = MiniEvent.ints ev a i)
  /\ (forall a i, existsb (MiniEvent.FloatArray_beq a) fa = false ->
        MiniEvent.floats ev' a i = MiniEvent.floats ev a i).

(** The counters and arrays of the generator level and of the
    reconstructed level. *)
Definition generatorCounters := [MiniEvent.ngj; MiniEvent.ngl].
Definition generatorInts := [MiniEvent.gj_pid; MiniEvent.gl_pid].
Definition generatorFloats :=
  [MiniEvent.gj_pt; MiniEvent.gj_phi; MiniEvent.gj_eta; MiniEvent.gj_mass;
   MiniEvent.gl_pt; MiniEvent.gl_phi; MiniEvent.gl_eta; MiniEvent.gl_mass;
   MiniEvent.gl_relIso].

Definition recoCounters := [MiniEvent.nl; MiniEvent.nj; MiniEvent.nmet; MiniEvent.npf].
Definition recoInts :=
  [MiniEvent.l_id; MiniEvent.l_pid; MiniEvent.l_g;
   MiniEvent.j_id; MiniEvent.j_flav; MiniEvent.j_hadflav; MiniEvent.j_pid; MiniEvent.j_g;
   MiniEvent.pf_pid; MiniEvent.pf_hp].
Definition recoFloats :=
  [MiniEvent.l_pt; MiniEvent.l_phi; MiniEvent.l_eta; MiniEvent.l_relIso;
   MiniEvent.j_pt; MiniEvent.j_phi; MiniEvent.j_eta; MiniEvent.j_mass;
   MiniEvent.j_csvv2; MiniEvent.j_deepcsv;
   MiniEvent.met_pt; MiniEvent.met_phi;
   MiniEvent.pf_pt; MiniEvent.pf_eta; MiniEvent.pf_phi; MiniEvent.pf_mass;
   MiniEvent.pf_relIso].

(** What makes the muon filter end in an exception at a muon, once the
    primary vertex is read: an ME0 chamber with segments that the geometry
    does not know, or an inner track with no best track beside it. *)
Section FilterPredicates.
Context {C : Collaborators}.

Definition unknownChamber (chamber : Chamber.t) : bool :=
  (Chamber.detector chamber =? 5)
  && match Chamber.me0Matches chamber with
     | [] => false
     | _ :: _ => true
     end
  && match ME0Geometry_chamber (Chamber.id chamber) with
     | None => true
     | Some _ => false
     end.

Definition me0Throws (muon : Muon.t) : bool :=
  Muon.isME0Muon muon && existsb unknownChamber (Muon.matches muon).

Definition trackThrows (muon : Muon.t) : bool :=
  match Muon.innerTrack muon, Muon.muonBestTrack muon with
  | Some _, None => true
  | _, _ => false
  end.

Definition muonThrows (muon : Muon.t) : bool :=
  PatMuonFilter.preselected muon && (me0Throws muon || trackThrows muon).

(** The decision of the filter on a muon, for one of the three tiers. *)
Definition keeps (tier : bool * bool * bool -> bool) (vertices : list Vertex.t)
    (muon : Muon.t) : bool :=
  PatMuonFilter.preselected muon
  && match PatMuonFilter.tiers vertices (primaryVertex vertices) muon with
     | Some t => tier t
     | None => false
     end.

End FilterPredicates.

Definition looseOf (t : bool * bool * bool) : bool := fst (fst t).
Definition mediumOf (t : bool * bool * bool) : bool := snd (fst t).
Definition tightOf (t : bool * bool * bool) : bool := snd t.

(** Every value below [a] is below [b]. *)
Definition looser (a b : double) : Prop :=
  forall d : double, (d <? a)%float = true -> (d <? b)%float = true.

(** The entries of the record, array by array, and what the loops write
    into them for one element of a collection. *)
Section Rows.
Context {C : Collaborators}.
Import MiniEvent.

Definition gjRow (s : MiniEvent.t * list GenJet.t) (i : Z) :=
  (ints (fst s) gj_pid i, floats (fst s) gj_pt i, floats (fst s) gj_phi i,
   floats (fst s) gj_eta i, floats (fst s) gj_mass i).

Definition gjRowOf (jet : GenJet.t) :=
  (GenJet.pdgId jet, GenJet.pt jet, GenJet.phi jet, GenJet.eta jet, GenJet.mass jet).

Definition glRow (ev : MiniEvent.t) (i : Z) :=
  (ints ev gl_pid i, floats ev gl_pt i, floats ev gl_phi i, floats ev gl_eta i,
   floats ev gl_mass i, floats ev gl_relIso i).

Definition glRowOf (jGenJets : list GenJet.t) (part : Candidate.t) :=
  (Candidate.pdgId part, Candidate.pt part, Candidate.phi part, Candidate.eta part,
   Candidate.mass part, MiniFromPat.genIso part jGenJets).

Definition lRow (ev : MiniEvent.t) (i : Z) :=
  (ints ev l_id i, ints ev l_pid i, floats ev l_pt i, floats ev l_phi i,
   floats ev l_eta i, floats ev l_relIso i).

Definition muonRelIso (muon : Muon.t) : double :=
  (Binary32.add
     (Binary32.add (Muon.puppiNoLeptonsChargedHadronIso muon)
        (Muon.puppiNoLeptonsNeutralHadronIso muon))
     (Muon.puppiNoLeptonsPhotonIso muon)
   / Muon.pt muon)%float.

(** The identification word of a muon; the tiers are there whenever the
    primary vertex can be read. *)
Definition muonWord (vertices : list Vertex.t) (prVtx : Z) (muon : Muon.t) : Z :=
  match MiniFromPat.muonTiers vertices prVtx muon with
  | Some (isLoose, isMedium, isTight) => MiniFromPat.idWord isLoose isMedium isTight
  | None => 0
  end.

Definition muonRowOf (vertices : list Vertex.t) (prVtx : Z) (muon : Muon.t) :=
  (muonWord vertices prVtx muon, Muon.charge muon * 13,
   Muon.pt muon, Muon.phi muon, Muon.eta muon, muonRelIso muon).

(** The body of the muon loop of [recoAnalysis] once the primary vertex
    can be read (see [muon_step_fill]). *)
Definition muon_fill (vertices : list Vertex.t) (prVtx : Z) (ev : MiniEvent.t)
    (muon : Muon.t) : MiniEvent.t :=
  if selectedMuon muon then
    MiniFromPat.fillLepton (muonWord vertices prVtx muon) (Muon.charge muon * 13)
      (Muon.pt muon) (Muon.phi muon) (Muon.eta muon) (muonRelIso muon) ev
  else ev.

Definition elecRelIso (elec : Electron.t) : double :=
  (Binary32.add
     (Binary32.add (Electron.puppiNoLeptonsChargedHadronIso elec)
        (Electron.puppiNoLeptonsNeutralHadronIso elec))
     (Electron.puppiNoLeptonsPhotonIso elec)
   / Electron.pt elec)%float.

Definition elecWord (conversions : ConversionCollection) (bs : Point) (elec : Electron.t)
  : Z :=
  MiniFromPat.idWord (MiniFromPat.isLooseElec elec conversions bs)
    (MiniFromPat.isMediumElec elec conversions bs)
    (MiniFromPat.isTightElec elec conversions bs).

Definition elecRowOf (conversions : ConversionCollection) (bs : Point) (elec : Electron.t) :=
  (elecWord conversions bs elec, Electron.charge elec * 11,
   Electron.pt elec, Electron.phi elec, Electron.eta elec, elecRelIso elec).

Definition jetWord (jet : Jet.t) : Z :=
  Z.lor (int_of_bool (jetIDTight jet)) (Z.shiftl (int_of_bool (jetIDLoose jet)) 1).

Definition jRow (ev : MiniEvent.t) (i : Z) :=
  (ints ev j_flav i, ints ev j_hadflav i, ints ev j_pid i,
   floats ev j_pt i, floats ev j_phi i, floats ev j_eta i, floats ev j_mass i,
   floats ev j_csvv2 i, floats ev j_deepcsv i).

Definition jRowOf (jet : Jet.t) :=
  (Jet.partonFlavour jet, Jet.hadronFlavour jet,
   match Jet.genParton jet with
   | Some parton => Candidate.pdgId parton
   | None => 0
   end,
   Jet.pt jet, Jet.phi jet, Jet.eta jet, Jet.mass jet,
   Jet.bDiscriminator jet "pfCombinedInclusiveSecondaryVertexV2BJetTags"%string,
   Binary32.add (Jet.bDiscriminator jet "pfDeepCSVJetTags:probb"%string)
     (Jet.bDiscriminator jet "pfDeepCSVJetTags:probbb"%string)).

Definition pfRow (ev : MiniEvent.t) (i : Z) :=
  (ints ev pf_pid i, ints ev pf_hp i, floats ev pf_pt i, floats ev pf_eta i,
   floats ev pf_phi i, floats ev pf_mass i, floats ev pf_relIso i).

Definition pfRowOf (pfCands : list Candidate.t) (cand : Candidate.t) :=
  (Candidate.pdgId cand, int_of_bool (Candidate.trackHighPurity cand),
   Candidate.pt cand, Candidate.eta cand, Candidate.phi cand, Candidate.mass cand,
   MiniFromPat.isoPF cand pfCands).

(** The record after each loop of [recoAnalysis], in an event with a
    primary vertex (see [recoAnalysis_stages]). *)
Definition afterMuons (iEvent : Event.t) (ev : MiniEvent.t) : MiniEvent.t :=
  fold_left (muon_fill (Event.vertices iEvent) (primaryVertex (Event.vertices iEvent)))
    (Event.muons iEvent) (set_counter ev nl 0).

Definition afterElectrons (iEvent : Event.t) (ev : MiniEvent.t) : MiniEvent.t :=
  fold_left (MiniFromPat.elec_step (Event.conversions iEvent) (Event.beamspot_position iEvent))
    (Event.elecs iEvent) (afterMuons iEvent ev).

Definition afterJets (iEvent : Event.t) (ev : MiniEvent.t) : MiniEvent.t :=
  fold_left (MiniFromPat.jet_step (Event.elecs iEvent) (Event.muons iEvent))
    (Event.jets iEvent) (set_counter (afterElectrons iEvent ev) nj 0).

Definition afterMET (iEvent : Event.t) (ev : MiniEvent.t) : MiniEvent.t :=
  MiniFromPat.fillMET (Event.mets iEvent) (afterJets iEvent ev).

Definition afterPF (iEvent : Event.t) (ev : MiniEvent.t) : MiniEvent.t :=
  fold_left (MiniFromPat.pf_step (Event.pfCands iEvent)) (Event.pfCands iEvent)
    (set_counter (afterMET iEvent ev) npf 0).

(** The products of the filter after the muons [done]. *)
Definition productsOf (vertices : list Vertex.t) (done : list Muon.t)
  : PatMuonFilter.Products :=
  let loose := filter (keeps looseOf vertices) done in
  let medium := filter (keeps mediumOf vertices) done in
  let tight := filter (keeps tightOf vertices) done in
  {| PatMuonFilter.LooseMuons := loose;
     PatMuonFilter.LooseMuonRelIso := map PatMuonFilter.relIso loose;
     PatMuonFilter.MediumMuons := medium;
     PatMuonFilter.MediumMuonRelIso := map PatMuonFilter.relIso medium;
     PatMuonFilter.TightMuons := tight;
     PatMuonFilter.TightMuonRelIso := map PatMuonFilter.relIso tight |}.

End Rows.

(** The constituents that the isolation of a generator lepton sums: those
    of the jets within 0.7 of the lepton, that are not within 0.01 of it
    and not beyond its cone (0.4 for a muon, 0.3 for an electron). *)
Section GeneratorIsolation.
Context {C : Collaborators}.

Definition nearJet (part : Candidate.t) (jet : GenJet.t) : bool :=
  negb (VectorUtil_DeltaR (Candidate.p4 part) (GenJet.p4 jet) >? 0.7)%cxx.

Definition inGenCone (part k : Candidate.t) : bool :=
  let deltaR := VectorUtil_DeltaR (Candidate.p4 part) (Candidate.p4 k) in
  negb (deltaR <? 0.01)%float
  && negb ((Z.abs (Candidate.pdgId part) =? 13) && (deltaR >? 0.4)%cxx)
  && negb ((Z.abs (Candidate.pdgId part) =? 11) && (deltaR >? 0.3)%cxx).

End GeneratorIsolation.

(** * Properties *)

(** ** Facts on the order of binary64 numbers *)

Module IEEE754Facts.
Import IEEE754.

Lemma digits2_pos_bounds m :
  2 ^ (Zpos (digits2_pos m) - 1) <= Zpos m < 2 ^ Zpos (digits2_pos m).
Proof.
  induction m as [m IH|m IH|]; simpl digits2_pos.
  - rewrite Pos2Z.inj_succ.
    replace (Z.succ (Zpos (digits2_pos m)) - 1) with (Z.succ (Zpos (digits2_pos m) - 1))
      by lia.
    rewrite !Z.pow_succ_r by lia. lia.
  - rewrite Pos2Z.inj_succ.
    replace (Z.succ (Zpos (digits2_pos m)) - 1) with (Z.succ (Zpos (digits2_pos m) - 1))
      by lia.
    rewrite !Z.pow_succ_r by lia. lia.
  - simpl. lia.
Qed.

(** What validity says of a finite binary64 number: the exponent is in
    range, the mantissa has at most 53 bits, and exactly 53 above the
    subnormal range. *)
Lemma bounded_inv m e :
  bounded prec emax m e = true ->
  -1074 <= e <= 971 /\ Zpos m < 2 ^ 53 /\ (-1074 < e -> 2 ^ 52 <= Zpos m).
Proof.
  unfold bounded, canonical_mantissa, fexp, SpecFloat.emin, prec, emax.
  rewrite andb_true_iff, Z.eqb_eq, Z.leb_le. intros [Hc He].
  pose proof (digits2_pos_bounds m) as [Hlo Hhi].
  set (d := Zpos (digits2_pos m)) in *.
  assert (Hd : d <= 53) by lia.
  split; [lia|]. split.
  - eapply Z.lt_le_trans; [exact Hhi|]. apply Z.pow_le_mono_r; lia.
  - intros Hgt. assert (d = 53) by lia. replace (d - 1) with 52 in Hlo by lia. exact Hlo.
Qed.

(** On valid numbers the comparison of exponents, then of mantissas, is
    the comparison of the values. *)
Lemma lex_value m1 e1 m2 e2 :
  bounded prec emax m1 e1 = true -> bounded prec emax m2 e2 = true ->
  match e1 ?= e2 with
  | Lt => Lt
  | Gt => Gt
  | Eq => Pos.compare_cont Eq m1 m2
  end = (Zpos m1 * 2 ^ (e1 + 1074) ?= Zpos m2 * 2 ^ (e2 + 1074)).
Proof.
  intros H1 H2.
  apply bounded_inv in H1 as (He1 & Hm1 & Hn1).
  apply bounded_inv in H2 as (He2 & Hm2 & Hn2).
  assert (Hlt : forall ma ea mb eb,
             -1074 <= ea -> ea < eb -> Zpos ma < 2 ^ 53 -> 2 ^ 52 <= Zpos mb ->
             Zpos ma * 2 ^ (ea + 1074) < Zpos mb * 2 ^ (eb + 1074)).
  { intros ma ea mb eb Ha Hab Hma Hmb.
    replace (eb + 1074) with (ea + 1074 + (eb - ea)) by lia.
    rewrite (Z.pow_add_r 2 (ea + 1074) (eb - ea)) by lia.
    assert (0 < 2 ^ (ea + 1074)) by (apply Z.pow_pos_nonneg; lia).
    assert (2 <= 2 ^ (eb - ea)).
    { change 2 with (2 ^ 1) at 1. apply Z.pow_le_mono_r; lia. }
    assert (Zpos ma < 2 * Zpos mb) by (change (2 ^ 53) with (2 * 2 ^ 52) in Hma; lia).
    set (K := 2 ^ (ea + 1074)) in *. set (T := 2 ^ (eb - ea)) in *.
    apply Z.lt_le_trans with (2 * Zpos mb * K); [nia|].
    rewrite Z.mul_assoc. nia. }
  destruct (Z.compare_spec e1 e2) as [->|Hl|Hg]; symmetry.
  - assert (0 < 2 ^ (e2 + 1074)) by (apply Z.pow_pos_nonneg; lia).
    fold (Pos.compare m1 m2).
    destruct (Pos.compare_spec m1 m2) as [->|Hm|Hm].
    + apply Z.compare_refl.
    + apply Z.compare_lt_iff. apply Z.mul_lt_mono_pos_r; lia.
    + apply Z.compare_gt_iff. apply Z.mul_lt_mono_pos_r; lia.
  - apply Z.compare_lt_iff. apply Hlt; try lia.
  - apply Z.compare_gt_iff. apply Hlt; try lia.
Qed.

Lemma finite_value_bound m e :
  bounded prec emax m e = true -> 0 < Zpos m * 2 ^ (e + 1074) < 2 ^ 2100.
Proof.
  intros H. apply bounded_inv in H as (He & Hm & _).
  assert (0 < 2 ^ (e + 1074)) by (apply Z.pow_pos_nonneg; lia).
  assert (2 ^ (e + 1074) <= 2 ^ 2045) by (apply Z.pow_le_mono_r; lia).
  assert (Zpos m * 2 ^ (e + 1074) < 2 ^ 53 * 2 ^ 2045) by nia.
  assert (2 ^ 53 * 2 ^ 2045 < 2 ^ 2100)
    by (rewrite <- Z.pow_add_r by lia; apply Z.pow_lt_mono_r; lia).
  split; [apply Z.mul_pos_pos; lia | lia].
Qed.

Lemma SFcompare_ord a b :
  valid_binary a = true -> valid_binary b = true ->
  SFisnan a = false -> SFisnan b = false ->
  SFcompare a b = Some (SFord a ?= SFord b).
Proof.
  intros Va Vb Na Nb.
  assert (0 < 2 ^ 2100) by (apply Z.pow_pos_nonneg; lia).
  destruct a as [sa|sa| |sa ma ea]; try discriminate Na;
  destruct b as [sb|sb| |sb mb eb]; try discriminate Nb; clear Na Nb.
  all: try (pose proof (finite_value_bound ma ea Va) as Ba).
  all: try (pose proof (finite_value_bound mb eb Vb) as Bb).
  all: cbn [SFcompare SFord] in *.
  all: set (inf := 2 ^ 2100) in *.
  all: try (destruct sa); try (destruct sb); f_equal; symmetry.
  all: try (apply Z.compare_eq_iff; lia).
  all: try (apply Z.compare_lt_iff; lia).
  all: try (apply Z.compare_gt_iff; lia).
  - rewrite Z.compare_opp, (Z.compare_antisym (Zpos ma * 2 ^ (ea + 1074))),
      <- (lex_value _ _ _ _ Va Vb).
    destruct (ea ?= eb); reflexivity.
  - symmetry. apply lex_value; assumption.
Qed.

Lemma SFcompare_nan_r a : SFcompare a S754_nan = None.
Proof. destruct a; reflexivity. Qed.

Lemma is_nan_spec x : is_nan x = SFisnan (Prim2SF x).
Proof.
  unfold is_nan. rewrite eqb_spec. unfold SFeqb.
  pose proof (Prim2SF_valid x) as V.
  destruct (SFisnan (Prim2SF x)) eqn:N.
  - destruct (Prim2SF x); try discriminate N. reflexivity.
  - rewrite (SFcompare_ord _ _ V V N N), Z.compare_refl. reflexivity.
Qed.

Lemma cmp_via_ord (x y : float) :
  SFcompare (Prim2SF x) (Prim2SF y) =
  if is_nan x || is_nan y then None else Some (ord x ?= ord y).
Proof.
  rewrite !is_nan_spec. unfold ord.
  pose proof (Prim2SF_valid x) as Vx. pose proof (Prim2SF_valid y) as Vy.
  destruct (SFisnan (Prim2SF x)) eqn:Nx.
  - destruct (Prim2SF x); try discriminate Nx. reflexivity.
  - destruct (SFisnan (Prim2SF y)) eqn:Ny.
    + destruct (Prim2SF y); try discriminate Ny. apply SFcompare_nan_r.
    + apply SFcompare_ord; assumption.
Qed.

(** The three comparisons of doubles, read on the integers. *)
Lemma ltb_ord x y :
  (x <? y)%float = negb (is_nan x) && negb (is_nan y) && (ord x <? ord y).
Proof.
  rewrite ltb_spec. unfold SFltb. rewrite cmp_via_ord. unfold Z.ltb.
  destruct (is_nan x), (is_nan y); simpl; try reflexivity;
  destruct (ord x ?= ord y); reflexivity.
Qed.

Lemma leb_ord x y :
  (x <=? y)%float = negb (is_nan x) && negb (is_nan y) && (ord x <=? ord y).
Proof.
  rewrite leb_spec. unfold SFleb. rewrite cmp_via_ord. unfold Z.leb.
  destruct (is_nan x), (is_nan y); simpl; try reflexivity;
  destruct (ord x ?= ord y); reflexivity.
Qed.

Lemma eqb_ord x y :
  (x =? y)%float = negb (is_nan x) && negb (is_nan y) && (ord x =? ord y).
Proof.
  rewrite eqb_spec. unfold SFeqb. rewrite cmp_via_ord.
  destruct (is_nan x), (is_nan y); simpl; try reflexivity.
  destruct (Z.compare_spec (ord x) (ord y)), (Z.eqb_spec (ord x) (ord y));
    try reflexivity; lia.
Qed.

Lemma gtb_ord x y :
  (x >? y)%cxx = negb (is_nan x) && negb (is_nan y) && (ord y <? ord x).
Proof.
  unfold gtb. rewrite ltb_ord. destruct (is_nan x), (is_nan y); reflexivity.
Qed.


(** *** Rounding keeps the sign *)

Lemma iter_pos_invariant {A} (P : A -> Prop) (f : A -> A) :
  (forall x, P x -> P (f x)) -> forall n x, P x -> P (iter_pos f n x).
Proof.
  intros Hf. induction n as [n IH|n IH|]; intros x Hx; simpl; auto.
Qed.

Lemma shr_1_nonneg mrs : 0 <= shr_m mrs -> 0 <= shr_m (shr_1 mrs).
Proof.
  destruct mrs as [m r s]. simpl. destruct m as [|[p|p|]|p]; simpl; lia.
Qed.

Lemma shr_nonneg mrs e n : 0 <= shr_m mrs -> 0 <= shr_m (fst (shr mrs e n)).
Proof.
  intros H. destruct n; simpl; auto.
  apply (iter_pos_invariant (fun x => 0 <= shr_m x)); auto using shr_1_nonneg.
Qed.

Lemma shr_fexp_nonneg m e l : 0 <= m -> 0 <= shr_m (fst (shr_fexp prec emax m e l)).
Proof.
  intros H. unfold shr_fexp. apply shr_nonneg.
  destruct l as [|[]]; simpl; auto.
Qed.

Lemma round_nearest_even_nonneg m l : 0 <= m -> 0 <= round_nearest_even m l.
Proof.
  intros H. destruct l as [|[]]; simpl; try lia. destruct (Z.even m); lia.
Qed.

Lemma binary_round_aux_signed s m e l :
  0 <= m -> signed s (binary_round_aux prec emax s m e l).
Proof.
  intros H. unfold binary_round_aux.
  pose proof (shr_fexp_nonneg m e l H) as H1.
  destruct (shr_fexp prec emax m e l) as [mrs' e'] eqn:E1. simpl in H1.
  pose proof (shr_fexp_nonneg _ e' loc_Exact
                (round_nearest_even_nonneg _ (loc_of_shr_record mrs') H1)) as H2.
  destruct (shr_fexp prec emax
              (round_nearest_even (shr_m mrs') (loc_of_shr_record mrs')) e' loc_Exact)
    as [mrs'' e''] eqn:E2. simpl in H2.
  destruct (shr_m mrs'') as [|p|p]; [exact eq_refl| |lia].
  destruct (e'' <=? emax - prec); exact eq_refl.
Qed.

(** An unsigned integer converts to a double that is zero or positive. *)
Lemma of_uint63_signed n : signed false (Prim2SF (of_uint63 n)).
Proof.
  rewrite of_uint63_spec. pose proof (Uint63.to_Z_bounded n) as [H _].
  destruct (Uint63Axioms.to_Z n) as [|m|m]; [exact eq_refl| |lia].
  unfold binary_normalize, binary_round.
  destruct (shl_align m 0 (fexp prec emax (Zpos (digits2_pos m) + 0))) as [mz ez].
  apply binary_round_aux_signed. lia.
Qed.

(** *** Division rounds a fraction, and is antitone in the denominator *)

Lemma new_location_locate D r :
  0 < D -> 0 <= r < D ->
  new_location D r = if r =? 0 then loc_Exact else loc_Inexact (2 * r ?= D).
Proof.
  intros HD Hr. unfold new_location, new_location_even, new_location_odd.
  destruct (Z.even D) eqn:Ev; cbv beta; change IntDef.Z.eqb with Z.eqb;
    change IntDef.Z.compare with Z.compare; change IntDef.Z.mul with Z.mul;
    change IntDef.Z.add with Z.add; [reflexivity|].
  destruct (Z.eqb_spec r 0) as [->|Hr0]; [reflexivity|].
  f_equal.
  assert (Hodd : Z.odd D = true) by (rewrite <- Z.negb_even, Ev; reflexivity).
  apply Z.odd_spec in Hodd as [c Hc].
  destruct (Z.compare_spec (2 * r + 1) D), (Z.compare_spec (2 * r) D); try reflexivity; lia.
Qed.

Lemma shr_record_of_loc_located N D m :
  0 < D -> 0 <= m -> m * D <= N < (m + 1) * D ->
  located N D (shr_record_of_loc m (locate N D m)).
Proof.
  intros HD Hm HN. unfold located.
  assert (Hm' : forall l, shr_m (shr_record_of_loc m l) = m) by (intros [|[]]; reflexivity).
  rewrite Hm'. split; [assumption|]. split; [assumption|].
  destruct (locate N D m) as [|[]]; reflexivity.
Qed.

Lemma shr_1_located N D mrs :
  0 < D -> located N D mrs -> located N (2 * D) (shr_1 mrs).
Proof.
  intros HD (Hm & HN & Hl).
  destruct mrs as [m r s]. cbn [shr_m] in *. unfold locate in Hl.
  set (R := N - m * D) in *.
  assert (HR : 0 <= R < D) by (unfold R; lia).
  assert (Hbits : (R = 0 /\ r = false /\ s = false)
                  \/ (R <> 0 /\ 2 * R < D /\ r = false /\ s = true)
                  \/ (R <> 0 /\ 2 * R = D /\ r = true /\ s = false)
                  \/ (R <> 0 /\ D < 2 * R /\ r = true /\ s = true)).
  { destruct (Z.eqb_spec R 0); [destruct r, s; try discriminate Hl; auto|].
    destruct (Z.compare_spec (2 * R) D); destruct r, s; try discriminate Hl; auto 10. }
  clear Hl. unfold located, locate.
  assert (Hgoal : forall p b,
             0 <= p -> m = 2 * p + Z.b2z b ->
             p * (2 * D) <= N < (p + 1) * (2 * D)
             /\ loc_of_shr_record {| shr_m := p; shr_r := b; shr_s := r || s |}
                = (if N - p * (2 * D) =? 0 then loc_Exact
                   else loc_Inexact (2 * (N - p * (2 * D)) ?= 2 * D))).
  { intros p b Hp Hmp.
    assert (HR' : N - p * (2 * D) = R + Z.b2z b * D) by (unfold R; destruct b; cbn [Z.b2z] in *; lia).
    split; [destruct b; cbn [Z.b2z] in *; lia|]. rewrite HR'.
    destruct Hbits as [(H0 & -> & ->)|[(H0 & H1 & -> & ->)|[(H0 & H1 & -> & ->)|(H0 & H1 & -> & ->)]]];
      destruct b; cbn [loc_of_shr_record orb Z.b2z];
      match goal with |- context [?a =? 0] => destruct (Z.eqb_spec a 0); try lia end;
      try reflexivity; f_equal;
      match goal with |- _ = (?a ?= ?c) => destruct (Z.compare_spec a c); try reflexivity; lia end. }
  destruct m as [|[p|p|]|p]; try lia; cbn [shr_1 shr_m].
  - destruct (Hgoal 0 false) as [H1 H2]; [lia|reflexivity|]. split; [lia|]. split; assumption.
  - destruct (Hgoal (Zpos p) true) as [H1 H2]; [lia|cbn [Z.b2z]; lia|].
    split; [lia|]. split; assumption.
  - destruct (Hgoal (Zpos p) false) as [H1 H2]; [lia|cbn [Z.b2z]; lia|].
    split; [lia|]. split; assumption.
  - destruct (Hgoal 0 true) as [H1 H2]; [lia|reflexivity|]. split; [lia|]. split; assumption.
Qed.

Lemma iter_shr_1_located N n : forall D mrs,
  0 < D -> located N D mrs -> located N (2 ^ Zpos n * D) (iter_pos shr_1 n mrs).
Proof.
  induction n as [n IH|n IH|]; intros D mrs HD H; cbn [iter_pos].
  - replace (2 ^ Zpos n~1 * D) with (2 ^ Zpos n * (2 ^ Zpos n * (2 * D))).
    + assert (0 < 2 ^ Zpos n) by (apply Z.pow_pos_nonneg; lia).
      apply IH; [nia|]. apply IH; [lia|]. apply shr_1_located; assumption.
    + replace (Zpos n~1) with (Zpos n + Zpos n + 1) by lia.
      rewrite !Z.pow_add_r by lia. change (2 ^ 1) with 2. ring.
  - replace (2 ^ Zpos n~0 * D) with (2 ^ Zpos n * (2 ^ Zpos n * D)).
    + assert (0 < 2 ^ Zpos n) by (apply Z.pow_pos_nonneg; lia).
      apply IH; [nia|]. apply IH; assumption.
    + replace (Zpos n~0) with (Zpos n + Zpos n) by lia.
      rewrite !Z.pow_add_r by lia. ring.
  - change (2 ^ 1 * D) with (2 * D). apply shr_1_located; assumption.
Qed.

Lemma fexp_eq x : fexp prec emax x = Z.max (x - 53) (-1074).
Proof. reflexivity. Qed.

Lemma Zdigits2_bounds m :
  0 < m -> 2 ^ (Zdigits2 m - 1) <= m < 2 ^ Zdigits2 m.
Proof.
  destruct m as [|p|p]; try lia. intros _. apply digits2_pos_bounds.
Qed.

Lemma Zdigits2_nonneg m : 0 <= Zdigits2 m.
Proof. destruct m; cbn; lia. Qed.

Lemma Zdigits2_le m k : 0 <= k -> 0 <= m < 2 ^ k -> Zdigits2 m <= k.
Proof.
  intros Hk Hm. destruct (Z.eq_dec m 0) as [->|Hne]; [cbn; lia|].
  pose proof (Zdigits2_bounds m ltac:(lia)) as [Hlo _].
  pose proof (Zdigits2_nonneg m).
  destruct (Z.le_gt_cases (Zdigits2 m) k) as [|Hgt]; [assumption|exfalso].
  assert (2 ^ k <= 2 ^ (Zdigits2 m - 1)) by (apply Z.pow_le_mono_r; lia). lia.
Qed.

Lemma Zdigits2_ge m k : 0 <= k -> 2 ^ k <= m -> k + 1 <= Zdigits2 m.
Proof.
  intros Hk Hm. assert (0 < 2 ^ k) by (apply Z.pow_pos_nonneg; lia).
  pose proof (Zdigits2_bounds m ltac:(lia)) as [_ Hhi].
  pose proof (Zdigits2_nonneg m).
  destruct (Z.le_gt_cases (k + 1) (Zdigits2 m)) as [|Hgt]; [assumption|exfalso].
  assert (2 ^ Zdigits2 m <= 2 ^ k) by (apply Z.pow_le_mono_r; lia). lia.
Qed.

(** The first shift of a rounding: the mantissa is brought to the
    exponent of its binade, and the location follows. *)
Lemma shr_fexp_located N D m e :
  0 < D -> 0 <= m -> m * D <= N < (m + 1) * D ->
  exists mrs n,
    shr_fexp prec emax m e (locate N D m) = (mrs, e + n)
    /\ 0 <= n
    /\ e + n = Z.max e (fexp prec emax (Zdigits2 m + e))
    /\ located N (2 ^ n * D) mrs.
Proof.
  intros HD Hm HN. unfold shr_fexp, shr.
  pose proof (shr_record_of_loc_located N D m HD Hm HN) as Hrec.
  change IntDef.Z.sub with Z.sub. change IntDef.Z.add with Z.add.
  destruct (fexp prec emax (Zdigits2 m + e) - e) as [|p|p] eqn:En.
  - exists (shr_record_of_loc m (locate N D m)), 0.
    rewrite Z.add_0_r. split; [reflexivity|]. split; [lia|]. split; [lia|].
    change (2 ^ 0) with 1. rewrite Z.mul_1_l. exact Hrec.
  - exists (iter_pos shr_1 p (shr_record_of_loc m (locate N D m))), (Zpos p).
    split; [reflexivity|]. split; [lia|]. split; [lia|].
    apply iter_shr_1_located; assumption.
  - exists (shr_record_of_loc m (locate N D m)), 0.
    rewrite Z.add_0_r. split; [reflexivity|]. split; [lia|]. split; [lia|].
    change (2 ^ 0) with 1. rewrite Z.mul_1_l. exact Hrec.
Qed.

Lemma round_nearest_even_locate N D m :
  0 < D -> m * D <= N < (m + 1) * D ->
  round_nearest_even m (locate N D m) = if roundUp N D m then m + 1 else m.
Proof.
  intros HD HN. unfold locate, roundUp. set (R := N - m * D).
  assert (0 <= R < D) by (unfold R; lia).
  destruct (Z.eqb_spec R 0) as [E|E].
  - rewrite E. destruct (Z.ltb_spec D (2 * 0)); [lia|].
    destruct (Z.eqb_spec D (2 * 0)); [lia|]. reflexivity.
  - destruct (Z.compare_spec (2 * R) D); cbn [round_nearest_even];
      destruct (Z.ltb_spec D (2 * R)); try lia;
      destruct (Z.eqb_spec D (2 * R)); try lia; cbn [orb andb]; try reflexivity.
    change IntDef.Z.even with Z.even. change IntDef.Z.add with Z.add.
    rewrite <- Z.negb_even. destruct (Z.even m); reflexivity.
Qed.

Lemma pow2_pos k : 0 <= k -> 0 < 2 ^ k.
Proof. intros. apply Z.pow_pos_nonneg; lia. Qed.

(** After the first shift the mantissa fits the format. *)
Lemma first_shift_canonical N D m e mrs n :
  0 < D -> 0 <= m -> m * D <= N < (m + 1) * D ->
  (-1074 < e -> 2 ^ 52 <= m) ->
  0 <= n -> e + n = Z.max e (fexp prec emax (Zdigits2 m + e)) ->
  located N (2 ^ n * D) mrs ->
  -1074 <= e + n
  /\ shr_m mrs < 2 ^ 53
  /\ (-1074 < e + n -> 2 ^ 52 <= shr_m mrs).
Proof.
  intros HD Hm HN HF Hn He (Hm1 & HN1 & _).
  set (m1 := shr_m mrs) in *. rewrite fexp_eq in He.
  pose proof (pow2_pos n Hn) as Hpn.
  pose proof (Zdigits2_nonneg m) as Hd. set (d := Zdigits2 m) in *.
  assert (Hlo : m1 * 2 ^ n <= m) by nia.
  assert (Hhi : m < (m1 + 1) * 2 ^ n) by nia.
  split; [lia|]. split.
  - destruct (Z.eq_dec m 0) as [->|Hne]; [assert (0 < 2 ^ 53) by (apply pow2_pos; lia); nia|].
    pose proof (Zdigits2_bounds m ltac:(lia)) as [_ Hmd]. fold d in Hmd.
    assert (2 ^ d <= 2 ^ (53 + n)) by (apply Z.pow_le_mono_r; lia).
    rewrite Z.pow_add_r in * by lia. nia.
  - intros He1. destruct (Z.eq_dec n 0) as [->|Hn0].
    + change (2 ^ 0) with 1 in *. assert (E : m1 = m) by lia. rewrite E. apply HF. lia.
    + assert (Hdn : d = 53 + n) by lia.
      assert (0 < m) by (destruct m; cbn in d; lia).
      pose proof (Zdigits2_bounds m ltac:(lia)) as [Hmd _]. fold d in Hmd.
      replace (d - 1) with (52 + n) in Hmd by lia.
      rewrite Z.pow_add_r in Hmd by lia. nia.
Qed.

(** The second shift, the test for overflow, and the measure of the
    result. *)
Lemma round_finish m2 e1 :
  0 <= m2 <= 2 ^ 53 -> -1074 <= e1 -> (-1074 < e1 -> 2 ^ 52 <= m2) ->
  SFord
    (let '(mrs, e2) := shr_fexp prec emax m2 e1 loc_Exact in
     match shr_m mrs with
     | Z0 => S754_zero false
     | Zpos m => if e2 <=? emax - prec then S754_finite false m e2 else S754_infinity false
     | Zneg _ => S754_nan
     end)
  = clip (m2 * 2 ^ (e1 + 1074)).
Proof.
  intros [Hm0 Hm53] He HF.
  assert (HX : 0 < 2 ^ (e1 + 1074)) by (apply pow2_pos; lia).
  assert (H98 : 2 ^ 2098 = 2 ^ 53 * 2 ^ 2045) by (rewrite <- Z.pow_add_r by lia; reflexivity).
  assert (H98' : 2 ^ 2098 = 2 ^ 52 * 2 ^ 2046) by (rewrite <- Z.pow_add_r by lia; reflexivity).
  assert (Hlow : e1 <= 971 -> 2 ^ (e1 + 1074) <= 2 ^ 2045)
    by (intros; apply Z.pow_le_mono_r; lia).
  assert (Hhigh : 971 < e1 -> 2 ^ 2046 <= 2 ^ (e1 + 1074))
    by (intros; apply Z.pow_le_mono_r; lia).
  assert (H52 : 0 < 2 ^ 52) by (apply pow2_pos; lia).
  assert (H53 : 2 ^ 53 = 2 * 2 ^ 52) by reflexivity.
  unfold clip, shr_fexp, shr.
  change IntDef.Z.sub with Z.sub. change IntDef.Z.add with Z.add.
  change (emax - prec) with 971. rewrite fexp_eq.
  destruct (Z.eq_dec m2 (2 ^ 53)) as [->|Hne].
  - (* the rounding has reached the next binade *)
    replace (Zdigits2 (2 ^ 53)) with 54 by reflexivity.
    replace (Z.max (54 + e1 - 53) (-1074) - e1) with 1 by lia.
    change (shr_m (iter_pos shr_1 1 (shr_record_of_loc (2 ^ 53) loc_Exact))) with (2 ^ 52).
    cbv iota beta.
    replace (2 ^ 53 * 2 ^ (e1 + 1074)) with (2 ^ 52 * 2 ^ (e1 + 1 + 1074))
      by (replace (e1 + 1 + 1074) with (1 + (e1 + 1074)) by lia;
          rewrite (Z.pow_add_r 2 1) by lia; change (2 ^ 1) with 2; lia).
    change (match 2 ^ 52 with
            | 0 => S754_zero false
            | Z.pos m =>
                if e1 + 1 <=? 971 then S754_finite false m (e1 + 1) else S754_infinity false
            | Z.neg _ => S754_nan
            end)
      with (if e1 + 1 <=? 971
            then S754_finite false (Z.to_pos (2 ^ 52)) (e1 + 1) else S754_infinity false).
    destruct (Z.leb_spec (e1 + 1) 971) as [Hle|Hgt]; cbn [SFord].
    + change (Z.pos (Z.to_pos (2 ^ 52))) with (2 ^ 52).
      assert (2 ^ (e1 + 1 + 1074) <= 2 ^ 2045) by (apply Z.pow_le_mono_r; lia).
      destruct (Z.ltb_spec (2 ^ 52 * 2 ^ (e1 + 1 + 1074)) (2 ^ 2098)); [reflexivity|nia].
    + assert (2 ^ 2046 <= 2 ^ (e1 + 1 + 1074)) by (apply Z.pow_le_mono_r; lia).
      destruct (Z.ltb_spec (2 ^ 52 * 2 ^ (e1 + 1 + 1074)) (2 ^ 2098)); [nia|reflexivity].
  - (* the mantissa still fits *)
    assert (Hd : Zdigits2 m2 <= 53) by (apply Zdigits2_le; lia).
    assert (Hsame :
      (match Z.max (Zdigits2 m2 + e1 - 53) (-1074) - e1 with
       | Z.pos p =>
           (iter_pos shr_1 p (shr_record_of_loc m2 loc_Exact),
            e1 + (Z.max (Zdigits2 m2 + e1 - 53) (-1074) - e1))
       | _ => (shr_record_of_loc m2 loc_Exact, e1)
       end) = (shr_record_of_loc m2 loc_Exact, e1)).
    { destruct (Z.max (Zdigits2 m2 + e1 - 53) (-1074) - e1) eqn:E; try reflexivity. lia. }
    rewrite Hsame. cbn [shr_record_of_loc shr_m].
    destruct m2 as [|p|p]; [| |lia].
    + cbn [SFord]. rewrite Z.mul_0_l. reflexivity.
    + destruct (Z.leb_spec e1 971) as [Hle|Hgt]; cbn [SFord].
      * specialize (Hlow Hle).
        destruct (Z.ltb_spec (Z.pos p * 2 ^ (e1 + 1074)) (2 ^ 2098)); [reflexivity|nia].
      * specialize (Hhigh Hgt). specialize (HF ltac:(lia)).
        destruct (Z.ltb_spec (Z.pos p * 2 ^ (e1 + 1074)) (2 ^ 2098)); [nia|reflexivity].
Qed.

(** The measure of a rounded fraction. *)
Lemma binary_round_aux_ord N D q e :
  0 < D -> 0 <= q -> q * D <= N < (q + 1) * D ->
  (-1074 < e -> 2 ^ 52 <= q) ->
  exists m n,
    0 <= n /\ -1074 <= e + n /\ 0 <= m < 2 ^ 53
    /\ (-1074 < e + n -> 2 ^ 52 <= m)
    /\ m * (2 ^ n * D) <= N < (m + 1) * (2 ^ n * D)
    /\ SFord (binary_round_aux prec emax false q e (locate N D q))
       = clip ((if roundUp N (2 ^ n * D) m then m + 1 else m) * 2 ^ (e + n + 1074)).
Proof.
  intros HD Hq HN HF.
  destruct (shr_fexp_located N D q e HD Hq HN) as (mrs & n & Hshr & Hn & He & Hloc).
  destruct (first_shift_canonical N D q e mrs n HD Hq HN HF Hn He Hloc) as (P1 & P2 & P3).
  destruct Hloc as (Hm1 & HN1 & Hl1).
  exists (shr_m mrs), n.
  split; [exact Hn|]. split; [exact P1|]. split; [lia|]. split; [exact P3|].
  split; [exact HN1|].
  assert (HD' : 0 < 2 ^ n * D) by (pose proof (pow2_pos n Hn); nia).
  unfold binary_round_aux. rewrite Hshr, Hl1.
  rewrite (round_nearest_even_locate N (2 ^ n * D) (shr_m mrs) HD' HN1).
  apply round_finish.
  - destruct (roundUp N (2 ^ n * D) (shr_m mrs)); lia.
  - exact P1.
  - intros H. specialize (P3 H). destruct (roundUp N (2 ^ n * D) (shr_m mrs)); lia.
Qed.

(** The quotient and the remainder that the division hands to the
    rounding. *)
Lemma SFdiv_core_located mx ex my ey :
  Zpos (digits2_pos mx) <= 53 ->
  exists q e s,
    SFdiv_core_binary prec emax (Zpos mx) ex (Zpos my) ey
    = (q, e, locate (Zpos mx * 2 ^ s) (Zpos my) q)
    /\ 0 <= s /\ s = ex - ey - e
    /\ e = Z.min (Z.max (Zpos (digits2_pos mx) + ex - (Zpos (digits2_pos my) + ey) - 53)
                       (-1074)) (ex - ey)
    /\ 0 <= q
    /\ q * Zpos my <= Zpos mx * 2 ^ s < (q + 1) * Zpos my
    /\ (-1074 < e -> 2 ^ 52 <= q).
Proof.
  intros Hdx. unfold SFdiv_core_binary.
  change IntDef.Z.sub with Z.sub. change IntDef.Z.add with Z.add.
  change IntDef.Z.min with Z.min. change IntDef.Z.div_eucl with Z.div_eucl.
  change IntDef.Z.shiftl with Z.shiftl.
  rewrite fexp_eq. cbn [Zdigits2].
  set (d1 := Zpos (digits2_pos mx)). set (d2 := Zpos (digits2_pos my)).
  set (e := Z.min (Z.max (d1 + ex - (d2 + ey) - 53) (-1074)) (ex - ey)).
  set (s := ex - ey - e).
  assert (Hs : 0 <= s) by (unfold s, e; lia).
  assert (Hm' : match s with
                | 0 => Zpos mx
                | Z.pos _ => Z.shiftl (Zpos mx) s
                | Z.neg _ => 0
                end = Zpos mx * 2 ^ s).
  { destruct s as [|p|p] eqn:E; [rewrite Z.mul_1_r; reflexivity| |lia].
    rewrite Z.shiftl_mul_pow2 by lia. reflexivity. }
  rewrite Hm'. set (N := Zpos mx * 2 ^ s).
  pose proof (Z_div_mod N (Zpos my) ltac:(lia)) as Hdm.
  destruct (Z.div_eucl N (Zpos my)) as [q r]. destruct Hdm as [HNq Hr].
  assert (Hq : 0 <= q).
  { assert (0 <= N) by (unfold N; pose proof (pow2_pos s Hs); nia). nia. }
  exists q, e, s. fold N.
  rewrite (new_location_locate (Zpos my) r ltac:(lia) Hr).
  assert (HR : N - q * Zpos my = r) by lia.
  split. { unfold locate. rewrite HR. reflexivity. }
  split; [exact Hs|]. split; [reflexivity|]. split; [reflexivity|].
  split; [exact Hq|]. split; [lia|].
  intros He.
  (* above the subnormal range the quotient has at least 53 bits *)
  assert (Hs53 : 53 - d1 + d2 <= s) by (unfold s, e in *; lia).
  pose proof (digits2_pos_bounds mx) as [Hmx _]. fold d1 in Hmx.
  pose proof (digits2_pos_bounds my) as [_ Hmy]. fold d2 in Hmy.
  assert (Hd1 : 1 <= d1 <= 53) by (unfold d1 in *; lia).
  assert (Hd2 : 1 <= d2) by (unfold d2; lia).
  assert (HNlow : 2 ^ (52 + d2) <= N).
  { unfold N. replace (52 + d2) with (d1 - 1 + (53 - d1 + d2)) by lia.
    rewrite Z.pow_add_r by lia.
    assert (2 ^ (53 - d1 + d2) <= 2 ^ s) by (apply Z.pow_le_mono_r; lia).
    assert (0 < 2 ^ (53 - d1 + d2)) by (apply pow2_pos; lia).
    assert (0 < 2 ^ (d1 - 1)) by (apply pow2_pos; lia). nia. }
  rewrite Z.pow_add_r in HNlow by lia.
  assert (0 < 2 ^ d2) by (apply pow2_pos; lia).
  assert (0 < 2 ^ 52) by (apply pow2_pos; lia).
  nia.
Qed.

Lemma roundUp_scale c N D m :
  0 < c -> roundUp (c * N) (c * D) m = roundUp N D m.
Proof.
  intros Hc. unfold roundUp.
  replace (2 * (c * N - m * (c * D))) with (c * (2 * (N - m * D))) by ring.
  f_equal; [|f_equal].
  - destruct (Z.ltb_spec (c * D) (c * (2 * (N - m * D)))),
             (Z.ltb_spec D (2 * (N - m * D))); try reflexivity; nia.
  - destruct (Z.eqb_spec (c * D) (c * (2 * (N - m * D)))),
             (Z.eqb_spec D (2 * (N - m * D))); try reflexivity; nia.
Qed.

Lemma SFdiv_ord mx ex my ey :
  bounded prec emax mx ex = true -> bounded prec emax my ey = true ->
  exists v,
    rounds (SFord (S754_finite false mx ex) * 2 ^ 1074) (SFord (S754_finite false my ey)) v
    /\ SFord (SFdiv prec emax (S754_finite false mx ex) (S754_finite false my ey)) = clip v.
Proof.
  intros Bx By. cbn [SFord SFdiv xorb].
  pose proof (bounded_inv _ _ Bx) as (Hex & Hmx & _).
  pose proof (bounded_inv _ _ By) as (Hey & _ & _).
  assert (Hdx : Zpos (digits2_pos mx) <= 53).
  { pose proof (digits2_pos_bounds mx) as [Hlo _].
    destruct (Z.le_gt_cases (Zpos (digits2_pos mx)) 53) as [H|H]; [exact H|].
    assert (2 ^ 53 <= 2 ^ (Zpos (digits2_pos mx) - 1)) by (apply Z.pow_le_mono_r; lia).
    lia. }
  destruct (SFdiv_core_located mx ex my ey Hdx)
    as (q & e & s & Hcore & Hs & Hse & He & Hq & HN & HF).
  rewrite Hcore.
  destruct (binary_round_aux_ord (Zpos mx * 2 ^ s) (Zpos my) q e ltac:(lia) Hq HN HF)
    as (m & n & Hn & Hen & Hm & Hnorm & Hmn & Hord).
  rewrite Hord.
  set (c := 2 ^ (ey + e + 2148)).
  assert (Hce : 0 <= ey + e + 2148) by lia.
  assert (Hc : 0 < c) by (apply pow2_pos; exact Hce).
  assert (HA : Zpos mx * 2 ^ (ex + 1074) * 2 ^ 1074 = c * (Zpos mx * 2 ^ s)).
  { unfold c. rewrite <- Z.mul_assoc, <- Z.pow_add_r by lia.
    rewrite (Z.mul_comm (2 ^ _)), <- Z.mul_assoc, <- Z.pow_add_r by lia.
    f_equal. f_equal. lia. }
  assert (HB : 2 ^ (e + n + 1074) * (Zpos my * 2 ^ (ey + 1074)) = c * (2 ^ n * Zpos my)).
  { unfold c. rewrite (Z.mul_comm (Zpos my)), !Z.mul_assoc, <- !Z.pow_add_r by lia.
    f_equal. f_equal. lia. }
  exists ((if roundUp (Zpos mx * 2 ^ s) (2 ^ n * Zpos my) m then m + 1 else m)
          * 2 ^ (e + n + 1074)).
  split; [|reflexivity].
  exists m, (e + n + 1074).
  split; [lia|]. split; [exact Hm|]. split; [intros; apply Hnorm; lia|].
  rewrite HA, HB. split; [nia|].
  rewrite roundUp_scale by exact Hc. reflexivity.
Qed.

Lemma roundUp_mono A B1 B2 m :
  0 <= m -> 0 < B1 <= B2 -> roundUp A B2 m = true -> roundUp A B1 m = true.
Proof.
  intros Hm HB. unfold roundUp. rewrite !orb_true_iff, !andb_true_iff.
  rewrite !Z.ltb_lt, !Z.eqb_eq. intros [H|[H Ho]].
  - left. nia.
  - destruct (Z.eq_dec B1 (2 * (A - m * B1))) as [E|E]; [right; split; assumption|].
    left. nia.
Qed.

Lemma rounds_mono A B1 B2 v1 v2 :
  0 < B1 <= B2 -> rounds A B1 v1 -> rounds A B2 v2 -> v2 <= v1.
Proof.
  intros HB (m1 & E1 & HE1 & Hm1 & Hn1 & HA1 & ->) (m2 & E2 & HE2 & Hm2 & Hn2 & HA2 & ->).
  assert (P1 : 0 < 2 ^ E1) by (apply pow2_pos; exact HE1).
  assert (P2 : 0 < 2 ^ E2) by (apply pow2_pos; exact HE2).
  assert (H53 : 2 ^ 53 = 2 * 2 ^ 52) by reflexivity.
  assert (H52 : 0 < 2 ^ 52) by (apply pow2_pos; lia).
  destruct (Z.lt_trichotomy E1 E2) as [Hlt|[Heq|Hgt]].
  - (* the larger denominator cannot give the larger exponent *)
    exfalso. specialize (Hn2 ltac:(lia)).
    assert (Hp : 2 * 2 ^ E1 <= 2 ^ E2).
    { replace E2 with (1 + E1 + (E2 - E1 - 1)) by lia.
      rewrite !Z.pow_add_r by lia. change (2 ^ 1) with 2.
      assert (0 < 2 ^ (E2 - E1 - 1)) by (apply pow2_pos; lia). nia. }
    assert ((m1 + 1) * 2 ^ E1 <= m2 * 2 ^ E2) by nia.
    assert ((m1 + 1) * 2 ^ E1 * B1 <= m2 * 2 ^ E2 * B2).
    { apply Z.mul_le_mono_nonneg; nia. }
    nia.
  - subst E2. set (X := 2 ^ E1) in *.
    assert (Hm : m2 <= m1).
    { destruct (Z.le_gt_cases m2 m1) as [H|H]; [exact H|exfalso].
      assert ((m1 + 1) * (X * B1) <= m2 * (X * B2)).
      { apply Z.mul_le_mono_nonneg; nia. }
      lia. }
    destruct (Z.eq_dec m2 m1) as [->|Hne].
    + destruct (roundUp A (X * B2) m1) eqn:R2.
      * rewrite (roundUp_mono A (X * B1) (X * B2) m1) by (try exact R2; nia). lia.
      * destruct (roundUp A (X * B1) m1); nia.
    + destruct (roundUp A (X * B2) m2), (roundUp A (X * B1) m1); nia.
  - specialize (Hn1 ltac:(lia)).
    assert (Hp : 2 * 2 ^ E2 <= 2 ^ E1).
    { replace E1 with (1 + E2 + (E1 - E2 - 1)) by lia.
      rewrite !Z.pow_add_r by lia. change (2 ^ 1) with 2.
      assert (0 < 2 ^ (E1 - E2 - 1)) by (apply pow2_pos; lia). nia. }
    assert ((m2 + 1) * 2 ^ E2 <= m1 * 2 ^ E1) by nia.
    destruct (roundUp A (2 ^ E2 * B2) m2), (roundUp A (2 ^ E1 * B1) m1); nia.
Qed.

Lemma clip_mono v1 v2 : v1 <= v2 -> clip v1 <= clip v2.
Proof.
  intros H. unfold clip.
  assert (2 ^ 2098 < 2 ^ 2100) by (apply Z.pow_lt_mono_r; lia).
  destruct (Z.ltb_spec v1 (2 ^ 2098)), (Z.ltb_spec v2 (2 ^ 2098)); lia.
Qed.

(** A positive finite numerator over a positive denominator. *)
Lemma SFdiv_positive mx ex y :
  bounded prec emax mx ex = true -> valid_binary y = true ->
  SFisnan y = false -> 0 < SFord y ->
  SFisnan (SFdiv prec emax (S754_finite false mx ex) y) = false
  /\ ((exists v, rounds (SFord (S754_finite false mx ex) * 2 ^ 1074) (SFord y) v
                 /\ SFord (SFdiv prec emax (S754_finite false mx ex) y) = clip v)
      \/ (SFord y = 2 ^ 2100 /\ SFord (SFdiv prec emax (S754_finite false mx ex) y) = 0)).
Proof.
  intros Bx Vy Ny Hy.
  assert (Hinf : 0 < 2 ^ 2100) by (apply Z.pow_pos_nonneg; lia).
  destruct y as [s|s| |s my ey]; cbn [SFord] in Hy; try discriminate Ny; try lia.
  - destruct s; [lia|]. split; [reflexivity|]. right. split; reflexivity.
  - destruct s.
    { assert (0 <= 2 ^ (ey + 1074)) by (apply Z.pow_nonneg; lia). nia. }
    split.
    + cbn [SFdiv xorb].
      destruct (SFdiv_core_binary prec emax (Z.pos mx) ex (Z.pos my) ey) as [[q e] l] eqn:E.
      assert (Hq : 0 <= q).
      { pose proof (bounded_inv _ _ Bx) as (_ & Hmx & _).
        assert (Hdx : Zpos (digits2_pos mx) <= 53).
        { pose proof (digits2_pos_bounds mx) as [Hlo _].
          destruct (Z.le_gt_cases (Zpos (digits2_pos mx)) 53) as [H|H]; [exact H|].
          assert (2 ^ 53 <= 2 ^ (Zpos (digits2_pos mx) - 1)) by (apply Z.pow_le_mono_r; lia).
          lia. }
        destruct (SFdiv_core_located mx ex my ey Hdx) as (q' & e' & s' & Hc & _ & _ & _ & Hq' & _).
        rewrite E in Hc. injection Hc as -> _ _. exact Hq'. }
      pose proof (binary_round_aux_signed false q e l Hq) as Hs.
      destruct (binary_round_aux prec emax false q e l); try reflexivity. destruct Hs.
    + left. apply SFdiv_ord; assumption.
Qed.

(** The rounded quotient is not negative, and only infinity reaches the
    top of the scale. *)
Lemma rounds_nonneg A B v : rounds A B v -> 0 <= v.
Proof.
  intros (m & E & HE & Hm & _ & _ & ->).
  assert (0 < 2 ^ E) by (apply Z.pow_pos_nonneg; lia).
  destruct (roundUp A (2 ^ E * B) m); nia.
Qed.

Lemma clip_nonneg v : 0 <= v -> 0 <= clip v.
Proof.
  intros H. unfold clip. assert (0 < 2 ^ 2100) by (apply Z.pow_pos_nonneg; lia).
  destruct (v <? 2 ^ 2098); lia.
Qed.

Lemma SFord_top y :
  valid_binary y = true -> SFord y = 2 ^ 2100 -> y = S754_infinity false.
Proof.
  assert (Hinf : 0 < 2 ^ 2100) by (apply Z.pow_pos_nonneg; lia).
  intros V H. destruct y as [s|s| |s m e]; cbn [SFord] in H; try lia.
  - destruct s; [lia|reflexivity].
  - pose proof (finite_value_bound m e V). destruct s; lia.
Qed.

(** Dividing a positive constant by a larger positive number does not give
    more. *)
Lemma div_antitone (k p1 p2 : float) mk ek :
  Prim2SF k = S754_finite false mk ek ->
  (0 <? p1)%float = true -> (p1 <=? p2)%float = true ->
  is_nan (k / p1) = false /\ is_nan (k / p2) = false
  /\ ord (k / p2) <= ord (k / p1).
Proof.
  intros Hk H1 H2.
  rewrite ltb_ord in H1. rewrite leb_ord in H2.
  change (is_nan 0) with false in H1. change (ord 0) with 0 in H1.
  destruct (is_nan p1) eqn:N1; [discriminate H1|].
  destruct (is_nan p2) eqn:N2; [discriminate H2|].
  cbn [negb andb] in H1, H2. apply Z.ltb_lt in H1. apply Z.leb_le in H2.
  rewrite !is_nan_spec in *. unfold ord in *. rewrite !div_spec, Hk. unfold SF64div.
  pose proof (Prim2SF_valid k) as Vk. rewrite Hk in Vk. cbn [valid_binary] in Vk.
  destruct (SFdiv_positive mk ek (Prim2SF p1) Vk (Prim2SF_valid p1) N1 H1) as [M1 R1].
  destruct (SFdiv_positive mk ek (Prim2SF p2) Vk (Prim2SF_valid p2) N2 ltac:(lia))
    as [M2 R2].
  split; [exact M1|]. split; [exact M2|].
  assert (Hinf : 0 < 2 ^ 2100) by (apply Z.pow_pos_nonneg; lia).
  assert (Hfin : forall y, valid_binary y = true -> SFord y <= 2 ^ 2100).
  { intros [s|s| |s m e] V; cbn [SFord]; try lia.
    - destruct s; lia.
    - pose proof (finite_value_bound m e V). destruct s; lia. }
  assert (Hnn : 0 <= SFord (SFdiv prec emax (S754_finite false mk ek) (Prim2SF p1))).
  { destruct R1 as [(v1 & Hr1 & E1)|[_ E1]]; rewrite E1; [|lia].
    apply clip_nonneg. exact (rounds_nonneg _ _ _ Hr1). }
  destruct R2 as [(v2 & Hr2 & E2)|[I2 E2]]; [|rewrite E2; exact Hnn].
  destruct R1 as [(v1 & Hr1 & E1)|[I1 E1]].
  - rewrite E1, E2. apply clip_mono.
    apply (rounds_mono _ _ _ _ _ (conj H1 H2) Hr1 Hr2).
  - pose proof (Hfin _ (Prim2SF_valid p2)) as F2.
    rewrite (SFord_top (Prim2SF p2) (Prim2SF_valid p2)) by lia.
    cbn [SFdiv SFord xorb]. exact Hnn.
Qed.

End IEEE754Facts.

Import IEEE754 IEEE754Facts.

(** Decide [is_nan] of the literals of the goal. *)
Ltac nan_literals :=
  repeat match goal with
  | |- context [is_nan ?c] =>
      let b := eval vm_compute in (is_nan c) in
      match b with
      | false => change (is_nan c) with false
      | true => change (is_nan c) with true
      end
  end.

(** Read the comparisons of doubles of the goal on the integers. *)
Ltac float_order :=
  unfold gtb, geb; rewrite ?ltb_ord, ?leb_ord, ?eqb_ord; nan_literals.

(** One fact [ord a < ord b] on two literals. *)
Ltac ord_lt a b :=
  assert (ord a < ord b) by (apply Z.ltb_lt; vm_compute; reflexivity).

(** ** The primary vertex *)

Section PrimaryVertex.

(** The test of the loop is the acceptance predicate. *)
Lemma acceptedVertex_loop v :
  acceptedVertex v =
  negb (Vertex.isFake v) && negb (Vertex.ndof v <=? 4)%float.
Proof.
  unfold acceptedVertex. f_equal. float_order.
  destruct (is_nan (Vertex.ndof v)); simpl; try reflexivity.
  destruct (Z.leb_spec (ord (Vertex.ndof v)) (ord 4)),
           (Z.ltb_spec (ord 4) (ord (Vertex.ndof v))); simpl; try reflexivity; lia.
Qed.

Lemma primaryVertex_from_step i v rest prVtx :
  primaryVertex_from i (v :: rest) prVtx =
  primaryVertex_from (i + 1) rest
    (if acceptedVertex v then (if prVtx <? 0 then int_of_size_t i else prVtx) else prVtx).
Proof.
  rewrite acceptedVertex_loop. simpl.
  destruct (Vertex.isFake v), (Vertex.ndof v <=? 4)%float; reflexivity.
Qed.

Lemma primaryVertex_from_found vertices : forall i prVtx,
  0 <= prVtx -> primaryVertex_from i vertices prVtx = prVtx.
Proof.
  induction vertices as [|v rest IH]; intros i prVtx H; [reflexivity|].
  rewrite primaryVertex_from_step.
  destruct (acceptedVertex v); [|apply IH; assumption].
  destruct (Z.ltb_spec prVtx 0); [lia|]. apply IH; assumption.
Qed.

Lemma int_of_size_t_small i : 0 <= i < 2 ^ 31 -> int_of_size_t i = i.
Proof.
  intros H. unfold int_of_size_t.
  rewrite Z.mod_small; [lia|].
  change (2 ^ 32) with (2 * 2 ^ 31). lia.
Qed.

Lemma primaryVertex_from_spec vertices : forall i,
  0 <= i -> i + Z.of_nat (length vertices) <= 2 ^ 31 ->
  (forall pre v post,
      vertices = pre ++ v :: post ->
      Forall (fun u => acceptedVertex u = false) pre ->
      acceptedVertex v = true ->
      primaryVertex_from i vertices (-1) = i + Z.of_nat (length pre))
  /\ (Forall (fun u => acceptedVertex u = false) vertices ->
      primaryVertex_from i vertices (-1) = -1).
Proof.
  induction vertices as [|u rest IH]; intros i Hi Hlen.
  - split; [|reflexivity]. intros [|? ?] ? ? E; discriminate E.
  - cbn [length] in Hlen. rewrite Nat2Z.inj_succ in Hlen.
    destruct (IH (i + 1)) as [IH1 IH2]; [lia|lia|].
    split.
    + intros pre v post E Hpre Hv. rewrite primaryVertex_from_step.
      destruct pre as [|u' pre'].
      * injection E as -> ->. rewrite Hv. cbn [length Z.ltb Z.compare].
        rewrite int_of_size_t_small by lia.
        rewrite primaryVertex_from_found by lia. cbn. lia.
      * injection E as -> ->. inversion Hpre as [|? ? Hu Hpre']; subst.
        rewrite Hu. rewrite (IH1 pre' v post eq_refl Hpre' Hv).
        cbn [length]. lia.
    + intros Hall. inversion Hall as [|? ? Hu Hrest]; subst.
      rewrite primaryVertex_from_step, Hu. apply IH2. assumption.
Qed.

(** **** C6, as the code has it: in a vertex collection that the [int]
    index can address, the primary vertex is the first vertex that is not
    fake and whose number of degrees of freedom is not at most 4 (it is
    above 4, or NaN), and it is -1 when there is no such vertex. *)
Theorem primaryVertex_first_accepted (vertices : list Vertex.t) :
  Z.of_nat (length vertices) <= 2 ^ 31 ->
  (forall pre v post,
      vertices = pre ++ v :: post ->
      Forall (fun u => acceptedVertex u = false) pre ->
      acceptedVertex v = true ->
      primaryVertex vertices = Z.of_nat (length pre))
  /\ (Forall (fun u => acceptedVertex u = false) vertices ->
      primaryVertex vertices = -1).
Proof.
  intros Hlen. unfold primaryVertex.
  destruct (primaryVertex_from_spec vertices 0) as [H1 H2]; [lia|lia|].
  split; [|exact H2].
  intros pre v post E Hpre Hv. rewrite (H1 pre v post E Hpre Hv). lia.
Qed.

(** The theorem at a collection of three vertices: a fake one, one with
    too few degrees of freedom, and a good one. *)
Lemma primaryVertex_first_accepted_witness :
  primaryVertex [Sample.vertex true 10; Sample.vertex false 3; Sample.vertex false 10] = 2.
Proof.
  destruct (primaryVertex_first_accepted
              [Sample.vertex true 10; Sample.vertex false 3; Sample.vertex false 10])
    as [H _].
  - vm_compute. discriminate.
  - apply (H [Sample.vertex true 10; Sample.vertex false 3] (Sample.vertex false 10) []).
    + reflexivity.
    + repeat constructor.
    + reflexivity.
Defined.

(** **** C6, as the specification states it, fails on a vertex whose
    number of degrees of freedom is NaN: no vertex is valid (not fake with
    [ndof > 4]), and the search returns index 0 instead of -1. *)
Lemma primaryVertex_nan_ndof :
  let vertices := [Sample.vertex false nan] in
  Forall (fun v => validVertex v = false) vertices
  /\ primaryVertex vertices = 0.
Proof.
  split; [repeat constructor | reflexivity].
Qed.

End PrimaryVertex.

(** ** Events without a primary vertex *)

Section NoPrimaryVertex.
Context {C : Collaborators}.

Lemma primaryVertex_none vertices :
  Forall (fun v => acceptedVertex v = false) vertices -> primaryVertex vertices = -1.
Proof.
  unfold primaryVertex. generalize 0.
  induction vertices as [|v rest IH]; intros i H; [reflexivity|].
  inversion H as [|? ? Hv Hrest]; subst.
  rewrite primaryVertex_from_step, Hv. apply IH. assumption.
Qed.

(** Reading the vertex at index -1 throws. *)
Lemma at_no_vertex (vertices : list Vertex.t) :
  Z.of_nat (length vertices) <= 2 ^ 31 -> at_ vertices (size_t_of_int (-1)) = None.
Proof.
  intros H. unfold at_, size_t_of_int.
  change ((-1) mod 2 ^ 64) with (2 ^ 64 - 1).
  destruct (Z.ltb_spec (2 ^ 64 - 1) (Z.of_nat (length vertices))) as [Hlt|Hge].
  - assert (2 ^ 31 < 2 ^ 64 - 1) by (vm_compute; reflexivity). lia.
  - rewrite andb_false_r. reflexivity.
Qed.

Lemma muon_step_throws vertices out muon :
  Z.of_nat (length vertices) <= 2 ^ 31 ->
  PatMuonFilter.preselected muon = true ->
  PatMuonFilter.muon_step vertices (-1) out muon = None.
Proof.
  intros Hlen Hpre. unfold PatMuonFilter.preselected in Hpre.
  apply andb_true_iff in Hpre as [H1 H2].
  apply negb_true_iff in H1. apply negb_true_iff in H2.
  unfold PatMuonFilter.muon_step, PatMuonFilter.tiers.
  rewrite H1, H2, (at_no_vertex vertices Hlen). reflexivity.
Qed.

Lemma muon_step_skips vertices prVtx out muon :
  PatMuonFilter.preselected muon = false ->
  PatMuonFilter.muon_step vertices prVtx out muon = Some out.
Proof.
  unfold PatMuonFilter.preselected, PatMuonFilter.muon_step.
  destruct (Muon.pt muon <? 2)%float; [reflexivity|].
  destruct (fabs (Muon.eta muon) >? 3)%cxx; [reflexivity|discriminate].
Qed.

(** **** C1, on the muon filter: in an event with no primary vertex, the
    first muon that passes the kinematic preselection ends [produce] with
    the exception of [vertices->at(prVtx)], before the guard
    [prVtx > -0.5] of the tight decision is reached. *)
Theorem produce_throws_without_primary_vertex
    (vertices : list Vertex.t) (muons : list Muon.t) :
  Z.of_nat (length vertices) <= 2 ^ 31 ->
  Forall (fun v => acceptedVertex v = false) vertices ->
  Exists (fun muon => PatMuonFilter.preselected muon = true) muons ->
  PatMuonFilter.produce vertices muons = None.
Proof.
  intros Hlen Hnone Hex. unfold PatMuonFilter.produce.
  rewrite (primaryVertex_none vertices Hnone).
  generalize PatMuonFilter.Products_empty.
  induction muons as [|muon rest IH]; intros out; [inversion Hex|].
  cbn [foldM].
  destruct (PatMuonFilter.preselected muon) eqn:Hpre.
  - rewrite (muon_step_throws vertices out muon Hlen Hpre). reflexivity.
  - rewrite (muon_step_skips vertices (-1) out muon Hpre). cbn [bind].
    apply IH. inversion Hex as [? ? H|? ? H]; subst; [congruence|assumption].
Qed.

(** The ntupler, for its part, leaves the record as it is and returns. *)
Lemma recoAnalysis_without_primary_vertex (iEvent : Event.t) (ev : MiniEvent.t) :
  Forall (fun v => acceptedVertex v = false) (Event.vertices iEvent) ->
  MiniFromPat.recoAnalysis iEvent ev = Some ev.
Proof.
  intros H. unfold MiniFromPat.recoAnalysis.
  rewrite (primaryVertex_none _ H). reflexivity.
Qed.

(** On simulated events the generator level is filled all the same, and
    the entry goes to the tree. *)
Lemma analyze_without_primary_vertex (iEvent : Event.t) ev tree :
  Forall (fun v => acceptedVertex v = false) (Event.vertices iEvent) ->
  Event.isRealData iEvent = false ->
  exists ev',
    MiniFromPat.analyze iEvent (ev, tree) = Some (ev', tree ++ [ev'])
    /\ ev' =
       MiniEvent.set_counter
         (MiniEvent.set_counter
            (MiniEvent.set_counter (MiniFromPat.genAnalysis iEvent ev)
               MiniEvent.run (Event.id_run iEvent))
            MiniEvent.lumi (Event.luminosityBlock iEvent))
         MiniEvent.event (Event.id_event iEvent).
Proof.
  intros H Hmc. unfold MiniFromPat.analyze.
  rewrite Hmc. cbn [negb].
  rewrite (recoAnalysis_without_primary_vertex _ _ H). cbn [bind].
  eexists. split; reflexivity.
Qed.

End NoPrimaryVertex.

(** The theorem at an event with no vertex and one central muon of 5 GeV. *)
Lemma produce_throws_without_primary_vertex_witness :
  PatMuonFilter.produce (C := Sample.collaborators) [] [Sample.muon 5 0] = None.
Proof.
  apply (produce_throws_without_primary_vertex (C := Sample.collaborators)
           [] [Sample.muon 5 0]).
  - vm_compute. discriminate.
  - constructor.
  - constructor. reflexivity.
Defined.

(** ** Isolation *)

Section Isolation.
Context {C : Collaborators}.

(** The particle-flow isolation counts the candidate itself whenever the
    candidate lies within its own cone. *)
Lemma isoPF_alone (cand : Candidate.t) :
  (VectorUtil_DeltaR (Candidate.p4 cand) (Candidate.p4 cand)
     >? (if Z.abs (Candidate.pdgId cand) =? 11 then 0.4%float else 0.3%float))%cxx = false ->
  MiniFromPat.isoPF cand [cand] = ((0 + Candidate.pt cand) / Candidate.pt cand)%float.
Proof.
  intros H. unfold MiniFromPat.isoPF. cbn [fold_left].
  unfold MiniFromPat.isoPF_step. rewrite H. reflexivity.
Qed.

(** The generator isolation leaves out what lies closer than 0.01. *)
Lemma genIso_alone (part : Candidate.t) (jet : GenJet.t) :
  GenJet.getJetConstituentsQuick jet = [part] ->
  (VectorUtil_DeltaR (Candidate.p4 part) (Candidate.p4 part) <? 0.01)%float = true ->
  MiniFromPat.genIso part [jet] = (0 / Candidate.pt part)%float.
Proof.
  intros Hc Hself. unfold MiniFromPat.genIso. cbn [fold_left].
  unfold MiniFromPat.genIso_jet_step. rewrite Hc. cbn [fold_left].
  unfold MiniFromPat.constituent_step. rewrite Hself.
  destruct (VectorUtil_DeltaR (Candidate.p4 part) (GenJet.p4 jet) >? 0.7)%cxx; reflexivity.
Qed.

End Isolation.

(** **** C3, on the particle-flow leptons: the isolation of a muon of
    20 GeV computed from a pool that holds this muon alone is 1, not 0 (the
    loop has no self-match test), and the cone is 0.4 for electrons and 0.3
    for muons. *)
Theorem isoPF_counts_the_candidate :
  let mu := Sample.candidate 13 20 0 0 in
  let far := Sample.candidate 22 5 0.35 0 in
  MiniFromPat.isoPF (C := Sample.collaborators) mu [mu] = 1%float
  /\ MiniFromPat.isoPF (C := Sample.collaborators) mu [mu; far] = 1%float
  /\ MiniFromPat.isoPF (C := Sample.collaborators) (Sample.candidate 11 20 0 0)
       [Sample.candidate 11 20 0 0; far] = 1.25%float.
Proof.
  repeat split; vm_compute; reflexivity.
Qed.

(** ** Electron identification *)

Section ElectronTiers.
Context {C : Collaborators}.

Lemma gtb_false_mono (x a b : double) :
  is_nan a = false -> is_nan b = false -> ord a <= ord b ->
  (x >? a)%cxx = false -> (x >? b)%cxx = false.
Proof.
  intros Na Nb Hab. rewrite !gtb_ord, Na, Nb.
  destruct (is_nan x); cbn [negb andb]; [reflexivity|].
  rewrite !Z.ltb_ge. lia.
Qed.

(** A cut that a tier passes is passed at every threshold above. *)
Ltac looser H :=
  match type of H with
  | gtb ?x ?a = false =>
      match goal with
      | |- gtb x ?b = false =>
          apply (gtb_false_mono x a b);
          [ vm_compute; reflexivity | vm_compute; reflexivity
          | vm_compute; discriminate | exact H ]
      end
  end.

(** What a tier has checked when it accepts. *)
Lemma isTightElec_inv patEl conversions bs :
  MiniFromPat.isTightElec patEl conversions bs = true ->
  MiniFromPat.inGap patEl = false
  /\ (Electron.full5x5_sigmaIetaIeta patEl >? 0.01614)%cxx = false
  /\ (fabs (Electron.deltaEtaSuperClusterTrackAtVtx patEl) >? 0.001322)%cxx = false
  /\ (fabs (Electron.deltaPhiSuperClusterTrackAtVtx patEl) >? 0.06129)%cxx = false
  /\ (Electron.hcalOverEcal patEl >? 4.492)%cxx = false
  /\ ((Electron.sumChargedHadronPt patEl / Electron.pt patEl)%float >? 1.255)%cxx = false
  /\ (MiniFromPat.Ooemoop patEl >? 18.26)%cxx = false
  /\ hasMatchedConversion patEl conversions bs = false.
Proof.
  unfold MiniFromPat.isTightElec.
  repeat match goal with
  | |- context [if ?c then false else _] => destruct c; [discriminate|]
  end.
  intros _. repeat split.
Qed.

Lemma isMediumElec_inv patEl conversions bs :
  MiniFromPat.isMediumElec patEl conversions bs = true ->
  MiniFromPat.inGap patEl = false
  /\ (Electron.full5x5_sigmaIetaIeta patEl >? 0.01609)%cxx = false
  /\ (fabs (Electron.deltaEtaSuperClusterTrackAtVtx patEl) >? 0.001766)%cxx = false
  /\ (fabs (Electron.deltaPhiSuperClusterTrackAtVtx patEl) >? 0.03130)%cxx = false
  /\ (Electron.hcalOverEcal patEl >? 7.371)%cxx = false
  /\ ((Electron.sumChargedHadronPt patEl / Electron.pt patEl)%float >? 1.325)%cxx = false
  /\ (MiniFromPat.Ooemoop patEl >? 22.6)%cxx = false
  /\ hasMatchedConversion patEl conversions bs = false.
Proof.
  unfold MiniFromPat.isMediumElec.
  repeat match goal with
  | |- context [if ?c then false else _] => destruct c; [discriminate|]
  end.
  intros _. repeat split.
Qed.

Lemma isLooseElec_inv patEl conversions bs :
  MiniFromPat.isLooseElec patEl conversions bs = true ->
  MiniFromPat.inGap patEl = false
  /\ (Electron.full5x5_sigmaIetaIeta patEl >? 0.02992)%cxx = false
  /\ (fabs (Electron.deltaEtaSuperClusterTrackAtVtx patEl) >? 0.004119)%cxx = false
  /\ (fabs (Electron.deltaPhiSuperClusterTrackAtVtx patEl) >? 0.05176)%cxx = false
  /\ (Electron.hcalOverEcal patEl >? 6.741)%cxx = false
  /\ ((Electron.sumChargedHadronPt patEl / Electron.pt patEl)%float >? 2.5)%cxx = false
  /\ (MiniFromPat.Ooemoop patEl >? 73.76)%cxx = false
  /\ hasMatchedConversion patEl conversions bs = false.
Proof.
  unfold MiniFromPat.isLooseElec.
  repeat match goal with
  | |- context [if ?c then false else _] => destruct c; [discriminate|]
  end.
  intros _. repeat split.
Qed.

(** **** C2, as the code has it: a tight electron is medium when its
    shower width is at most 0.01609 and its track-cluster distance in phi at
    most 0.03130, and a medium electron is loose when its ratio of hadronic
    to electromagnetic energy is at most 6.741.  The cuts on the
    track-cluster distance in eta, on the isolation and on the
    energy-momentum variable tighten from loose to medium to tight; the
    other three do not. *)
Theorem electron_tiers_nested_under_conditions
    (patEl : Electron.t) (conversions : ConversionCollection) (bs : Point) :
  (MiniFromPat.isTightElec patEl conversions bs = true ->
   (Electron.full5x5_sigmaIetaIeta patEl >? 0.01609)%cxx = false ->
   (fabs (Electron.deltaPhiSuperClusterTrackAtVtx patEl) >? 0.03130)%cxx = false ->
   MiniFromPat.isMediumElec patEl conversions bs = true)
  /\ (MiniFromPat.isMediumElec patEl conversions bs = true ->
      (Electron.hcalOverEcal patEl >? 6.741)%cxx = false ->
      MiniFromPat.isLooseElec patEl conversions bs = true).
Proof.
  split.
  - intros HT Hs Hp.
    apply isTightElec_inv in HT as (Hgap & _ & Hde & _ & Hh & Hi & Ho & Hc).
    unfold MiniFromPat.isMediumElec.
    rewrite Hgap, Hs, Hp, Hc.
    replace (fabs (Electron.deltaEtaSuperClusterTrackAtVtx patEl) >? 0.001766)%cxx
      with false by (symmetry; looser Hde).
    replace (Electron.hcalOverEcal patEl >? 7.371)%cxx
      with false by (symmetry; looser Hh).
    replace ((Electron.sumChargedHadronPt patEl / Electron.pt patEl)%float >? 1.325)%cxx
      with false by (symmetry; looser Hi).
    replace (MiniFromPat.Ooemoop patEl >? 22.6)%cxx
      with false by (symmetry; looser Ho).
    reflexivity.
  - intros HM Hh.
    apply isMediumElec_inv in HM as (Hgap & Hs & Hde & Hp & _ & Hi & Ho & Hc).
    unfold MiniFromPat.isLooseElec.
    rewrite Hgap, Hh, Hc.
    replace (Electron.full5x5_sigmaIetaIeta patEl >? 0.02992)%cxx
      with false by (symmetry; looser Hs).
    replace (fabs (Electron.deltaEtaSuperClusterTrackAtVtx patEl) >? 0.004119)%cxx
      with false by (symmetry; looser Hde).
    replace (fabs (Electron.deltaPhiSuperClusterTrackAtVtx patEl) >? 0.05176)%cxx
      with false by (symmetry; looser Hp).
    replace ((Electron.sumChargedHadronPt patEl / Electron.pt patEl)%float >? 2.5)%cxx
      with false by (symmetry; looser Hi).
    replace (MiniFromPat.Ooemoop patEl >? 73.76)%cxx
      with false by (symmetry; looser Ho).
    reflexivity.
Qed.

End ElectronTiers.

(** The theorem at a barrel electron with small shape variables, which is
    tight, hence medium, hence loose. *)
Lemma electron_tiers_nested_under_conditions_witness :
  MiniFromPat.isMediumElec (C := Sample.collaborators) (Sample.electron 0.01 0.01 1) tt
    Sample.origin = true
  /\ MiniFromPat.isLooseElec (C := Sample.collaborators) (Sample.electron 0.01 0.01 1) tt
       Sample.origin = true.
Proof.
  destruct (electron_tiers_nested_under_conditions (C := Sample.collaborators)
              (Sample.electron 0.01 0.01 1) tt Sample.origin) as [HTM HML].
  assert (HM : MiniFromPat.isMediumElec (C := Sample.collaborators)
                 (Sample.electron 0.01 0.01 1) tt Sample.origin = true)
    by (apply HTM; reflexivity).
  split; [exact HM | apply HML; [exact HM | reflexivity]].
Defined.

(** **** C2, as the specification states it, fails twice: an electron
    with a shower width of 0.01612 is tight and not medium, and an electron
    with a ratio of hadronic to electromagnetic energy of 7 is medium and
    not loose.  An electron with a track-cluster distance in phi of 0.06
    is tight and not even loose. *)
Lemma electron_tiers_not_nested :
  let wide := Sample.electron 0.01612 0 0 in
  let hadronic := Sample.electron 0.01 0 7 in
  let bent := Sample.electron 0.01 0.06 0 in
  (MiniFromPat.isTightElec (C := Sample.collaborators) wide tt Sample.origin = true
   /\ MiniFromPat.isMediumElec (C := Sample.collaborators) wide tt Sample.origin = false)
  /\ (MiniFromPat.isMediumElec (C := Sample.collaborators) hadronic tt Sample.origin = true
      /\ MiniFromPat.isLooseElec (C := Sample.collaborators) hadronic tt Sample.origin = false)
  /\ (MiniFromPat.isTightElec (C := Sample.collaborators) bent tt Sample.origin = true
      /\ MiniFromPat.isLooseElec (C := Sample.collaborators) bent tt Sample.origin = false).
Proof.
  repeat split; vm_compute; reflexivity.
Qed.

(** ** The energy-momentum variable of the electron tiers *)

Section EnergyMomentum.
Context {C : Collaborators}.

Lemma ord_abs x : ord (abs x) = Z.abs (ord x).
Proof.
  unfold ord. rewrite abs_spec.
  destruct (Prim2SF x) as [s|s| |s m e]; cbn [SFabs SFord]; try reflexivity.
  - assert (0 < 2 ^ 2100) by (apply Z.pow_pos_nonneg; lia). destruct s; lia.
  - assert (0 <= 2 ^ (e + 1074)) by (apply Z.pow_nonneg; lia).
    destruct s; nia.
Qed.

Lemma is_nan_abs x : is_nan (abs x) = is_nan x.
Proof.
  rewrite !is_nan_spec, abs_spec. destruct (Prim2SF x); reflexivity.
Qed.

Lemma ord_finite x : is_nan x = false -> is_infinity x = false -> Z.abs (ord x) < 2 ^ 2100.
Proof.
  intros N I. unfold is_infinity in I. rewrite eqb_ord, is_nan_abs, N, ord_abs in I.
  change (is_nan infinity) with false in I. cbn [negb andb] in I.
  apply Z.eqb_neq in I. change (ord infinity) with (2 ^ 2100) in I.
  assert (0 < 2 ^ 2100) by (apply Z.pow_pos_nonneg; lia).
  unfold ord in *. pose proof (Prim2SF_valid x) as V.
  destruct (Prim2SF x) as [s|s| |s m e]; cbn [SFord] in *;
    try (pose proof (finite_value_bound m e V));
    set (inf := 2 ^ 2100) in *; try destruct s; lia.
Qed.

(** An energy that is NaN or infinite is not equal to zero. *)
Lemma nonfinite_not_zero (E : double) :
  isfinite E = false -> (E =? 0)%float = false.
Proof.
  unfold isfinite. intros H. rewrite eqb_ord.
  destruct (is_nan E) eqn:N; [reflexivity|].
  cbn [negb andb] in *. apply negb_false_iff in H.
  unfold is_infinity in H. rewrite eqb_ord, is_nan_abs, N, ord_abs in H.
  change (is_nan infinity) with false in H. change (is_nan 0) with false.
  cbn [negb andb] in *. apply Z.eqb_eq in H.
  change (ord infinity) with (2 ^ 2100) in H. change (ord 0) with 0.
  apply Z.eqb_neq. assert (0 < 2 ^ 2100) by (apply Z.pow_pos_nonneg; lia). lia.
Qed.

Lemma tier_cuts (c1 c2 c3 c4 c5 c6 c7 c8 : bool) :
  (if c1 then false else if c2 then false else if c3 then false else if c4 then false
   else if c5 then false else if c6 then false else if c7 then false
   else if c8 then false else true)
  = negb c1 && negb c2 && negb c3 && negb c4 && negb c5 && negb c6 && negb c8 && negb c7.
Proof.
  destruct c1, c2, c3, c4, c5, c6, c7, c8; reflexivity.
Qed.

(** **** C8: the energy-momentum variable is 0 when the energy of the
    calorimeter is zero, 998 when it is NaN or infinite, and
    [|1/E - (E/p)/E|] otherwise, the ratio [(E/p)/E] being a binary32 one;
    and each tier is its other cuts together with the test that this
    variable is not above the threshold of the tier. *)
Theorem Ooemoop_cases (patEl : Electron.t) (conversions : ConversionCollection) (bs : Point) :
  let E := Electron.ecalEnergy patEl in
  let EoverP := Electron.eSuperClusterOverP patEl in
  ((E =? 0)%float = true -> MiniFromPat.Ooemoop patEl = 0%float)
  /\ (is_nan E = true \/ is_infinity E = true -> MiniFromPat.Ooemoop patEl = 998%float)
  /\ ((E =? 0)%float = false -> is_nan E = false -> is_infinity E = false ->
      MiniFromPat.Ooemoop patEl = fabs (1 / E - Binary32.div EoverP E)%float)
  /\ MiniFromPat.isLooseElec patEl conversions bs
     = passesShapeCuts 0.02992 0.004119 0.05176 6.741 2.5 patEl conversions bs
       && negb (MiniFromPat.Ooemoop patEl >? 73.76)%cxx
  /\ MiniFromPat.isMediumElec patEl conversions bs
     = passesShapeCuts 0.01609 0.001766 0.03130 7.371 1.325 patEl conversions bs
       && negb (MiniFromPat.Ooemoop patEl >? 22.6)%cxx
  /\ MiniFromPat.isTightElec patEl conversions bs
     = passesShapeCuts 0.01614 0.001322 0.06129 4.492 1.255 patEl conversions bs
       && negb (MiniFromPat.Ooemoop patEl >? 18.26)%cxx.
Proof.
  intros E EoverP.
  split; [|split; [|split; [|split; [|split]]]].
  - unfold MiniFromPat.Ooemoop. fold E. intros ->. reflexivity.
  - unfold MiniFromPat.Ooemoop. fold E. intros H.
    assert (Hfin : isfinite E = false).
    { unfold isfinite. destruct H as [-> | ->]; [reflexivity | apply andb_false_r]. }
    rewrite (nonfinite_not_zero E Hfin), Hfin. reflexivity.
  - unfold MiniFromPat.Ooemoop. fold E. fold EoverP.
    intros Hz Hn Hi. unfold isfinite. rewrite Hz, Hn, Hi. reflexivity.
  - unfold MiniFromPat.isLooseElec, passesShapeCuts. apply tier_cuts.
  - unfold MiniFromPat.isMediumElec, passesShapeCuts. apply tier_cuts.
  - unfold MiniFromPat.isTightElec, passesShapeCuts. apply tier_cuts.
Qed.

End EnergyMomentum.

(** ** The two ME0 selections *)

Section ME0Selections.
Context {C : Collaborators}.

(** The ntupler repeats the selection of the filter word for word. *)
Lemma isME0MuonSel_same muon pullXCut dXCut pullYCut dYCut dPhi :
  MiniFromPat.isME0MuonSel muon pullXCut dXCut pullYCut dYCut dPhi =
  PatMuonFilter.isME0MuonSel muon pullXCut dXCut pullYCut dYCut dPhi.
Proof. reflexivity. Qed.

Lemma segment_step_residualsOf chamber r segment :
  Chamber.detector chamber = 5 ->
  PatMuonFilter.segment_step chamber r segment = residualsOf (chamber, segment).
Proof.
  intros H. unfold PatMuonFilter.segment_step. rewrite H. reflexivity.
Qed.

Lemma last_app_cons {A} (l : list A) (a : A) (l' : list A) (d : A) :
  last (l ++ a :: l') d = last (a :: l') d.
Proof.
  induction l as [|b l IH]; [reflexivity|].
  cbn [app]. rewrite <- IH. destruct (l ++ a :: l') eqn:E; [|reflexivity].
  destruct l; discriminate E.
Qed.

Lemma last_cons {A} (l : list A) : forall (a d : A), last (a :: l) d = last l a.
Proof.
  induction l as [|b l IH]; intros a d; [reflexivity|].
  change (last (a :: b :: l) d) with (last (b :: l) d). rewrite !IH. reflexivity.
Qed.

Lemma last_app_default {A} (l l' : list A) (d : A) :
  last (l ++ l') d = last l' (last l d).
Proof.
  destruct l' as [|a l']; [rewrite app_nil_r; reflexivity|].
  rewrite last_app_cons. revert a. induction l' as [|b l' IH]; intros a; [reflexivity|].
  cbn [last] in *. apply IH.
Qed.

(** One chamber: its segments overwrite the residuals one after the
    other. *)
Lemma chamber_step_last chamber r :
  PatMuonFilter.chamber_step r chamber =
  last (map residualsOf
          (if Chamber.detector chamber =? 5
           then map (pair chamber) (Chamber.me0Matches chamber) else []))
       r.
Proof.
  unfold PatMuonFilter.chamber_step.
  destruct (Z.eqb_spec (Chamber.detector chamber) 5) as [H5|H5].
  - revert r. induction (Chamber.me0Matches chamber) as [|s rest IH]; intros r;
      [reflexivity|].
    cbn [fold_left map]. rewrite IH, (segment_step_residualsOf _ _ _ H5), last_cons.
    reflexivity.
  - cbn [map last]. revert r.
    induction (Chamber.me0Matches chamber) as [|s rest IH]; intros r; [reflexivity|].
    cbn [fold_left]. rewrite IH. unfold PatMuonFilter.segment_step.
    destruct (Z.eqb_spec (Chamber.detector chamber) 5); [contradiction|reflexivity].
Qed.

(** The two loops leave the residuals of the last pair. *)
Lemma fold_chamber_step_last muon :
  fold_left PatMuonFilter.chamber_step (Muon.matches muon) PatMuonFilter.Residuals_init
  = lastResiduals muon.
Proof.
  unfold lastResiduals, me0Pairs.
  generalize PatMuonFilter.Residuals_init.
  induction (Muon.matches muon) as [|chamber rest IH]; intros r; [reflexivity|].
  cbn [fold_left flat_map]. rewrite IH, map_app, last_app_default, chamber_step_last.
  reflexivity.
Qed.

Lemma isME0MuonSel_last muon pullXCut dXCut pullYCut dYCut dPhi :
  PatMuonFilter.isME0MuonSel muon pullXCut dXCut pullYCut dYCut dPhi =
  Muon.isME0Muon muon
  && passesPull (lastResiduals muon) pullXCut dXCut pullYCut dYCut dPhi.
Proof.
  unfold PatMuonFilter.isME0MuonSel. rewrite fold_chamber_step_last.
  destruct (Muon.isME0Muon muon); reflexivity.
Qed.

Lemma lastResiduals_snoc muon init p :
  me0Pairs muon = init ++ [p] -> lastResiduals muon = residualsOf p.
Proof.
  intros H. unfold lastResiduals. rewrite H, map_app. cbn [map].
  rewrite last_app_cons. reflexivity.
Qed.

(** The inner loop of the angle and eta selection raises the flag at
    every pair that passes and never lowers it. *)
Lemma fold_segmentNew_step me0chamber chamber dEtaCut dPhiCut dPhiBendCut segments :
  forall result,
  fold_left (PatMuonFilter.segmentNew_step me0chamber chamber dEtaCut dPhiCut dPhiBendCut)
    segments result
  = result
    || existsb (PatMuonFilter.segmentNew_step me0chamber chamber dEtaCut dPhiCut dPhiBendCut
                  false) segments.
Proof.
  induction segments as [|s rest IH]; intros result; [symmetry; apply orb_false_r|].
  cbn [fold_left existsb]. rewrite IH. unfold PatMuonFilter.segmentNew_step.
  match goal with |- context [if ?c then true else result] => destruct c end;
    destruct result; reflexivity.
Qed.

(** The body of the inner loop raises the flag exactly when the three
    angles of the pair are below their cuts. *)
Lemma segmentNew_step_angles me0chamber chamber dEtaCut dPhiCut dPhiBendCut result segment :
  PatMuonFilter.segmentNew_step me0chamber chamber dEtaCut dPhiCut dPhiBendCut result segment
  = result
    || (deltaEta (anglesOf me0chamber (chamber, segment)) <? dEtaCut)%float
       && (deltaPhi (anglesOf me0chamber (chamber, segment)) <? dPhiCut)%float
       && (deltaPhiBend (anglesOf me0chamber (chamber, segment)) <? dPhiBendCut)%float.
Proof.
  unfold PatMuonFilter.segmentNew_step, anglesOf.
  cbn [deltaEta deltaPhi deltaPhiBend].
  match goal with |- (if ?c then true else result) = _ => destruct c end;
    destruct result; reflexivity.
Qed.

Lemma chamberNew_step_exists dEtaCut dPhiCut dPhiBendCut result chamber :
  (Chamber.detector chamber = 5 -> Chamber.me0Matches chamber <> [] ->
   ME0Geometry_chamber (Chamber.id chamber) <> None) ->
  PatMuonFilter.chamberNew_step dEtaCut dPhiCut dPhiBendCut result chamber
  = Some (result
          || existsb (passesAngle dEtaCut dPhiCut dPhiBendCut)
               (if Chamber.detector chamber =? 5
                then map (pair chamber) (Chamber.me0Matches chamber) else [])).
Proof.
  intros Hgeo. unfold PatMuonFilter.chamberNew_step.
  destruct (Z.eqb_spec (Chamber.detector chamber) 5) as [H5|H5];
    [|rewrite orb_false_r; reflexivity].
  destruct (Chamber.me0Matches chamber) as [|s rest] eqn:Hs;
    [rewrite orb_false_r; reflexivity|].
  destruct (ME0Geometry_chamber (Chamber.id chamber)) as [me0chamber|] eqn:Hg;
    [|exfalso; apply Hgeo; [assumption|discriminate|reflexivity]].
  cbn [bind]. rewrite fold_segmentNew_step. f_equal. f_equal.
  generalize (s :: rest). intros segments.
  induction segments as [|s' segments IH]; [reflexivity|].
  cbn [existsb map]. rewrite IH. f_equal.
  unfold passesAngle. cbn [fst snd]. rewrite Hg. apply segmentNew_step_angles.
Qed.

Lemma isME0MuonSelNew_any muon dEtaCut dPhiCut dPhiBendCut :
  (forall chamber, In chamber (Muon.matches muon) ->
     Chamber.detector chamber = 5 -> Chamber.me0Matches chamber <> [] ->
     ME0Geometry_chamber (Chamber.id chamber) <> None) ->
  PatMuonFilter.isME0MuonSelNew muon dEtaCut dPhiCut dPhiBendCut
  = Some (Muon.isME0Muon muon
          && existsb (passesAngle dEtaCut dPhiCut dPhiBendCut) (me0Pairs muon)).
Proof.
  intros Hgeo. unfold PatMuonFilter.isME0MuonSelNew, me0Pairs.
  destruct (Muon.isME0Muon muon); [|reflexivity]. cbn [andb].
  change (existsb (passesAngle dEtaCut dPhiCut dPhiBendCut)
            (flat_map
               (fun chamber =>
                  if Chamber.detector chamber =? 5
                  then map (pair chamber) (Chamber.me0Matches chamber) else [])
               (Muon.matches muon)))
    with (false
          || existsb (passesAngle dEtaCut dPhiCut dPhiBendCut)
               (flat_map
                  (fun chamber =>
                     if Chamber.detector chamber =? 5
                     then map (pair chamber) (Chamber.me0Matches chamber) else [])
                  (Muon.matches muon))).
  generalize false.
  induction (Muon.matches muon) as [|chamber rest IH]; intros result.
  - cbn. rewrite orb_false_r. reflexivity.
  - cbn [foldM flat_map].
    rewrite chamberNew_step_exists by (apply Hgeo; left; reflexivity).
    cbn [bind]. rewrite IH by (intros c Hc; apply Hgeo; right; exact Hc).
    rewrite existsb_app, orb_assoc. reflexivity.
Qed.

(** **** C10: the pull and distance selection decides on the residuals of
    the last (chamber, segment) pair of the ME0 chambers alone, with a pull
    or a distance below its cut along x, the same along y, and the
    difference of the directions below its cut; two ME0 muons with the same
    last pair get the same answer, in the filter and in the ntupler.  The
    angle and eta selection, when the geometry knows the chambers, accepts
    exactly when some pair has its three angles below their cuts. *)
Theorem isME0MuonSel_last_pair_only
    (muon : Muon.t) (init : list (Chamber.t * Segment.t))
    (chamber : Chamber.t) (segment : Segment.t)
    (pullXCut dXCut pullYCut dYCut dPhi dEtaCut dPhiCut dPhiBendCut : double) :
  Muon.isME0Muon muon = true ->
  me0Pairs muon = init ++ [(chamber, segment)] ->
  let r := residualsOf (chamber, segment) in
  PatMuonFilter.isME0MuonSel muon pullXCut dXCut pullYCut dYCut dPhi
  = ((PatMuonFilter.pullX r <? pullXCut)%float || (PatMuonFilter.deltaX r <? dXCut)%float)
    && ((PatMuonFilter.pullY r <? pullYCut)%float || (PatMuonFilter.deltaY r <? dYCut)%float)
    && (PatMuonFilter.deltaPhi r <? dPhi)%float
  /\ MiniFromPat.isME0MuonSel muon pullXCut dXCut pullYCut dYCut dPhi
     = PatMuonFilter.isME0MuonSel muon pullXCut dXCut pullYCut dYCut dPhi
  /\ (forall other : Muon.t,
        Muon.isME0Muon other = true ->
        last (me0Pairs other) (chamber, segment) = (chamber, segment) ->
        me0Pairs other <> [] ->
        PatMuonFilter.isME0MuonSel other pullXCut dXCut pullYCut dYCut dPhi
        = PatMuonFilter.isME0MuonSel muon pullXCut dXCut pullYCut dYCut dPhi)
  /\ ((forall c, In c (Muon.matches muon) ->
         Chamber.detector c = 5 -> Chamber.me0Matches c <> [] ->
         ME0Geometry_chamber (Chamber.id c) <> None) ->
      PatMuonFilter.isME0MuonSelNew muon dEtaCut dPhiCut dPhiBendCut
      = Some (existsb (passesAngle dEtaCut dPhiCut dPhiBendCut) (me0Pairs muon))).
Proof.
  intros Hme0 Hpairs r.
  assert (Hsel : PatMuonFilter.isME0MuonSel muon pullXCut dXCut pullYCut dYCut dPhi
                 = passesPull r pullXCut dXCut pullYCut dYCut dPhi).
  { rewrite isME0MuonSel_last, Hme0, (lastResiduals_snoc muon init _ Hpairs). reflexivity. }
  split; [exact Hsel|]. split; [reflexivity|]. split.
  - intros other Ho Hlast Hne. rewrite Hsel, isME0MuonSel_last, Ho. cbn [andb].
    f_equal. unfold lastResiduals.
    destruct (exists_last Hne) as (init' & p & E).
    rewrite E in Hlast |- *. rewrite last_app_cons in Hlast. cbn [last] in Hlast.
    subst p. rewrite map_app. cbn [map]. rewrite last_app_cons. reflexivity.
  - intros Hgeo. rewrite (isME0MuonSelNew_any muon _ _ _ Hgeo), Hme0. reflexivity.
Qed.

End ME0Selections.

(** The theorem at a muon with two ME0 chambers of one segment each, in a
    geometry that knows them: the first pair is a perfect match, the last
    one is 10 cm off along x.  The pull and distance selection follows the
    last one and rejects the muon; the angle and eta selection accepts it
    for the first one. *)
Lemma isME0MuonSel_last_pair_only_witness :
  let near := Sample.chamber 0 1 0 1 in
  let off := Sample.chamber 10 1 0 1 in
  PatMuonFilter.isME0MuonSel (C := Sample.collaboratorsWithGeometry)
    (Sample.me0muon [near; off]) 3 4 3 4 0.5 = false
  /\ PatMuonFilter.isME0MuonSelNew (C := Sample.collaboratorsWithGeometry)
       (Sample.me0muon [near; off]) 0.077 0.056 0.0096 = Some true
  /\ passesAngle (C := Sample.collaboratorsWithGeometry) 0.077 0.056 0.0096
       (off, Sample.segment 0 1) = false.
Proof.
  intros near off.
  destruct (isME0MuonSel_last_pair_only (C := Sample.collaboratorsWithGeometry)
              (Sample.me0muon [near; off])
              [(near, Sample.segment 0 1)] off (Sample.segment 0 1)
              3 4 3 4 0.5 0.077 0.056 0.0096 eq_refl eq_refl) as (H & _ & _ & Hnew).
  split; [rewrite H; vm_compute; reflexivity|].
  split; [|vm_compute; reflexivity].
  rewrite Hnew; [vm_compute; reflexivity|].
  intros c _ _ _. discriminate.
Defined.

(** ** Pulls over a degenerate uncertainty *)

Section DegeneratePull.
Context {C : Collaborators}.

Lemma isNegZero_spec s : Prim2SF s = S754_zero true -> isNegZero s = true.
Proof.
  intros H. unfold isNegZero, is_zero, get_sign, is_zero.
  assert (Hz : (s =? zero)%float = true).
  { rewrite eqb_spec, H. reflexivity. }
  rewrite Hz. cbn [andb]. rewrite ltb_spec, div_spec, H. reflexivity.
Qed.

(** A sum of uncertainties that is at most zero and is not [-0.0] is [+0],
    a negative number or minus infinity. *)
Lemma degenerate_sum s :
  (s <=? 0)%float = true -> isNegZero s = false ->
  Prim2SF s = S754_zero false
  \/ (exists m e, Prim2SF s = S754_finite true m e)
  \/ Prim2SF s = S754_infinity true.
Proof.
  intros Hle Hnz. rewrite leb_spec in Hle.
  pose proof (isNegZero_spec s) as Hneg.
  change (Prim2SF 0) with (S754_zero false) in Hle.
  destruct (Prim2SF s) as [[]|[]| |[] m e]; try discriminate Hle; eauto.
  rewrite Hneg in Hnz by reflexivity. discriminate Hnz.
Qed.

(** Its binary32 square root is then [+0] or NaN. *)
Lemma degenerate_sqrt s :
  (s <=? 0)%float = true -> isNegZero s = false ->
  Binary32.sqrt s = 0%float \/ Binary32.sqrt s = nan.
Proof.
  intros Hle Hnz. unfold Binary32.sqrt.
  destruct (degenerate_sum s Hle Hnz) as [-> | [(m & e & ->) | ->]];
    [left|right|right]; reflexivity.
Qed.

(** The pull is then NaN or plus infinity, whichever [fabs] the call
    selects. *)
Lemma degenerate_pull d s :
  (s <=? 0)%float = true -> isNegZero s = false ->
  Prim2SF (fabs_over d (Binary32.sqrt s)) = S754_nan
  \/ Prim2SF (fabs_over d (Binary32.sqrt s)) = S754_infinity false.
Proof.
  intros Hle Hnz. unfold fabs_over, Binary32.div, fabs.
  destruct cmath_float_overloads; [|rewrite div_spec]; rewrite abs_spec;
    destruct (degenerate_sqrt s Hle Hnz) as [-> | ->];
    destruct (Prim2SF d) as [[]|[]| |[] md ed]; cbn; auto.
Qed.

Lemma nonfinite_pull (p : double) :
  Prim2SF p = S754_nan \/ Prim2SF p = S754_infinity false ->
  isfinite p = false /\ forall cut, (p <? cut)%float = false.
Proof.
  intros H. split.
  - unfold isfinite, is_infinity. rewrite is_nan_spec, eqb_spec, abs_spec.
    destruct H as [-> | ->]; reflexivity.
  - intros cut. rewrite ltb_spec. unfold SFltb.
    destruct H as [-> | ->]; [reflexivity|].
    destruct (Prim2SF cut) as [[]|[]| |[] m e]; reflexivity.
Qed.

(** **** C9, as the code has it: when the binary32 sum of the two
    uncertainties of the last ME0 pair is negative or [+0], the pull is NaN
    or plus infinity, its comparison with any cut is false, and the
    selection returns what the distance alone decides along that axis.  (A
    sum equal to [-0.0] is left out: its pull is minus infinity.) *)
Theorem pull_of_degenerate_uncertainty
    (muon : Muon.t) (init : list (Chamber.t * Segment.t))
    (chamber : Chamber.t) (segment : Segment.t)
    (pullXCut dXCut pullYCut dYCut dPhi : double) :
  Muon.isME0Muon muon = true ->
  me0Pairs muon = init ++ [(chamber, segment)] ->
  let r := residualsOf (chamber, segment) in
  let sumX := Binary32.add (Chamber.xErr chamber) (Segment.xErr segment) in
  let sumY := Binary32.add (Chamber.yErr chamber) (Segment.yErr segment) in
  ((sumX <=? 0)%float = true -> isNegZero sumX = false ->
   isfinite (PatMuonFilter.pullX r) = false
   /\ (PatMuonFilter.pullX r <? pullXCut)%float = false
   /\ PatMuonFilter.isME0MuonSel muon pullXCut dXCut pullYCut dYCut dPhi
      = (PatMuonFilter.deltaX r <? dXCut)%float
        && ((PatMuonFilter.pullY r <? pullYCut)%float
            || (PatMuonFilter.deltaY r <? dYCut)%float)
        && (PatMuonFilter.deltaPhi r <? dPhi)%float)
  /\ ((sumY <=? 0)%float = true -> isNegZero sumY = false ->
      isfinite (PatMuonFilter.pullY r) = false
      /\ (PatMuonFilter.pullY r <? pullYCut)%float = false
      /\ PatMuonFilter.isME0MuonSel muon pullXCut dXCut pullYCut dYCut dPhi
         = ((PatMuonFilter.pullX r <? pullXCut)%float
            || (PatMuonFilter.deltaX r <? dXCut)%float)
           && (PatMuonFilter.deltaY r <? dYCut)%float
           && (PatMuonFilter.deltaPhi r <? dPhi)%float)
  /\ MiniFromPat.isME0MuonSel muon pullXCut dXCut pullYCut dYCut dPhi
     = PatMuonFilter.isME0MuonSel muon pullXCut dXCut pullYCut dYCut dPhi.
Proof.
  intros Hme0 Hpairs r sumX sumY.
  assert (Hsel : PatMuonFilter.isME0MuonSel muon pullXCut dXCut pullYCut dYCut dPhi
                 = passesPull r pullXCut dXCut pullYCut dYCut dPhi).
  { rewrite isME0MuonSel_last, Hme0, (lastResiduals_snoc muon init _ Hpairs). reflexivity. }
  split; [|split; [|reflexivity]].
  - intros Hle Hnz.
    destruct (nonfinite_pull (PatMuonFilter.pullX r)) as [Hfin Hcmp].
    { apply degenerate_pull; assumption. }
    split; [exact Hfin|]. split; [apply Hcmp|].
    rewrite Hsel. unfold passesPull. rewrite Hcmp. reflexivity.
  - intros Hle Hnz.
    destruct (nonfinite_pull (PatMuonFilter.pullY r)) as [Hfin Hcmp].
    { apply degenerate_pull; assumption. }
    split; [exact Hfin|]. split; [apply Hcmp|].
    rewrite Hsel. unfold passesPull. rewrite Hcmp. reflexivity.
Qed.

End DegeneratePull.

(** The theorem at an ME0 muon whose only pair has the positions 10 cm
    apart along x and no uncertainty along x at all: the pull is plus
    infinity and the muon is rejected. *)
Lemma pull_of_degenerate_uncertainty_witness :
  let chamber := Sample.chamber 10 0 0 0 in
  PatMuonFilter.pullX (residualsOf (C := Sample.collaborators)
                         (chamber, Sample.segment 0 0)) = infinity
  /\ PatMuonFilter.isME0MuonSel (C := Sample.collaborators)
       (Sample.me0muon [chamber]) 3 4 3 4 0.5 = false.
Proof.
  intros chamber.
  destruct (pull_of_degenerate_uncertainty (C := Sample.collaborators)
              (Sample.me0muon [chamber]) [] chamber (Sample.segment 0 0)
              3 4 3 4 0.5 eq_refl eq_refl) as [HX _].
  destruct HX as (_ & _ & Hsel); [reflexivity|reflexivity|].
  split; [reflexivity|]. rewrite Hsel. vm_compute. reflexivity.
Defined.

(** **** C9, as the specification states it, fails when the two
    uncertainties are [-0.0]: their sum is [-0.0], a zero; its square root
    is [-0.0]; the pull of a residual of 10 cm is minus infinity, which is
    below the cut of 3, and the muon passes along x although it is 10 cm
    away, beyond the distance cut of 4.  It is so whichever [fabs] the
    call selects. *)
Lemma pull_of_negative_zero :
  let chamber := Sample.chamber 10 (-0) 0 (-0) in
  let segment := Sample.segment 0 (-0) in
  let r := residualsOf (C := Sample.collaborators) (chamber, segment) in
  let r' := residualsOf (C := Sample.collaboratorsWithOverloads) (chamber, segment) in
  (Binary32.add (Chamber.xErr chamber) (Segment.xErr segment) =? 0)%float = true
  /\ PatMuonFilter.pullX r = neg_infinity
  /\ (PatMuonFilter.pullX r <? 3)%float = true
  /\ (PatMuonFilter.deltaX r <? 4)%float = false
  /\ PatMuonFilter.isME0MuonSel (C := Sample.collaborators)
       (Sample.me0muon [chamber]) 3 4 3 4 0.5 = true
  /\ MiniFromPat.isME0MuonSel (C := Sample.collaborators)
       (Sample.me0muon [chamber]) 3 4 3 4 0.5 = true
  /\ PatMuonFilter.pullX r' = neg_infinity
  /\ PatMuonFilter.isME0MuonSel (C := Sample.collaboratorsWithOverloads)
       (Sample.me0muon [chamber]) 3 4 3 4 0.5 = true
  /\ MiniFromPat.isME0MuonSel (C := Sample.collaboratorsWithOverloads)
       (Sample.me0muon [chamber]) 3 4 3 4 0.5 = true.
Proof.
  repeat split; vm_compute; reflexivity.
Qed.

(** ** The association with the generator level *)

Section GeneratorAssociation.
Context {C : Collaborators}.
Import MiniEvent.















(** *** The two association loops *)

Lemma matchLepton_step n ig ev :
  MiniFromPat.matchLepton (S n) ig ev =
  MiniFromPat.matchLepton n (ig + 1)
    (if leptonQualifies ev (counter ev nl) ig
     then set_int ev l_g (counter ev nl) ig else ev).
Proof.
  cbn [MiniFromPat.matchLepton]. unfold leptonQualifies.
  destruct (Z.abs (ints ev gl_pid ig) =? Z.abs (ints ev l_pid (counter ev nl)));
    cbn [negb andb]; [|reflexivity].
  match goal with |- context [if ?c then ev else _] => destruct c end; reflexivity.
Qed.

(** What the lepton loop changes and what it leaves: only [l_g] of the
    entry being filled is written, with the last index that qualifies
    among those visited. *)
Lemma matchLepton_spec n : forall ig ev,
  let k := counter ev nl in
  let ev' := MiniFromPat.matchLepton n ig ev in
  (forall c, counter ev' c = counter ev c)
  /\ (forall a i, floats ev' a i = floats ev a i)
  /\ (forall a i, (a, i) <> (l_g, k) -> ints ev' a i = ints ev a i)
  /\ ((ints ev' l_g k = ints ev l_g k
       /\ forall j, ig <= j < ig + Z.of_nat n -> leptonQualifies ev k j = false)
      \/ (ig <= ints ev' l_g k < ig + Z.of_nat n
          /\ leptonQualifies ev k (ints ev' l_g k) = true
          /\ forall j, ints ev' l_g k < j < ig + Z.of_nat n ->
                       leptonQualifies ev k j = false)).
Proof.
  induction n as [|n IH]; intros ig ev k ev'.
  - subst ev'. cbn [MiniFromPat.matchLepton]. repeat split. left. split; [reflexivity|].
    intros j Hj. cbn in Hj. lia.
  - subst ev'. rewrite matchLepton_step. fold k.
    set (ev1 := if leptonQualifies ev k ig then set_int ev l_g k ig else ev).
    assert (Hc1 : forall c, counter ev1 c = counter ev c)
      by (intros c; unfold ev1; destruct (leptonQualifies ev k ig); reflexivity).
    assert (Hf1 : forall a i, floats ev1 a i = floats ev a i)
      by (intros a i; unfold ev1; destruct (leptonQualifies ev k ig); reflexivity).
    assert (Hi1 : forall a i, (a, i) <> (l_g, k) -> ints ev1 a i = ints ev a i).
    { intros a i Hne. unfold ev1. destruct (leptonQualifies ev k ig); [|reflexivity].
      cbn [ints set_int].
      destruct (IntArray_beq l_g a && (k =? i)) eqn:E; [|reflexivity].
      apply andb_true_iff in E as [Ea Ei]. apply Z.eqb_eq in Ei.
      destruct a; try discriminate Ea. subst i. contradiction. }
    assert (Hq1 : forall j, leptonQualifies ev1 k j = leptonQualifies ev k j).
    { intros j. unfold leptonQualifies. rewrite !Hf1.
      rewrite (Hi1 gl_pid j), (Hi1 l_pid k) by (intros E; discriminate E). reflexivity. }
    destruct (IH (ig + 1) ev1) as (Hc & Hf & Hi & Hg).
    rewrite (Hc1 nl) in Hi, Hg. fold k in Hi, Hg.
    set (ev2 := MiniFromPat.matchLepton n (ig + 1) ev1) in *.
    split; [intros c; rewrite Hc; apply Hc1|].
    split; [intros a i; rewrite Hf; apply Hf1|].
    split; [intros a i Hne; rewrite Hi by assumption; apply Hi1; assumption|].
    rewrite Nat2Z.inj_succ.
    destruct Hg as [[Hg Hnone]|(Hr & Hq & Hafter)].
    + destruct (leptonQualifies ev k ig) eqn:Hq0.
      * right. rewrite Hg. unfold ev1. try rewrite Hq0.
        cbn [ints set_int IntArray_beq andb].
        rewrite Z.eqb_refl. split; [lia|]. split; [assumption|].
        intros j Hj. rewrite <- Hq1. apply Hnone. lia.
      * left. split.
        -- rewrite Hg. unfold ev1. try rewrite Hq0. reflexivity.
        -- intros j Hj. destruct (Z.eq_dec j ig) as [->|Hne]; [assumption|].
           rewrite <- Hq1. apply Hnone. lia.
    + right. split; [lia|]. split; [rewrite <- Hq1; assumption|].
      intros j Hj. rewrite <- Hq1. apply Hafter. lia.
Qed.

Lemma matchJet_step n ig ev :
  MiniFromPat.matchJet (S n) ig ev =
  if jetQualifies ev (counter ev nj) ig
  then set_int ev j_g (counter ev nj) ig
  else MiniFromPat.matchJet n (ig + 1) ev.
Proof.
  cbn [MiniFromPat.matchJet]. unfold jetQualifies.
  match goal with |- context [if ?c then MiniFromPat.matchJet _ _ _ else _] => destruct c end;
    reflexivity.
Qed.

(** The jet loop writes [j_g] of the entry being filled once, at the
    first index that qualifies. *)
Lemma matchJet_spec n : forall ig ev,
  let k := counter ev nj in
  let ev' := MiniFromPat.matchJet n ig ev in
  (forall c, counter ev' c = counter ev c)
  /\ (forall a i, floats ev' a i = floats ev a i)
  /\ (forall a i, (a, i) <> (j_g, k) -> ints ev' a i = ints ev a i)
  /\ ((ints ev' j_g k = ints ev j_g k
       /\ forall j, ig <= j < ig + Z.of_nat n -> jetQualifies ev k j = false)
      \/ (ig <= ints ev' j_g k < ig + Z.of_nat n
          /\ jetQualifies ev k (ints ev' j_g k) = true
          /\ forall j, ig <= j < ints ev' j_g k -> jetQualifies ev k j = false)).
Proof.
  induction n as [|n IH]; intros ig ev k ev'.
  - subst ev'. cbn [MiniFromPat.matchJet]. repeat split. left. split; [reflexivity|].
    intros j Hj. cbn in Hj. lia.
  - subst ev'. rewrite matchJet_step. fold k. rewrite Nat2Z.inj_succ.
    destruct (jetQualifies ev k ig) eqn:Hq0.
    + repeat split.
      * intros a i Hne. cbn [ints set_int].
        destruct (IntArray_beq j_g a && (k =? i)) eqn:E; [|reflexivity].
        apply andb_true_iff in E as [Ea Ei]. apply Z.eqb_eq in Ei.
        destruct a; try discriminate Ea. subst i. contradiction.
      * right. cbn [ints set_int IntArray_beq andb]. rewrite Z.eqb_refl.
        split; [lia|]. split; [assumption|]. intros j Hj. lia.
    + destruct (IH (ig + 1) ev) as (Hc & Hf & Hi & Hg). fold k in Hi, Hg.
      split; [exact Hc|]. split; [exact Hf|]. split; [exact Hi|].
      destruct Hg as [[Hg Hnone]|(Hr & Hq & Hbefore)].
      * left. split; [assumption|]. intros j Hj.
        destruct (Z.eq_dec j ig) as [->|Hne]; [assumption|]. apply Hnone. lia.
      * right. split; [lia|]. split; [assumption|]. intros j Hj.
        destruct (Z.eq_dec j ig) as [->|Hne]; [assumption|]. apply Hbefore. lia.
Qed.

(** *** Filling one lepton *)

(** Reads of the record after writes. *)
Ltac store :=
  cbn [counter ints floats set_int set_float set_counter incr
       IntArray_beq FloatArray_beq Counter_beq andb].


Lemma fillLepton_nl id pid pt phi eta relIso ev :
  counter (MiniFromPat.fillLepton id pid pt phi eta relIso ev) nl = counter ev nl + 1.
Proof.
  unfold MiniFromPat.fillLepton.
  match goal with |- context [MiniFromPat.matchLepton ?n ?ig ?e] =>
    destruct (matchLepton_spec n ig e) as (Hc & _) end.
  store. rewrite Hc. store. reflexivity.
Qed.




(** *** Filling one jet *)


(** *** Missing energy and particle-flow leptons leave both alone *)




(** *** The primary vertex can be read *)

Lemma int_of_size_t_le i : 0 <= i -> int_of_size_t i <= i.
Proof.
  intros H. unfold int_of_size_t.
  pose proof (Z.mod_le (i + 2 ^ 31) (2 ^ 32)) as Hle.
  assert (0 < 2 ^ 32) by (vm_compute; reflexivity).
  assert (0 < 2 ^ 31) by (vm_compute; reflexivity).
  specialize (Hle ltac:(lia) ltac:(lia)). lia.
Qed.

Lemma int_of_size_t_lt i : int_of_size_t i < 2 ^ 31.
Proof.
  unfold int_of_size_t.
  assert (0 < 2 ^ 32) by (vm_compute; reflexivity).
  pose proof (Z.mod_pos_bound (i + 2 ^ 31) (2 ^ 32) ltac:(lia)).
  change (2 ^ 32) with (2 * 2 ^ 31) in *. lia.
Qed.

Lemma primaryVertex_from_range vertices : forall i prVtx,
  0 <= i ->
  let r := primaryVertex_from i vertices prVtx in
  r = prVtx \/ (0 <= r -> r < i + Z.of_nat (length vertices) /\ r < 2 ^ 31).
Proof.
  induction vertices as [|v rest IH]; intros i prVtx Hi r; [left; reflexivity|].
  subst r. rewrite primaryVertex_from_step. cbn [length]. rewrite Nat2Z.inj_succ.
  destruct (acceptedVertex v).
  - destruct (Z.ltb_spec prVtx 0) as [Hneg|Hpos].
    + destruct (Z.le_gt_cases 0 (int_of_size_t i)) as [Hok|Hwrap].
      * right. intros _. rewrite primaryVertex_from_found by assumption.
        pose proof (int_of_size_t_le i Hi). pose proof (int_of_size_t_lt i). lia.
      * destruct (IH (i + 1) (int_of_size_t i)) as [E|R]; [lia| |].
        -- right. rewrite E. lia.
        -- right. intros H0. specialize (R H0). lia.
    + destruct (IH (i + 1) prVtx) as [E|R]; [lia|left; exact E|].
      right. intros H0. specialize (R H0). lia.
  - destruct (IH (i + 1) prVtx) as [E|R]; [lia|left; exact E|].
    right. intros H0. specialize (R H0). lia.
Qed.

Lemma at_primaryVertex (vertices : list Vertex.t) :
  0 <= primaryVertex vertices ->
  exists v, at_ vertices (size_t_of_int (primaryVertex vertices)) = Some v.
Proof.
  intros H. unfold primaryVertex in *.
  destruct (primaryVertex_from_range vertices 0 (-1)) as [E|R]; [lia|lia|].
  specialize (R H). destruct R as [Hlen H31].
  set (r := primaryVertex_from 0 vertices (-1)) in *.
  unfold at_, size_t_of_int.
  assert (2 ^ 31 < 2 ^ 64) by (vm_compute; reflexivity).
  rewrite Z.mod_small by lia.
  destruct (Z.leb_spec 0 r); [|lia]. destruct (Z.ltb_spec r (Z.of_nat (length vertices))); [|lia].
  cbn [andb].
  destruct (nth_error vertices (Z.to_nat r)) as [v|] eqn:E; [eauto|].
  apply nth_error_None in E. lia.
Qed.

(** *** The loops of the reconstructed level *)





End GeneratorAssociation.

(** ** The tiers of a muon *)

Section MuonTiers.
Context {C : Collaborators}.
Import MiniEvent.

(** The guard [prVtx > -0.5] holds from index 0 on. *)
Lemma double_of_int_guard z : 0 <= z -> (double_of_int z >? -0.5)%cxx = true.
Proof.
  intros H. unfold double_of_int, gtb.
  destruct (Z.ltb_spec z 0); [lia|].
  rewrite ltb_spec. pose proof (of_uint63_signed (Uint63.of_Z z)) as Hs.
  set (half := Prim2SF (-0.5)). vm_compute in half. subst half.
  destruct (Prim2SF (of_uint63 (Uint63.of_Z z))) as [s|s| |s m e]; cbn in Hs;
    try contradiction; subst s; reflexivity.
Qed.

Lemma primaryVertex_from_small vertices : forall i,
  0 <= i -> i + Z.of_nat (length vertices) <= 2 ^ 31 ->
  primaryVertex_from i vertices (-1) = -1 \/ 0 <= primaryVertex_from i vertices (-1).
Proof.
  induction vertices as [|v rest IH]; intros i Hi Hlen; [left; reflexivity|].
  cbn [length] in Hlen. rewrite Nat2Z.inj_succ in Hlen.
  rewrite primaryVertex_from_step. destruct (acceptedVertex v); [|apply IH; lia].
  right. cbn [Z.ltb Z.compare]. rewrite int_of_size_t_small by lia.
  rewrite primaryVertex_from_found; lia.
Qed.

Lemma primaryVertex_small vertices :
  Z.of_nat (length vertices) <= 2 ^ 31 ->
  primaryVertex vertices = -1 \/ 0 <= primaryVertex vertices.
Proof.
  intros H. apply primaryVertex_from_small; lia.
Qed.

(** The decisions of the filter, once the primary vertex has been read. *)
Lemma tiers_inv vertices prVtx muon loose medium tight :
  0 <= prVtx ->
  PatMuonFilter.tiers vertices prVtx muon = Some (loose, medium, tight) ->
  exists priVertex selLoose selTight ipxy ipz validPxlHit highPurity,
    at_ vertices (size_t_of_int prVtx) = Some priVertex
    /\ PatMuonFilter.isME0MuonSelNew muon 0.077
         (PatMuonFilter.dPhiCut_loose (Muon.p muon))
         (PatMuonFilter.dPhiBendCut_loose (Muon.p muon)) = Some selLoose
    /\ PatMuonFilter.isME0MuonSelNew muon 0.048
         (PatMuonFilter.dPhiCut_tight (Muon.p muon))
         (PatMuonFilter.dPhiBendCut_tight (Muon.p muon)) = Some selTight
    /\ PatMuonFilter.trackFlags muon priVertex = Some (ipxy, ipz, validPxlHit, highPurity)
    /\ loose = isLooseMuon muon || (fabs (Muon.eta muon) >? 2.4)%cxx && selLoose
    /\ medium = isMediumMuon muon
                || (fabs (Muon.eta muon) >? 2.4)%cxx
                   && (selLoose && ipxy && validPxlHit && highPurity)
    /\ tight = isTightMuon muon priVertex
               || (fabs (Muon.eta muon) >? 2.4)%cxx
                  && (selTight && ipxy && ipz && validPxlHit && highPurity).
Proof.
  intros Hpv. unfold PatMuonFilter.tiers.
  destruct (at_ vertices (size_t_of_int prVtx)) as [priVertex|]; [|discriminate].
  cbn [bind]. rewrite (double_of_int_guard prVtx Hpv). cbn [andb].
  destruct (PatMuonFilter.isME0MuonSelNew muon 0.077 _ _) as [selLoose|]; [|discriminate].
  cbn [bind].
  destruct (PatMuonFilter.trackFlags muon priVertex) as [[[[ipxy ipz] pxl] hp]|] eqn:Hflags;
    [|discriminate].
  cbn [bind].
  destruct (PatMuonFilter.isME0MuonSelNew muon 0.048 _ _) as [selTight|]; [|discriminate].
  cbn [bind]. intros E. injection E as <- <- <-.
  exists priVertex, selLoose, selTight, ipxy, ipz, pxl, hp. repeat split. exact Hflags.
Qed.

Lemma In_push_if {A} (c : bool) (v : list A) (a x : A) :
  In x (PatMuonFilter.push_if c v a) <-> In x v \/ (c = true /\ x = a).
Proof.
  unfold PatMuonFilter.push_if. destruct c.
  - rewrite in_app_iff. cbn [In]. intuition congruence.
  - intuition congruence.
Qed.

(** What the loop of the filter has put into the three collections. *)
Lemma foldM_muon_step_filter vertices prVtx muons : forall out0 out,
  foldM (PatMuonFilter.muon_step vertices prVtx) muons out0 = Some out ->
  (forall muon, In muon muons -> PatMuonFilter.preselected muon = true ->
     exists t, PatMuonFilter.tiers vertices prVtx muon = Some t)
  /\ forall muon,
     (In muon (PatMuonFilter.LooseMuons out) <->
      In muon (PatMuonFilter.LooseMuons out0)
      \/ (In muon muons /\ PatMuonFilter.preselected muon = true
          /\ exists medium tight,
               PatMuonFilter.tiers vertices prVtx muon = Some (true, medium, tight)))
     /\ (In muon (PatMuonFilter.MediumMuons out) <->
         In muon (PatMuonFilter.MediumMuons out0)
         \/ (In muon muons /\ PatMuonFilter.preselected muon = true
             /\ exists loose tight,
                  PatMuonFilter.tiers vertices prVtx muon = Some (loose, true, tight)))
     /\ (In muon (PatMuonFilter.TightMuons out) <->
         In muon (PatMuonFilter.TightMuons out0)
         \/ (In muon muons /\ PatMuonFilter.preselected muon = true
             /\ exists loose medium,
                  PatMuonFilter.tiers vertices prVtx muon = Some (loose, medium, true))).
Proof.
  induction muons as [|m rest IH]; intros out0 out H.
  - cbn in H. injection H as <-. split; [intros ? []|].
    intros muon. cbn [In]. repeat split; intuition.
  - cbn [foldM] in H.
    destruct (PatMuonFilter.muon_step vertices prVtx out0 m) as [out1|] eqn:E1;
      [|discriminate]. cbn [bind] in H.
    destruct (IH out1 out H) as [IHt IHin]. clear IH H.
    destruct (PatMuonFilter.preselected m) eqn:Hpre.
    + (* the muon is classified *)
      unfold PatMuonFilter.preselected in Hpre.
      apply andb_true_iff in Hpre as [Hpt Heta].
      apply negb_true_iff in Hpt. apply negb_true_iff in Heta.
      unfold PatMuonFilter.muon_step in E1. rewrite Hpt, Heta in E1.
      destruct (PatMuonFilter.tiers vertices prVtx m) as [[[l md] t]|] eqn:Et;
        [|discriminate].
      cbn [bind] in E1. injection E1 as <-.
      assert (Hpre : PatMuonFilter.preselected m = true)
        by (unfold PatMuonFilter.preselected; rewrite Hpt, Heta; reflexivity).
      split.
      * intros muon [<-|Hin] Hp; [eauto|apply IHt; assumption].
      * intros muon. destruct (IHin muon) as (HL & HM & HT).
        cbn [PatMuonFilter.LooseMuons PatMuonFilter.MediumMuons PatMuonFilter.TightMuons]
          in HL, HM, HT.
        rewrite In_push_if in HL, HM, HT. cbn [In].
        split; [|split].
        -- rewrite HL. split.
           ++ intros [[H|[-> ->]]|(Hin & Hp & Hex)]; eauto 8.
           ++ intros [H|([<-|Hin] & Hp & md' & t' & Ht)]; eauto 8.
              left. right. split; congruence.
        -- rewrite HM. split.
           ++ intros [[H|[-> ->]]|(Hin & Hp & Hex)]; eauto 8.
           ++ intros [H|([<-|Hin] & Hp & l' & t' & Ht)]; eauto 8.
              left. right. split; congruence.
        -- rewrite HT. split.
           ++ intros [[H|[-> ->]]|(Hin & Hp & Hex)]; eauto 8.
           ++ intros [H|([<-|Hin] & Hp & l' & md' & Ht)]; eauto 8.
              left. right. split; congruence.
    + (* the muon is skipped *)
      rewrite (muon_step_skips vertices prVtx out0 m Hpre) in E1. injection E1 as <-.
      split.
      * intros muon [<-|Hin] Hp; [congruence|apply IHt; assumption].
      * intros muon. destruct (IHin muon) as (HL & HM & HT). cbn [In].
        split; [|split].
        -- rewrite HL. split.
           ++ intros [H|(Hin & Hp & Hex)]; eauto 8.
           ++ intros [H|([<-|Hin] & Hp & Hex)]; eauto 8. congruence.
        -- rewrite HM. split.
           ++ intros [H|(Hin & Hp & Hex)]; eauto 8.
           ++ intros [H|([<-|Hin] & Hp & Hex)]; eauto 8. congruence.
        -- rewrite HT. split.
           ++ intros [H|(Hin & Hp & Hex)]; eauto 8.
           ++ intros [H|([<-|Hin] & Hp & Hex)]; eauto 8. congruence.
Qed.

Lemma idWord_bits isLoose isMedium isTight :
  Z.testbit (MiniFromPat.idWord isLoose isMedium isTight) 2 = isLoose
  /\ Z.testbit (MiniFromPat.idWord isLoose isMedium isTight) 1 = isMedium
  /\ Z.testbit (MiniFromPat.idWord isLoose isMedium isTight) 0 = isTight.
Proof.
  destruct isLoose, isMedium, isTight; repeat split.
Qed.

Lemma fillLepton_l_id id pid pt phi eta relIso ev :
  ints (MiniFromPat.fillLepton id pid pt phi eta relIso ev) l_id (counter ev nl) = id.
Proof.
  unfold MiniFromPat.fillLepton.
  match goal with |- context [MiniFromPat.matchLepton ?n ?ig ?e] =>
    destruct (matchLepton_spec n ig e) as (_ & _ & Hi & _) end.
  cbn [ints incr set_counter]. rewrite Hi by (intros E; discriminate E).
  cbn [ints set_int set_float IntArray_beq andb]. rewrite Z.eqb_refl. reflexivity.
Qed.

Lemma at_nonempty {A} (v : list A) i a : at_ v i = Some a -> (0 <? Z.of_nat (length v)) = true.
Proof.
  unfold at_. destruct (Z.leb_spec 0 i), (Z.ltb_spec i (Z.of_nat (length v)));
    try discriminate. intros _. apply Z.ltb_lt. lia.
Qed.

(** **** C5, as the code has it.  In the filter, once the primary vertex
    is read, a preselected muon goes to the collection of tier T if and
    only if it passes the standard T or lies beyond |eta| = 2.4 and passes
    the forward T (the loose ME0 selection; for medium, with the track
    requirements; for tight, the tight ME0 selection with the track
    requirements and the one along the beam).  In the ntupler, bit T of the
    identification word of a preselected muon is set if and only if the
    muon lies within |eta| < 2.4 and passes the standard T, or lies beyond
    |eta| = 2.4 and passes the pull and distance selection with the cut on
    the direction of tier T. *)
Theorem muon_tier_assignment :
  (forall (vertices : list Vertex.t) (muons : list Muon.t) (out : PatMuonFilter.Products),
     Z.of_nat (length vertices) <= 2 ^ 31 ->
     PatMuonFilter.produce vertices muons = Some out ->
     forall muon, In muon muons -> PatMuonFilter.preselected muon = true ->
     exists priVertex selLoose selTight ipxy ipz validPxlHit highPurity,
       at_ vertices (size_t_of_int (primaryVertex vertices)) = Some priVertex
       /\ PatMuonFilter.isME0MuonSelNew muon 0.077
            (PatMuonFilter.dPhiCut_loose (Muon.p muon))
            (PatMuonFilter.dPhiBendCut_loose (Muon.p muon)) = Some selLoose
       /\ PatMuonFilter.isME0MuonSelNew muon 0.048
            (PatMuonFilter.dPhiCut_tight (Muon.p muon))
            (PatMuonFilter.dPhiBendCut_tight (Muon.p muon)) = Some selTight
       /\ PatMuonFilter.trackFlags muon priVertex
          = Some (ipxy, ipz, validPxlHit, highPurity)
       /\ (In muon (PatMuonFilter.LooseMuons out) <->
           isLooseMuon muon || (fabs (Muon.eta muon) >? 2.4)%cxx && selLoose = true)
       /\ (In muon (PatMuonFilter.MediumMuons out) <->
           isMediumMuon muon
           || (fabs (Muon.eta muon) >? 2.4)%cxx
              && (selLoose && ipxy && validPxlHit && highPurity) = true)
       /\ (In muon (PatMuonFilter.TightMuons out) <->
           isTightMuon muon priVertex
           || (fabs (Muon.eta muon) >? 2.4)%cxx
              && (selTight && ipxy && ipz && validPxlHit && highPurity) = true))
  /\ (forall (vertices : list Vertex.t) (prVtx : Z) (priVertex : Vertex.t)
             (ev : MiniEvent.t) (muon : Muon.t),
        at_ vertices (size_t_of_int prVtx) = Some priVertex ->
        (Muon.pt muon <? 10)%float = false ->
        (fabs (Muon.eta muon) >? 3)%cxx = false ->
        let central := (fabs (Muon.eta muon) <? 2.4)%float in
        let forward := (fabs (Muon.eta muon) >? 2.4)%cxx in
        let isLoose :=
          central && isLooseMuon muon
          || forward && MiniFromPat.isME0MuonSel muon 3 4 3 4 0.5 in
        let isMedium :=
          central && isMediumMuon muon
          || forward && MiniFromPat.isME0MuonSel muon 3 4 3 4 0.3 in
        let isTight :=
          central && isTightMuon muon priVertex
          || forward && MiniFromPat.isME0MuonSel muon 3 4 3 4 0.1 in
        exists ev',
          MiniFromPat.muon_step vertices prVtx ev muon = Some ev'
          /\ Z.testbit (ints ev' l_id (counter ev nl)) 2 = isLoose
          /\ Z.testbit (ints ev' l_id (counter ev nl)) 1 = isMedium
          /\ Z.testbit (ints ev' l_id (counter ev nl)) 0 = isTight).
Proof.
  split.
  - intros vertices muons out Hlen Hprod muon Hin Hpre.
    unfold PatMuonFilter.produce in Hprod.
    destruct (foldM_muon_step_filter _ _ _ _ _ Hprod) as [Ht Hmem].
    destruct (Ht muon Hin Hpre) as [[[l md] t] Htiers].
    assert (Hpv : 0 <= primaryVertex vertices).
    { destruct (primaryVertex_small vertices Hlen) as [E|H]; [|exact H].
      exfalso. rewrite E in Htiers. unfold PatMuonFilter.tiers in Htiers.
      rewrite (at_no_vertex vertices Hlen) in Htiers. discriminate Htiers. }
    destruct (tiers_inv _ _ _ _ _ _ Hpv Htiers)
      as (priVertex & selL & selT & ipxy & ipz & pxl & hp
          & Hat & HselL & HselT & Hflags & El & Em & Et).
    exists priVertex, selL, selT, ipxy, ipz, pxl, hp.
    split; [exact Hat|]. split; [exact HselL|]. split; [exact HselT|].
    split; [exact Hflags|].
    destruct (Hmem muon) as (HL & HM & HT).
    cbn [PatMuonFilter.Products_empty PatMuonFilter.LooseMuons PatMuonFilter.MediumMuons
         PatMuonFilter.TightMuons In] in HL, HM, HT.
    rewrite <- El, <- Em, <- Et. split; [|split].
    + rewrite HL. split.
      * intros [[]|(_ & _ & md' & t' & E)]. congruence.
      * intros ->. right. eauto.
    + rewrite HM. split.
      * intros [[]|(_ & _ & l' & t' & E)]. congruence.
      * intros ->. right. eauto.
    + rewrite HT. split.
      * intros [[]|(_ & _ & l' & md' & E)]. congruence.
      * intros ->. right. eauto.
  - intros vertices prVtx priVertex ev muon Hat Hpt Heta central forward
           isLoose isMedium isTight.
    unfold MiniFromPat.muon_step, MiniFromPat.muonTiers.
    rewrite Hpt, Heta, Hat, (at_nonempty _ _ _ Hat). fold central. fold forward.
    rewrite andb_true_r.
    assert (E : (if central then Some (isTightMuon muon priVertex) else Some false)
                = Some (central && isTightMuon muon priVertex))
      by (destruct central; reflexivity).
    destruct central eqn:Hc; cbn [bind andb] in *;
      (eexists; split; [reflexivity|]);
      rewrite fillLepton_l_id; apply idWord_bits.
Qed.

End MuonTiers.

(** The theorem at an event with one good vertex and one central muon of
    5 GeV, which every standard predicate of the sample accepts: the muon
    is in the three collections of the filter. *)
Lemma muon_tier_assignment_witness :
  exists out,
    PatMuonFilter.produce (C := Sample.collaborators) [Sample.vertex false 10]
      [Sample.muon 5 0] = Some out
    /\ In (Sample.muon 5 0) (PatMuonFilter.LooseMuons out)
    /\ In (Sample.muon 5 0) (PatMuonFilter.MediumMuons out)
    /\ In (Sample.muon 5 0) (PatMuonFilter.TightMuons out).
Proof.
  eexists. split; [vm_compute; reflexivity|].
  destruct (proj1 (muon_tier_assignment (C := Sample.collaborators))
              [Sample.vertex false 10] [Sample.muon 5 0] _
              ltac:(vm_compute; discriminate) eq_refl (Sample.muon 5 0)
              (or_introl eq_refl) eq_refl)
    as (priVertex & selL & selT & ipxy & ipz & pxl & hp & _ & _ & _ & _ & HL & HM & HT).
  split; [apply HL; reflexivity|]. split; [apply HM; reflexivity|apply HT; reflexivity].
Defined.

(** **** C5, as the specification states it, fails in the ntupler: a muon
    of 20 GeV at eta 2.5 passes the preselection and the standard loose,
    medium and tight predicates, and its identification word is 0, because
    the standard predicates are consulted below |eta| = 2.4 only. *)
Lemma forward_muon_misses_standard_tiers :
  let muon := Sample.muon 20 2.5 in
  let vertex := Sample.vertex false 10 in
  let iEvent := Sample.event [vertex] [muon] [] [] [] in
  ((Muon.pt muon <? 10)%float = false /\ (fabs (Muon.eta muon) >? 3)%cxx = false)
  /\ (isLooseMuon (Collaborators := Sample.collaborators) muon = true
      /\ isMediumMuon (Collaborators := Sample.collaborators) muon = true
      /\ isTightMuon (Collaborators := Sample.collaborators) muon vertex = true)
  /\ MiniFromPat.muonTiers (C := Sample.collaborators) [vertex] 0 muon
     = Some (false, false, false)
  /\ option_map
       (fun ev' => (MiniEvent.counter ev' MiniEvent.nl, MiniEvent.ints ev' MiniEvent.l_id 0))
       (MiniFromPat.recoAnalysis iEvent Sample.ev0)
     = Some (1, 0).
Proof.
  repeat split; vm_compute; reflexivity.
Qed.

(** ** The momentum-dependent ME0 cuts *)

(** The clamp [std::min(std::max(q, lo), c)] is monotone in [q] and stays
    between its bounds. *)
Lemma clamp_monotone_bounded (q1 q2 lo c : double) :
  is_nan q1 = false -> is_nan q2 = false -> is_nan lo = false -> is_nan c = false ->
  ord lo <= ord c -> ord q2 <= ord q1 ->
  (std_min (std_max q2 lo) c <=? std_min (std_max q1 lo) c)%float = true
  /\ (lo <=? std_min (std_max q1 lo) c)%float = true
  /\ (std_min (std_max q1 lo) c <=? c)%float = true.
Proof.
  intros N1 N2 Nl Nc Hlc Hq. unfold std_min, std_max.
  rewrite !ltb_ord, ?N1, ?N2, ?Nl, ?Nc. cbn [negb andb].
  destruct (Z.ltb_spec (ord q1) (ord lo)), (Z.ltb_spec (ord q2) (ord lo));
    rewrite ?ltb_ord, ?N1, ?N2, ?Nl, ?Nc; cbn [negb andb];
    repeat match goal with
    | |- context [Z.ltb ?a ?b] => destruct (Z.ltb_spec a b)
    end;
    rewrite ?leb_ord, ?N1, ?N2, ?Nl, ?Nc; cbn [negb andb];
    repeat split; apply Z.leb_le; lia.
Qed.

Lemma clampShape_intro (k ceiling : double) mk ek p1 p2 :
  Prim2SF k = S754_finite false mk ek ->
  is_nan (k / 100) = false -> is_nan ceiling = false ->
  ord (k / 100) <= ord ceiling ->
  (0 <? p1)%float = true -> (p1 <=? p2)%float = true ->
  clampShape k ceiling (fun p => std_min (std_max (k / p) (k / 100)) ceiling) p1 p2.
Proof.
  intros Hk Nl Nc Hlc H1 H2.
  destruct (div_antitone k p1 p2 mk ek Hk H1 H2) as (N1 & N2 & Hq).
  split; [reflexivity|].
  apply clamp_monotone_bounded; assumption.
Qed.

(** **** C7: for two momenta [0 < p1 <= p2], each of the four ME0 cuts of
    the muon filter is the clamp of [k / p] between [k / 100] and the
    ceiling of its tier, is not larger at [p2] than at [p1], and lies
    between [k / 100] and the ceiling; the loose deltaPhi cut is 0.056 at
    momentum 10 and 0.012 at momentum 1000, and 0.012 is the double
    [1.2 / 100]. *)
Theorem me0_cut_clamp (p1 p2 : double) :
  (0 <? p1)%float = true -> (p1 <=? p2)%float = true ->
  clampShape 1.2 0.056 PatMuonFilter.dPhiCut_loose p1 p2
  /\ clampShape 0.2 0.0096 PatMuonFilter.dPhiBendCut_loose p1 p2
  /\ clampShape 1.2 0.032 PatMuonFilter.dPhiCut_tight p1 p2
  /\ clampShape 0.2 0.0041 PatMuonFilter.dPhiBendCut_tight p1 p2
  /\ PatMuonFilter.dPhiCut_loose 10 = 0.056%float
  /\ PatMuonFilter.dPhiCut_loose 1000 = 0.012%float
  /\ (1.2 / 100 = 0.012)%float.
Proof.
  intros H1 H2.
  assert (Hshape : forall k ceiling mk ek,
            Prim2SF k = S754_finite false mk ek ->
            is_nan (k / 100) = false -> is_nan ceiling = false ->
            (ord (k / 100) <=? ord ceiling) = true ->
            clampShape k ceiling (fun p => std_min (std_max (k / p) (k / 100)) ceiling) p1 p2).
  { intros k ceiling mk ek Hk Nl Nc Hlc. apply Z.leb_le in Hlc.
    exact (clampShape_intro k ceiling mk ek p1 p2 Hk Nl Nc Hlc H1 H2). }
  split; [exact (Hshape 1.2 0.056 _ _ eq_refl eq_refl eq_refl eq_refl)%float|].
  split; [exact (Hshape 0.2 0.0096 _ _ eq_refl eq_refl eq_refl eq_refl)%float|].
  split; [exact (Hshape 1.2 0.032 _ _ eq_refl eq_refl eq_refl eq_refl)%float|].
  split; [exact (Hshape 0.2 0.0041 _ _ eq_refl eq_refl eq_refl eq_refl)%float|].
  split; [vm_compute; reflexivity|]. split; vm_compute; reflexivity.
Qed.

(** The statement at the momenta 10 and 1000. *)
Lemma me0_cut_clamp_witness :
  clampShape 1.2 0.056 PatMuonFilter.dPhiCut_loose 10 1000
  /\ clampShape 0.2 0.0096 PatMuonFilter.dPhiBendCut_loose 10 1000
  /\ clampShape 1.2 0.032 PatMuonFilter.dPhiCut_tight 10 1000
  /\ clampShape 0.2 0.0041 PatMuonFilter.dPhiBendCut_tight 10 1000
  /\ PatMuonFilter.dPhiCut_loose 10 = 0.056%float
  /\ PatMuonFilter.dPhiCut_loose 1000 = 0.012%float
  /\ (1.2 / 100 = 0.012)%float.
Proof.
  apply (me0_cut_clamp 10 1000); vm_compute; reflexivity.
Defined.

(** * Further properties of the two plugins *)

(** ** Records that agree outside some arrays *)

Section Frames.
Import MiniEvent.

Lemma agreeOutside_refl cs ia fa ev : agreeOutside cs ia fa ev ev.
Proof. repeat split. Qed.

Lemma agreeOutside_trans cs ia fa ev1 ev2 ev3 :
  agreeOutside cs ia fa ev1 ev2 -> agreeOutside cs ia fa ev2 ev3 ->
  agreeOutside cs ia fa ev1 ev3.
Proof.
  intros (Hc & Hi & Hf) (Hc' & Hi' & Hf').
  split; [|split]; intros; [rewrite Hc'|rewrite Hi'|rewrite Hf']; auto.
Qed.

Lemma agreeOutside_weaken cs ia fa cs' ia' fa' ev ev' :
  (forall c, existsb (Counter_beq c) cs' = false -> existsb (Counter_beq c) cs = false) ->
  (forall a, existsb (IntArray_beq a) ia' = false -> existsb (IntArray_beq a) ia = false) ->
  (forall a, existsb (FloatArray_beq a) fa' = false ->
             existsb (FloatArray_beq a) fa = false) ->
  agreeOutside cs ia fa ev ev' -> agreeOutside cs' ia' fa' ev ev'.
Proof.
  intros Sc Si Sf (Hc & Hi & Hf). split; [|split]; intros; auto.
Qed.

Lemma agreeOutside_fold {A} cs ia fa (step : MiniEvent.t -> A -> MiniEvent.t) :
  (forall ev a, agreeOutside cs ia fa ev (step ev a)) ->
  forall l ev, agreeOutside cs ia fa ev (fold_left step l ev).
Proof.
  intros H l. induction l as [|a rest IH]; intros ev; [apply agreeOutside_refl|].
  cbn [fold_left]. eapply agreeOutside_trans; [apply H|apply IH].
Qed.

End Frames.

(** A step that writes nothing outside the lists: by cases on the array
    that is read. *)
Ltac outside :=
  split; [|split];
  [ intros c Hout; destruct c; try discriminate Hout
  | intros a i Hout; destruct a; try discriminate Hout
  | intros a i Hout; destruct a; try discriminate Hout ].

Ltac inclusion :=
  let x := fresh in let H := fresh in
  intros x H; destruct x; try discriminate H; reflexivity.

(** ** Loops that append entries to the record *)

Section Appending.
Variables (S A R : Type).
Variable cnt : S -> Z.
Variable row : S -> Z -> R.
Variable sel : A -> bool.
Variable rowOf : A -> R.
Variable step : S -> A -> S.

Hypothesis step_skip : forall s a, sel a = false -> step s a = s.
Hypothesis step_fill : forall s a, sel a = true ->
  cnt (step s a) = cnt s + 1
  /\ row (step s a) (cnt s) = rowOf a
  /\ forall k, k <> cnt s -> row (step s a) k = row s k.

(** The loop appends the entries of the selected elements, in order, from
    the value of the counter on, and keeps every other entry. *)
Lemma fold_appends l : forall s,
  cnt (fold_left step l s) = cnt s + Z.of_nat (length (filter sel l))
  /\ (forall i a, nth_error (filter sel l) i = Some a ->
        row (fold_left step l s) (cnt s + Z.of_nat i) = rowOf a)
  /\ (forall k, k < cnt s -> row (fold_left step l s) k = row s k).
Proof.
  induction l as [|a rest IH]; intros s.
  - cbn [fold_left filter length]. split; [cbn; lia|]. split; [|reflexivity].
    intros [|i] b H; discriminate H.
  - cbn [fold_left filter]. destruct (sel a) eqn:Ea.
    + destruct (step_fill s a Ea) as (Hc & Hr & Hk).
      destruct (IH (step s a)) as (IHc & IHr & IHk).
      rewrite Hc in IHc, IHr, IHk.
      split; [cbn [length]; rewrite IHc; lia|]. split.
      * intros [|i] b H; cbn [nth_error] in H.
        -- injection H as <-. rewrite Z.add_0_r, IHk by lia. exact Hr.
        -- replace (cnt s + Z.of_nat (Datatypes.S i)) with (cnt s + 1 + Z.of_nat i) by lia.
           apply IHr. exact H.
      * intros k Hlt. rewrite IHk by lia. apply Hk. lia.
    + rewrite (step_skip s a Ea). apply IH.
Qed.

End Appending.

(** ** The generator level *)

Section GeneratorLevel.
Context {C : Collaborators}.
Import MiniEvent.

Ltac store :=
  cbn [counter ints floats set_int set_float set_counter incr fst snd
       IntArray_beq FloatArray_beq Counter_beq andb].

(** The jets that the first loop hands to the isolation of the second. *)
Lemma fold_genJet_step_jets genParts l : forall ev jGenJets,
  snd (fold_left (MiniFromPat.genJet_step genParts) l (ev, jGenJets))
  = jGenJets ++ filter (selectedGenJet genParts) l.
Proof.
  induction l as [|jet rest IH]; intros ev jGenJets.
  - cbn. rewrite app_nil_r. reflexivity.
  - cbn [fold_left filter]. unfold MiniFromPat.genJet_step at 2, selectedGenJet.
    destruct (GenJet.pt jet <? 20)%float; [apply IH|].
    destruct (fabs (GenJet.eta jet) >? 5)%cxx; [apply IH|].
    destruct (MiniFromPat.genOverlaps jet genParts); [apply IH|].
    cbn [negb andb]. rewrite IH, <- app_assoc. reflexivity.
Qed.

Lemma genJet_step_skip genParts s jet :
  selectedGenJet genParts jet = false -> MiniFromPat.genJet_step genParts s jet = s.
Proof.
  unfold selectedGenJet, MiniFromPat.genJet_step. destruct s as [ev jGenJets].
  destruct (GenJet.pt jet <? 20)%float; [reflexivity|].
  destruct (fabs (GenJet.eta jet) >? 5)%cxx; [reflexivity|].
  destruct (MiniFromPat.genOverlaps jet genParts); [reflexivity|discriminate].
Qed.

Lemma genJet_step_fill genParts s jet :
  selectedGenJet genParts jet = true ->
  counter (fst (MiniFromPat.genJet_step genParts s jet)) ngj = counter (fst s) ngj + 1
  /\ gjRow (MiniFromPat.genJet_step genParts s jet) (counter (fst s) ngj) = gjRowOf jet
  /\ forall k, k <> counter (fst s) ngj ->
       gjRow (MiniFromPat.genJet_step genParts s jet) k = gjRow s k.
Proof.
  unfold selectedGenJet, MiniFromPat.genJet_step. destruct s as [ev jGenJets].
  destruct (GenJet.pt jet <? 20)%float; [discriminate|].
  destruct (fabs (GenJet.eta jet) >? 5)%cxx; [discriminate|].
  destruct (MiniFromPat.genOverlaps jet genParts); [discriminate|]. intros _.
  unfold gjRow, gjRowOf. store. rewrite Z.eqb_refl.
  split; [reflexivity|]. split; [reflexivity|].
  intros k Hk. destruct (Z.eqb_spec (counter ev ngj) k); [congruence|reflexivity].
Qed.

Lemma genJet_step_outside genParts s jet :
  agreeOutside [ngj] [gj_pid] [gj_pt; gj_phi; gj_eta; gj_mass]
    (fst s) (fst (MiniFromPat.genJet_step genParts s jet)).
Proof.
  unfold MiniFromPat.genJet_step. destruct s as [ev jGenJets].
  destruct (GenJet.pt jet <? 20)%float; [apply agreeOutside_refl|].
  destruct (fabs (GenJet.eta jet) >? 5)%cxx; [apply agreeOutside_refl|].
  destruct (MiniFromPat.genOverlaps jet genParts); [apply agreeOutside_refl|].
  outside; reflexivity.
Qed.

Lemma fold_genJet_step_outside genParts l : forall s,
  agreeOutside [ngj] [gj_pid] [gj_pt; gj_phi; gj_eta; gj_mass]
    (fst s) (fst (fold_left (MiniFromPat.genJet_step genParts) l s)).
Proof.
  induction l as [|jet rest IH]; intros s; [apply agreeOutside_refl|].
  cbn [fold_left]. eapply agreeOutside_trans; [apply genJet_step_outside|apply IH].
Qed.

Lemma genLepton_step_skip jGenJets ev part :
  selectedLepton part = false -> MiniFromPat.genLepton_step jGenJets ev part = ev.
Proof.
  unfold selectedLepton, MiniFromPat.genLepton_step.
  destruct (MiniFromPat.notLepton (Candidate.pdgId part)); [reflexivity|].
  destruct (Candidate.pt part <? 10)%float; [reflexivity|].
  destruct (fabs (Candidate.eta part) >? 3)%cxx; [reflexivity|discriminate].
Qed.

Lemma genLepton_step_fill jGenJets ev part :
  selectedLepton part = true ->
  counter (MiniFromPat.genLepton_step jGenJets ev part) ngl = counter ev ngl + 1
  /\ glRow (MiniFromPat.genLepton_step jGenJets ev part) (counter ev ngl)
     = glRowOf jGenJets part
  /\ forall k, k <> counter ev ngl ->
       glRow (MiniFromPat.genLepton_step jGenJets ev part) k = glRow ev k.
Proof.
  unfold selectedLepton, MiniFromPat.genLepton_step.
  destruct (MiniFromPat.notLepton (Candidate.pdgId part)); [discriminate|].
  destruct (Candidate.pt part <? 10)%float; [discriminate|].
  destruct (fabs (Candidate.eta part) >? 3)%cxx; [discriminate|]. intros _.
  unfold glRow, glRowOf. store. rewrite Z.eqb_refl.
  split; [reflexivity|]. split; [reflexivity|].
  intros k Hk. destruct (Z.eqb_spec (counter ev ngl) k); [congruence|reflexivity].
Qed.

Lemma genLepton_step_outside jGenJets ev part :
  agreeOutside [ngl] [gl_pid] [gl_pt; gl_phi; gl_eta; gl_mass; gl_relIso]
    ev (MiniFromPat.genLepton_step jGenJets ev part).
Proof.
  unfold MiniFromPat.genLepton_step.
  destruct (MiniFromPat.notLepton (Candidate.pdgId part)); [apply agreeOutside_refl|].
  destruct (Candidate.pt part <? 10)%float; [apply agreeOutside_refl|].
  destruct (fabs (Candidate.eta part) >? 3)%cxx; [apply agreeOutside_refl|].
  outside; reflexivity.
Qed.

(** [genAnalysis], stage by stage. *)
Lemma genAnalysis_stages (iEvent : Event.t) ev :
  let jets := filter (selectedGenJet (Event.genParts iEvent)) (Event.genJets iEvent) in
  let s1 := fold_left (MiniFromPat.genJet_step (Event.genParts iEvent))
              (Event.genJets iEvent) (set_counter ev ngj 0, []) in
  MiniFromPat.genAnalysis iEvent ev
  = fold_left (MiniFromPat.genLepton_step jets) (Event.genParts iEvent)
      (set_counter (fst s1) ngl 0).
Proof.
  intros jets s1. unfold MiniFromPat.genAnalysis.
  pose proof (fold_genJet_step_jets (Event.genParts iEvent) (Event.genJets iEvent)
                (set_counter ev ngj 0) []) as Hj.
  fold s1 in Hj. cbn [app] in Hj. fold jets in Hj.
  change (fold_left (MiniFromPat.genJet_step (Event.genParts iEvent))
            (Event.genJets iEvent) (set_counter ev ngj 0, [])) with s1.
  destruct s1 as [ev1 jGenJets]. cbn [snd fst] in *. subst jGenJets. reflexivity.
Qed.

(** **** X1: [genAnalysis] stores the generator jets that pass the
    selection (pt not below 20, |eta| not above 5, no overlap with a
    generator lepton), in the order of the collection, in the entries
    0 .. ngj-1 of the [gj_] arrays. *)
Theorem genAnalysis_stores_jets (iEvent : Event.t) (ev : MiniEvent.t) :
  let ev' := MiniFromPat.genAnalysis iEvent ev in
  let jets := filter (selectedGenJet (Event.genParts iEvent)) (Event.genJets iEvent) in
  counter ev' ngj = Z.of_nat (length jets)
  /\ forall i jet, nth_error jets i = Some jet ->
       ints ev' gj_pid (Z.of_nat i) = GenJet.pdgId jet
       /\ floats ev' gj_pt (Z.of_nat i) = GenJet.pt jet
       /\ floats ev' gj_phi (Z.of_nat i) = GenJet.phi jet
       /\ floats ev' gj_eta (Z.of_nat i) = GenJet.eta jet
       /\ floats ev' gj_mass (Z.of_nat i) = GenJet.mass jet.
Proof.
  intros ev' jets. subst ev'. rewrite genAnalysis_stages. fold jets.
  set (s1 := fold_left _ (Event.genJets iEvent) (set_counter ev ngj 0, [])).
  destruct (fold_appends _ _ _ (fun s => counter (fst s) ngj) gjRow
              (selectedGenJet (Event.genParts iEvent)) gjRowOf
              (MiniFromPat.genJet_step (Event.genParts iEvent))
              (genJet_step_skip _) (genJet_step_fill _)
              (Event.genJets iEvent) (set_counter ev ngj 0, []))
    as (Hc & Hr & _).
  fold s1 in Hc, Hr. fold jets in Hc, Hr. cbn [counter set_counter fst Counter_beq] in Hc, Hr.
  destruct (agreeOutside_fold [ngl] [gl_pid] [gl_pt; gl_phi; gl_eta; gl_mass; gl_relIso]
              (MiniFromPat.genLepton_step jets) (genLepton_step_outside jets)
              (Event.genParts iEvent) (set_counter (fst s1) ngl 0))
    as (Fc & Fi & Ff).
  set (ev2 := fold_left _ (Event.genParts iEvent) _) in *.
  split.
  - rewrite Fc by reflexivity. store. exact Hc.
  - intros i jet Hi. specialize (Hr i jet Hi). unfold gjRow, gjRowOf in Hr.
    rewrite Z.add_0_l in Hr. injection Hr as H1 H2 H3 H4 H5.
    rewrite Fi, !Ff by reflexivity. store. auto.
Qed.

(** **** X2: [genAnalysis] stores the generator electrons and muons with
    pt not below 10 and |eta| not above 3, in the order of the collection,
    in the entries 0 .. ngl-1 of the [gl_] arrays; the isolation of each is
    the one computed over the generator jets that were stored. *)
Theorem genAnalysis_stores_leptons (iEvent : Event.t) (ev : MiniEvent.t) :
  let ev' := MiniFromPat.genAnalysis iEvent ev in
  let jets := filter (selectedGenJet (Event.genParts iEvent)) (Event.genJets iEvent) in
  let leptons := filter selectedLepton (Event.genParts iEvent) in
  counter ev' ngl = Z.of_nat (length leptons)
  /\ forall i part, nth_error leptons i = Some part ->
       ints ev' gl_pid (Z.of_nat i) = Candidate.pdgId part
       /\ floats ev' gl_pt (Z.of_nat i) = Candidate.pt part
       /\ floats ev' gl_phi (Z.of_nat i) = Candidate.phi part
       /\ floats ev' gl_eta (Z.of_nat i) = Candidate.eta part
       /\ floats ev' gl_mass (Z.of_nat i) = Candidate.mass part
       /\ floats ev' gl_relIso (Z.of_nat i) = MiniFromPat.genIso part jets.
Proof.
  intros ev' jets leptons. subst ev'. rewrite genAnalysis_stages. fold jets.
  set (s1 := fold_left _ (Event.genJets iEvent) (set_counter ev ngj 0, [])).
  destruct (fold_appends _ _ _ (fun ev => counter ev ngl) glRow
              selectedLepton (glRowOf jets) (MiniFromPat.genLepton_step jets)
              (genLepton_step_skip jets) (genLepton_step_fill jets)
              (Event.genParts iEvent) (set_counter (fst s1) ngl 0))
    as (Hc & Hr & _).
  fold leptons in Hc, Hr. cbn [counter set_counter Counter_beq] in Hc, Hr.
  split; [exact Hc|].
  intros i part Hi. specialize (Hr i part Hi). unfold glRow, glRowOf in Hr.
  rewrite Z.add_0_l in Hr. injection Hr as H1 H2 H3 H4 H5 H6. auto 10.
Qed.

(** What the two loops of [genAnalysis] write. *)
Lemma genAnalysis_stage_frames (iEvent : Event.t) (ev : MiniEvent.t) :
  exists ev1,
    agreeOutside [ngj] [gj_pid] [gj_pt; gj_phi; gj_eta; gj_mass] ev ev1
    /\ agreeOutside [ngl] [gl_pid] [gl_pt; gl_phi; gl_eta; gl_mass; gl_relIso]
         ev1 (MiniFromPat.genAnalysis iEvent ev).
Proof.
  rewrite genAnalysis_stages.
  set (jets := filter _ (Event.genJets iEvent)).
  set (s1 := fold_left _ (Event.genJets iEvent) (set_counter ev ngj 0, [])).
  exists (fst s1). split.
  - apply (agreeOutside_trans _ _ _ _ (set_counter ev ngj 0)); [outside; reflexivity|].
    apply (fold_genJet_step_outside _ _ (set_counter ev ngj 0, [])).
  - apply (agreeOutside_trans _ _ _ _ (set_counter (fst s1) ngl 0));
      [outside; reflexivity|].
    apply agreeOutside_fold. apply genLepton_step_outside.
Qed.

(** **** X3: [genAnalysis] writes the generator-level counters and arrays
    and nothing else of the record. *)
Theorem genAnalysis_writes_generator_level_only (iEvent : Event.t) (ev : MiniEvent.t) :
  agreeOutside generatorCounters generatorInts generatorFloats
    ev (MiniFromPat.genAnalysis iEvent ev).
Proof.
  destruct (genAnalysis_stage_frames iEvent ev) as (ev1 & Hj & Hl).
  apply (agreeOutside_trans _ _ _ _ ev1).
  - eapply agreeOutside_weaken; [| | |exact Hj]; inclusion.
  - eapply agreeOutside_weaken; [| | |exact Hl]; inclusion.
Qed.

End GeneratorLevel.

(** ** The reconstructed level *)

Section ReconstructedLevel.
Context {C : Collaborators}.
Import MiniEvent.

Ltac store :=
  cbn [counter ints floats set_int set_float set_counter incr fst snd
       IntArray_beq FloatArray_beq Counter_beq andb].

(** A loop whose body always returns is a plain fold. *)
Lemma foldM_fold_left {A S} (body : S -> A -> option S) (f : S -> A -> S) :
  (forall s a, body s a = Some (f s a)) ->
  forall l s, foldM body l s = Some (fold_left f l s).
Proof.
  intros H l. induction l as [|a rest IH]; intros s; [reflexivity|].
  cbn [foldM fold_left]. rewrite H. cbn [bind]. apply IH.
Qed.

Lemma fillLepton_row id pid pt phi eta relIso ev :
  lRow (MiniFromPat.fillLepton id pid pt phi eta relIso ev) (counter ev nl)
  = (id, pid, pt, phi, eta, relIso)
  /\ forall k, k <> counter ev nl ->
       lRow (MiniFromPat.fillLepton id pid pt phi eta relIso ev) k = lRow ev k.
Proof.
  unfold MiniFromPat.fillLepton, lRow.
  match goal with |- context [MiniFromPat.matchLepton ?n ?ig ?e] =>
    destruct (matchLepton_spec n ig e) as (_ & Hf & Hi & _);
    set (ev_b := MiniFromPat.matchLepton n ig e) in *
  end.
  cbn [counter set_int set_float] in Hi.
  split.
  - store. rewrite !Hf, !Hi by (intros E; discriminate E). store.
    rewrite Z.eqb_refl. reflexivity.
  - intros k Hk. store. rewrite !Hf, !Hi by (intros E; discriminate E). store.
    destruct (Z.eqb_spec (counter ev nl) k); [congruence|reflexivity].
Qed.

Lemma fillLepton_outside id pid pt phi eta relIso ev :
  agreeOutside [nl] [l_id; l_pid; l_g] [l_pt; l_phi; l_eta; l_relIso]
    ev (MiniFromPat.fillLepton id pid pt phi eta relIso ev).
Proof.
  unfold MiniFromPat.fillLepton.
  match goal with |- context [MiniFromPat.matchLepton ?n ?ig ?e] =>
    destruct (matchLepton_spec n ig e) as (Hc & Hf & Hi & _);
    set (ev_b := MiniFromPat.matchLepton n ig e) in *
  end.
  cbn [counter set_int set_float] in Hi.
  outside; store; rewrite ?Hc, ?Hf, ?Hi by (intros E; discriminate E); reflexivity.
Qed.

(** *** Muons *)

Lemma muonTiers_returns vertices prVtx muon :
  (exists v, at_ vertices (size_t_of_int prVtx) = Some v) ->
  exists t, MiniFromPat.muonTiers vertices prVtx muon = Some t.
Proof.
  intros [v Hv]. unfold MiniFromPat.muonTiers. rewrite Hv.
  match goal with |- context [if ?c then _ else Some false] => destruct c end;
    cbn [bind]; eexists; reflexivity.
Qed.

Lemma muon_step_fill vertices prVtx :
  (exists v, at_ vertices (size_t_of_int prVtx) = Some v) ->
  forall ev muon,
    MiniFromPat.muon_step vertices prVtx ev muon = Some (muon_fill vertices prVtx ev muon).
Proof.
  intros Hv ev muon. unfold MiniFromPat.muon_step, muon_fill, selectedMuon.
  destruct (Muon.pt muon <? 10)%float; [reflexivity|].
  destruct (fabs (Muon.eta muon) >? 3)%cxx; [reflexivity|]. cbn [negb andb].
  unfold muonWord. destruct (muonTiers_returns vertices prVtx muon Hv) as [[[l m] t] Ht].
  rewrite Ht. reflexivity.
Qed.

Lemma muon_fill_skip vertices prVtx ev muon :
  selectedMuon muon = false -> muon_fill vertices prVtx ev muon = ev.
Proof. unfold muon_fill. intros ->. reflexivity. Qed.

Lemma muon_fill_fill vertices prVtx ev muon :
  selectedMuon muon = true ->
  counter (muon_fill vertices prVtx ev muon) nl = counter ev nl + 1
  /\ lRow (muon_fill vertices prVtx ev muon) (counter ev nl) = muonRowOf vertices prVtx muon
  /\ forall k, k <> counter ev nl -> lRow (muon_fill vertices prVtx ev muon) k = lRow ev k.
Proof.
  unfold muon_fill. intros ->. split; [apply fillLepton_nl|]. apply fillLepton_row.
Qed.

Lemma muon_fill_outside vertices prVtx ev muon :
  agreeOutside [nl] [l_id; l_pid; l_g] [l_pt; l_phi; l_eta; l_relIso]
    ev (muon_fill vertices prVtx ev muon).
Proof.
  unfold muon_fill. destruct (selectedMuon muon);
    [apply fillLepton_outside|apply agreeOutside_refl].
Qed.

(** *** Electrons *)

Lemma elec_step_skip conversions bs ev elec :
  selectedElectron elec = false -> MiniFromPat.elec_step conversions bs ev elec = ev.
Proof.
  unfold selectedElectron, MiniFromPat.elec_step.
  destruct (Electron.pt elec <? 10)%float; [reflexivity|].
  destruct (fabs (Electron.eta elec) >? 3)%cxx; [reflexivity|discriminate].
Qed.

Lemma elec_step_fill conversions bs ev elec :
  selectedElectron elec = true ->
  counter (MiniFromPat.elec_step conversions bs ev elec) nl = counter ev nl + 1
  /\ lRow (MiniFromPat.elec_step conversions bs ev elec) (counter ev nl)
     = elecRowOf conversions bs elec
  /\ forall k, k <> counter ev nl ->
       lRow (MiniFromPat.elec_step conversions bs ev elec) k = lRow ev k.
Proof.
  unfold selectedElectron, MiniFromPat.elec_step.
  destruct (Electron.pt elec <? 10)%float; [discriminate|].
  destruct (fabs (Electron.eta elec) >? 3)%cxx; [discriminate|]. intros _.
  split; [apply fillLepton_nl|]. apply fillLepton_row.
Qed.

Lemma elec_step_outside conversions bs ev elec :
  agreeOutside [nl] [l_id; l_pid; l_g] [l_pt; l_phi; l_eta; l_relIso]
    ev (MiniFromPat.elec_step conversions bs ev elec).
Proof.
  unfold MiniFromPat.elec_step.
  destruct (Electron.pt elec <? 10)%float; [apply agreeOutside_refl|].
  destruct (fabs (Electron.eta elec) >? 3)%cxx; [apply agreeOutside_refl|].
  apply fillLepton_outside.
Qed.

(** *** Jets *)

Lemma jet_step_skip elecs muons ev jet :
  selectedJet elecs muons jet = false -> MiniFromPat.jet_step elecs muons ev jet = ev.
Proof.
  unfold selectedJet, MiniFromPat.jet_step.
  destruct (Jet.pt jet <? 20)%float; [reflexivity|].
  destruct (fabs (Jet.eta jet) >? 5)%cxx; [reflexivity|].
  destruct (MiniFromPat.overlaps jet (map Electron_p4 elecs)); [reflexivity|].
  destruct (MiniFromPat.overlaps jet (map Muon_p4 muons)); [reflexivity|discriminate].
Qed.

(** One selected jet: the entry [nj] of the jet arrays, and the entry
    [nl] of [j_id]. *)
Lemma jet_step_selected elecs muons ev jet :
  selectedJet elecs muons jet = true ->
  let ev' := MiniFromPat.jet_step elecs muons ev jet in
  counter ev' nj = counter ev nj + 1
  /\ jRow ev' (counter ev nj) = jRowOf jet
  /\ (forall k, k <> counter ev nj -> jRow ev' k = jRow ev k)
  /\ ints ev' j_id (counter ev nl) = jetWord jet
  /\ (forall k, k <> counter ev nl -> ints ev' j_id k = ints ev j_id k).
Proof.
  unfold selectedJet, MiniFromPat.jet_step.
  destruct (Jet.pt jet <? 20)%float; [discriminate|].
  destruct (fabs (Jet.eta jet) >? 5)%cxx; [discriminate|].
  destruct (MiniFromPat.overlaps jet (map Electron_p4 elecs)); [discriminate|].
  destruct (MiniFromPat.overlaps jet (map Muon_p4 muons)); [discriminate|]. intros _.
  match goal with |- context [MiniFromPat.matchJet ?n ?ig ?e] =>
    destruct (matchJet_spec n ig e) as (Hc & Hf & Hi & _);
    set (ev_b := MiniFromPat.matchJet n ig e) in *
  end.
  cbn [counter set_int set_float] in Hi. cbv zeta. unfold jRow, jRowOf, jetWord.
  split; [store; rewrite Hc; reflexivity|].
  split; [store; rewrite !Hf, !Hi by (intros E; discriminate E); store;
          rewrite Z.eqb_refl; reflexivity|].
  split; [intros k Hk; store; rewrite !Hf, !Hi by (intros E; discriminate E); store;
          destruct (Z.eqb_spec (counter ev nj) k); [congruence|reflexivity]|].
  split; [store; rewrite Hi by (intros E; discriminate E); store;
          rewrite Z.eqb_refl; reflexivity|].
  intros k Hk. store. rewrite Hi by (intros E; discriminate E). store.
  destruct (Z.eqb_spec (counter ev nl) k); [congruence|reflexivity].
Qed.

Lemma jet_step_outside elecs muons ev jet :
  agreeOutside [nj] [j_id; j_flav; j_hadflav; j_pid; j_g]
    [j_pt; j_phi; j_eta; j_mass; j_csvv2; j_deepcsv]
    ev (MiniFromPat.jet_step elecs muons ev jet).
Proof.
  unfold MiniFromPat.jet_step.
  destruct (Jet.pt jet <? 20)%float; [apply agreeOutside_refl|].
  destruct (fabs (Jet.eta jet) >? 5)%cxx; [apply agreeOutside_refl|].
  destruct (MiniFromPat.overlaps jet (map Electron_p4 elecs)); [apply agreeOutside_refl|].
  destruct (MiniFromPat.overlaps jet (map Muon_p4 muons)); [apply agreeOutside_refl|].
  match goal with |- context [MiniFromPat.matchJet ?n ?ig ?e] =>
    destruct (matchJet_spec n ig e) as (Hc & Hf & Hi & _);
    set (ev_b := MiniFromPat.matchJet n ig e) in *
  end.
  cbn [counter set_int set_float] in Hi.
  outside; store; rewrite ?Hc, ?Hf, ?Hi by (intros E; discriminate E); reflexivity.
Qed.

(** Every selected jet writes its word to the same entry of [j_id]. *)
Lemma fold_jet_step_j_id elecs muons jets : forall ev,
  let ev' := fold_left (MiniFromPat.jet_step elecs muons) jets ev in
  ints ev' j_id (counter ev nl)
  = last (map jetWord (filter (selectedJet elecs muons) jets)) (ints ev j_id (counter ev nl))
  /\ forall k, k <> counter ev nl -> ints ev' j_id k = ints ev j_id k.
Proof.
  induction jets as [|jet rest IH]; intros ev; [split; reflexivity|].
  cbn [fold_left filter]. destruct (selectedJet elecs muons jet) eqn:Ej.
  - destruct (jet_step_selected elecs muons ev jet Ej) as (_ & _ & _ & Hw & Hk).
    destruct (jet_step_outside elecs muons ev jet) as (Hc & _).
    specialize (Hc nl eq_refl).
    destruct (IH (MiniFromPat.jet_step elecs muons ev jet)) as [IHw IHk].
    rewrite Hc in IHw, IHk. cbv zeta. split.
    + rewrite IHw, Hw. cbn [map]. rewrite last_cons. reflexivity.
    + intros k Hne. rewrite IHk by exact Hne. apply Hk. exact Hne.
  - rewrite (jet_step_skip elecs muons ev jet Ej). apply IH.
Qed.

(** *** Missing energy and particle-flow leptons *)

Lemma fillMET_outside mets ev :
  agreeOutside [nmet] [] [met_pt; met_phi] ev (MiniFromPat.fillMET mets ev).
Proof.
  unfold MiniFromPat.fillMET. destruct mets; outside; reflexivity.
Qed.

Lemma pf_step_skip pfCands ev cand :
  selectedLepton cand = false -> MiniFromPat.pf_step pfCands ev cand = ev.
Proof.
  unfold selectedLepton, MiniFromPat.pf_step.
  destruct (MiniFromPat.notLepton (Candidate.pdgId cand)); [reflexivity|].
  destruct (Candidate.pt cand <? 10)%float; [reflexivity|].
  destruct (fabs (Candidate.eta cand) >? 3)%cxx; [reflexivity|discriminate].
Qed.

Lemma pf_step_fill pfCands ev cand :
  selectedLepton cand = true ->
  counter (MiniFromPat.pf_step pfCands ev cand) npf = counter ev npf + 1
  /\ pfRow (MiniFromPat.pf_step pfCands ev cand) (counter ev npf) = pfRowOf pfCands cand
  /\ forall k, k <> counter ev npf ->
       pfRow (MiniFromPat.pf_step pfCands ev cand) k = pfRow ev k.
Proof.
  unfold selectedLepton, MiniFromPat.pf_step.
  destruct (MiniFromPat.notLepton (Candidate.pdgId cand)); [discriminate|].
  destruct (Candidate.pt cand <? 10)%float; [discriminate|].
  destruct (fabs (Candidate.eta cand) >? 3)%cxx; [discriminate|]. intros _.
  unfold pfRow, pfRowOf. store. rewrite Z.eqb_refl.
  split; [reflexivity|]. split; [reflexivity|].
  intros k Hk. destruct (Z.eqb_spec (counter ev npf) k); [congruence|reflexivity].
Qed.

Lemma pf_step_outside pfCands ev cand :
  agreeOutside [npf] [pf_pid; pf_hp] [pf_pt; pf_eta; pf_phi; pf_mass; pf_relIso]
    ev (MiniFromPat.pf_step pfCands ev cand).
Proof.
  unfold MiniFromPat.pf_step.
  destruct (MiniFromPat.notLepton (Candidate.pdgId cand)); [apply agreeOutside_refl|].
  destruct (Candidate.pt cand <? 10)%float; [apply agreeOutside_refl|].
  destruct (fabs (Candidate.eta cand) >? 3)%cxx; [apply agreeOutside_refl|].
  outside; reflexivity.
Qed.

(** *** The stages of [recoAnalysis] *)

Lemma recoAnalysis_stages (iEvent : Event.t) (ev : MiniEvent.t) :
  0 <= primaryVertex (Event.vertices iEvent) ->
  MiniFromPat.recoAnalysis iEvent ev = Some (afterPF iEvent ev).
Proof.
  intros Hpv. unfold MiniFromPat.recoAnalysis.
  destruct (Z.ltb_spec (primaryVertex (Event.vertices iEvent)) 0) as [|_]; [lia|].
  rewrite (foldM_fold_left _ _
             (muon_step_fill (Event.vertices iEvent) _ (at_primaryVertex _ Hpv))).
  reflexivity.
Qed.

Lemma afterMuons_outside (iEvent : Event.t) (ev : MiniEvent.t) :
  agreeOutside [nl] [l_id; l_pid; l_g] [l_pt; l_phi; l_eta; l_relIso]
    ev (afterMuons iEvent ev).
Proof.
  eapply agreeOutside_trans; [|apply agreeOutside_fold; apply muon_fill_outside].
  outside; reflexivity.
Qed.

Lemma afterElectrons_outside (iEvent : Event.t) (ev : MiniEvent.t) :
  agreeOutside [nl] [l_id; l_pid; l_g] [l_pt; l_phi; l_eta; l_relIso]
    (afterMuons iEvent ev) (afterElectrons iEvent ev).
Proof. apply agreeOutside_fold. apply elec_step_outside. Qed.

Lemma afterJets_outside (iEvent : Event.t) (ev : MiniEvent.t) :
  agreeOutside [nj] [j_id; j_flav; j_hadflav; j_pid; j_g]
    [j_pt; j_phi; j_eta; j_mass; j_csvv2; j_deepcsv]
    (afterElectrons iEvent ev) (afterJets iEvent ev).
Proof.
  eapply agreeOutside_trans; [|apply agreeOutside_fold; apply jet_step_outside].
  outside; reflexivity.
Qed.

Lemma afterMET_outside (iEvent : Event.t) (ev : MiniEvent.t) :
  agreeOutside [nmet] [] [met_pt; met_phi] (afterJets iEvent ev) (afterMET iEvent ev).
Proof. apply fillMET_outside. Qed.

Lemma afterPF_outside (iEvent : Event.t) (ev : MiniEvent.t) :
  agreeOutside [npf] [pf_pid; pf_hp] [pf_pt; pf_eta; pf_phi; pf_mass; pf_relIso]
    (afterMET iEvent ev) (afterPF iEvent ev).
Proof.
  eapply agreeOutside_trans; [|apply agreeOutside_fold; apply pf_step_outside].
  outside; reflexivity.
Qed.

(** What follows the lepton loops keeps the lepton entries, and what
    follows the jet loop keeps the jet entries. *)
Lemma leptons_kept (iEvent : Event.t) (ev : MiniEvent.t) :
  counter (afterPF iEvent ev) nl = counter (afterElectrons iEvent ev) nl
  /\ forall k, lRow (afterPF iEvent ev) k = lRow (afterElectrons iEvent ev) k.
Proof.
  destruct (afterJets_outside iEvent ev) as (Jc & Ji & Jf).
  destruct (afterMET_outside iEvent ev) as (Mc & Mi & Mf).
  destruct (afterPF_outside iEvent ev) as (Pc & Pi & Pf).
  split.
  - rewrite Pc, Mc, Jc by reflexivity. reflexivity.
  - intros k. unfold lRow.
    rewrite !Pi, !Pf, !Mi, !Mf, !Ji, !Jf by reflexivity. reflexivity.
Qed.

Lemma jets_kept (iEvent : Event.t) (ev : MiniEvent.t) :
  counter (afterPF iEvent ev) nj = counter (afterJets iEvent ev) nj
  /\ counter (afterPF iEvent ev) nl = counter (afterElectrons iEvent ev) nl
  /\ (forall k, jRow (afterPF iEvent ev) k = jRow (afterJets iEvent ev) k)
  /\ (forall k, ints (afterPF iEvent ev) j_id k = ints (afterJets iEvent ev) j_id k).
Proof.
  destruct (afterJets_outside iEvent ev) as (Jc & _).
  destruct (afterMET_outside iEvent ev) as (Mc & Mi & Mf).
  destruct (afterPF_outside iEvent ev) as (Pc & Pi & Pf).
  split; [rewrite Pc, Mc by reflexivity; reflexivity|].
  split; [rewrite Pc, Mc, Jc by reflexivity; reflexivity|].
  split; intros k; unfold jRow; rewrite ?Pi, ?Pf, ?Mi, ?Mf by reflexivity; reflexivity.
Qed.

(** What the two lepton loops leave in the record: the rows of the
    selected muons, then those of the selected electrons. *)
Lemma leptons_stored (iEvent : Event.t) (ev : MiniEvent.t) :
  let vertices := Event.vertices iEvent in
  let muons := filter selectedMuon (Event.muons iEvent) in
  let elecs := filter selectedElectron (Event.elecs iEvent) in
  counter (afterPF iEvent ev) nl = Z.of_nat (length muons) + Z.of_nat (length elecs)
  /\ (forall i muon, nth_error muons i = Some muon ->
        lRow (afterPF iEvent ev) (Z.of_nat i)
        = muonRowOf vertices (primaryVertex vertices) muon)
  /\ (forall i elec, nth_error elecs i = Some elec ->
        lRow (afterPF iEvent ev) (Z.of_nat (length muons) + Z.of_nat i)
        = elecRowOf (Event.conversions iEvent) (Event.beamspot_position iEvent) elec).
Proof.
  intros vertices muons elecs.
  destruct (leptons_kept iEvent ev) as [Kc Kr]. rewrite Kc.
  set (prVtx := primaryVertex vertices).
  destruct (fold_appends _ _ _ (fun ev => counter ev nl) lRow selectedMuon
              (muonRowOf vertices prVtx) (muon_fill vertices prVtx)
              (muon_fill_skip vertices prVtx) (muon_fill_fill vertices prVtx)
              (Event.muons iEvent) (set_counter ev nl 0))
    as (Mc & Mr & _).
  change (fold_left (muon_fill _ _) _ _) with (afterMuons iEvent ev) in Mc, Mr.
  fold muons in Mc, Mr.
  cbn [counter set_counter Counter_beq] in Mc, Mr. rewrite Z.add_0_l in Mc.
  destruct (fold_appends _ _ _ (fun ev => counter ev nl) lRow selectedElectron
              (elecRowOf (Event.conversions iEvent) (Event.beamspot_position iEvent))
              (MiniFromPat.elec_step (Event.conversions iEvent)
                 (Event.beamspot_position iEvent))
              (elec_step_skip _ _) (elec_step_fill _ _)
              (Event.elecs iEvent) (afterMuons iEvent ev))
    as (Ec & Er & Ek).
  change (fold_left (MiniFromPat.elec_step _ _) _ _) with (afterElectrons iEvent ev)
    in Ec, Er, Ek.
  fold elecs in Ec, Er.
  rewrite Mc in Ec, Er, Ek.
  split; [exact Ec|]. split.
  - intros i muon Hi.
    assert (Hlt : (i < length muons)%nat) by (apply nth_error_Some; congruence).
    specialize (Mr i muon Hi). rewrite Z.add_0_l in Mr.
    rewrite Kr, Ek by lia. exact Mr.
  - intros i elec Hi. rewrite Kr. apply Er. exact Hi.
Qed.

(** What the jet loop leaves in the record: the rows of the selected
    jets. *)
Lemma jets_stored (iEvent : Event.t) (ev : MiniEvent.t) :
  let jets :=
    filter (selectedJet (Event.elecs iEvent) (Event.muons iEvent)) (Event.jets iEvent) in
  counter (afterPF iEvent ev) nj = Z.of_nat (length jets)
  /\ forall i jet, nth_error jets i = Some jet ->
       jRow (afterPF iEvent ev) (Z.of_nat i) = jRowOf jet.
Proof.
  intros jets.
  destruct (jets_kept iEvent ev) as (Kc & _ & Kr & _). rewrite Kc.
  destruct (fold_appends _ _ _ (fun ev => counter ev nj) jRow
              (selectedJet (Event.elecs iEvent) (Event.muons iEvent)) jRowOf
              (MiniFromPat.jet_step (Event.elecs iEvent) (Event.muons iEvent))
              (jet_step_skip _ _)
              (fun ev jet H =>
                 let '(conj a (conj b (conj c _))) := jet_step_selected _ _ ev jet H in
                 conj a (conj b c))
              (Event.jets iEvent) (set_counter (afterElectrons iEvent ev) nj 0))
    as (Jc & Jr & _).
  change (fold_left (MiniFromPat.jet_step _ _) _ _) with (afterJets iEvent ev) in Jc, Jr.
  fold jets in Jc, Jr.
  cbn [counter set_counter Counter_beq] in Jc, Jr. rewrite Z.add_0_l in Jc.
  split; [exact Jc|].
  intros i jet Hi. specialize (Jr i jet Hi). rewrite Z.add_0_l in Jr.
  rewrite Kr. exact Jr.
Qed.

(** **** X4: in an event with a primary vertex, [recoAnalysis] stores the
    muons with pt not below 10 and |eta| not above 3, in the order of the
    collection, in the first lepton entries, and after them the electrons
    that pass the same cuts; [nl] counts both.  The particle code is the
    charge times 13 for a muon and times 11 for an electron, and the
    identification word is that of the three tiers.  The relative
    isolation is the binary32 sum of the three isolations, from left to
    right, over the pt in binary64. *)
Theorem recoAnalysis_stores_leptons (iEvent : Event.t) (ev : MiniEvent.t) :
  0 <= primaryVertex (Event.vertices iEvent) ->
  let muons := filter selectedMuon (Event.muons iEvent) in
  let elecs := filter selectedElectron (Event.elecs iEvent) in
  exists ev',
    MiniFromPat.recoAnalysis iEvent ev = Some ev'
    /\ counter ev' nl = Z.of_nat (length muons) + Z.of_nat (length elecs)
    /\ (forall i muon, nth_error muons i = Some muon ->
          let k := Z.of_nat i in
          (exists isLoose isMedium isTight,
             MiniFromPat.muonTiers (Event.vertices iEvent)
               (primaryVertex (Event.vertices iEvent)) muon
             = Some (isLoose, isMedium, isTight)
             /\ ints ev' l_id k = MiniFromPat.idWord isLoose isMedium isTight)
          /\ ints ev' l_pid k = Muon.charge muon * 13
          /\ floats ev' l_pt k = Muon.pt muon
          /\ floats ev' l_phi k = Muon.phi muon
          /\ floats ev' l_eta k = Muon.eta muon
          /\ floats ev' l_relIso k
             = (Binary32.add
                  (Binary32.add (Muon.puppiNoLeptonsChargedHadronIso muon)
                     (Muon.puppiNoLeptonsNeutralHadronIso muon))
                  (Muon.puppiNoLeptonsPhotonIso muon)
                / Muon.pt muon)%float)
    /\ (forall i elec, nth_error elecs i = Some elec ->
          let k := Z.of_nat (length muons) + Z.of_nat i in
          ints ev' l_id k
          = MiniFromPat.idWord
              (MiniFromPat.isLooseElec elec (Event.conversions iEvent)
                 (Event.beamspot_position iEvent))
              (MiniFromPat.isMediumElec elec (Event.conversions iEvent)
                 (Event.beamspot_position iEvent))
              (MiniFromPat.isTightElec elec (Event.conversions iEvent)
                 (Event.beamspot_position iEvent))
          /\ ints ev' l_pid k = Electron.charge elec * 11
          /\ floats ev' l_pt k = Electron.pt elec
          /\ floats ev' l_phi k = Electron.phi elec
          /\ floats ev' l_eta k = Electron.eta elec
          /\ floats ev' l_relIso k
             = (Binary32.add
                  (Binary32.add (Electron.puppiNoLeptonsChargedHadronIso elec)
                     (Electron.puppiNoLeptonsNeutralHadronIso elec))
                  (Electron.puppiNoLeptonsPhotonIso elec)
                / Electron.pt elec)%float).
Proof.
  intros Hpv muons elecs.
  exists (afterPF iEvent ev). split; [apply recoAnalysis_stages; exact Hpv|].
  destruct (leptons_stored iEvent ev) as (Hc & Hm & He).
  split; [exact Hc|]. split.
  - intros i muon Hi k. specialize (Hm i muon Hi).
    unfold lRow, muonRowOf in Hm. injection Hm as H1 H2 H3 H4 H5 H6.
    split; [|auto 10].
    destruct (muonTiers_returns (Event.vertices iEvent)
                (primaryVertex (Event.vertices iEvent)) muon (at_primaryVertex _ Hpv))
      as [[[isLoose isMedium] isTight] Ht].
    exists isLoose, isMedium, isTight. split; [exact Ht|].
    unfold k. rewrite H1. unfold muonWord. rewrite Ht. reflexivity.
  - intros i elec Hi k. specialize (He i elec Hi).
    unfold lRow, elecRowOf in He. injection He as H1 H2 H3 H4 H5 H6. auto 10.
Qed.

(** **** X5: in an event with a primary vertex, [recoAnalysis] stores the
    jets with pt not below 20 and |eta| not above 5 that duplicate no
    electron and no muon, in the order of the collection, in the entries
    0 .. nj-1 of the jet arrays (all but [j_id]); [j_deepcsv] holds the
    binary32 sum of the two discriminators. *)
Theorem recoAnalysis_stores_jets (iEvent : Event.t) (ev : MiniEvent.t) :
  0 <= primaryVertex (Event.vertices iEvent) ->
  let jets :=
    filter (selectedJet (Event.elecs iEvent) (Event.muons iEvent)) (Event.jets iEvent) in
  exists ev',
    MiniFromPat.recoAnalysis iEvent ev = Some ev'
    /\ counter ev' nj = Z.of_nat (length jets)
    /\ forall i jet, nth_error jets i = Some jet ->
         let k := Z.of_nat i in
         floats ev' j_pt k = Jet.pt jet
         /\ floats ev' j_phi k = Jet.phi jet
         /\ floats ev' j_eta k = Jet.eta jet
         /\ floats ev' j_mass k = Jet.mass jet
         /\ floats ev' j_csvv2 k
            = Jet.bDiscriminator jet "pfCombinedInclusiveSecondaryVertexV2BJetTags"%string
         /\ floats ev' j_deepcsv k
            = Binary32.add (Jet.bDiscriminator jet "pfDeepCSVJetTags:probb"%string)
                (Jet.bDiscriminator jet "pfDeepCSVJetTags:probbb"%string)
         /\ ints ev' j_flav k = Jet.partonFlavour jet
         /\ ints ev' j_hadflav k = Jet.hadronFlavour jet
         /\ ints ev' j_pid k
            = match Jet.genParton jet with
              | Some parton => Candidate.pdgId parton
              | None => 0
              end.
Proof.
  intros Hpv jets.
  exists (afterPF iEvent ev). split; [apply recoAnalysis_stages; exact Hpv|].
  destruct (jets_stored iEvent ev) as (Hc & Hj).
  split; [exact Hc|].
  intros i jet Hi k. specialize (Hj i jet Hi).
  unfold jRow, jRowOf in Hj.
  injection Hj as H1 H2 H3 H4 H5 H6 H7 H8 H9. auto 12.
Qed.

(** **** X6: the identification word of every selected jet goes to one
    entry of [j_id], the one at the number of leptons [nl]: after
    [recoAnalysis] that entry holds the word of the last selected jet (or
    what it held before, when no jet is selected), and no other entry of
    [j_id] has been written. *)
Theorem recoAnalysis_jet_id_slot (iEvent : Event.t) (ev : MiniEvent.t) :
  0 <= primaryVertex (Event.vertices iEvent) ->
  let jets :=
    filter (selectedJet (Event.elecs iEvent) (Event.muons iEvent)) (Event.jets iEvent) in
  let word jet :=
    Z.lor (int_of_bool (jetIDTight jet)) (Z.shiftl (int_of_bool (jetIDLoose jet)) 1) in
  exists ev',
    MiniFromPat.recoAnalysis iEvent ev = Some ev'
    /\ ints ev' j_id (counter ev' nl)
       = last (map word jets) (ints ev j_id (counter ev' nl))
    /\ forall k, k <> counter ev' nl -> ints ev' j_id k = ints ev j_id k.
Proof.
  intros Hpv jets word.
  exists (afterPF iEvent ev). split; [apply recoAnalysis_stages; exact Hpv|].
  destruct (jets_kept iEvent ev) as (_ & Kl & _ & Kid). rewrite Kl.
  destruct (fold_jet_step_j_id (Event.elecs iEvent) (Event.muons iEvent) (Event.jets iEvent)
              (set_counter (afterElectrons iEvent ev) nj 0)) as [Hw Hk].
  change (fold_left (MiniFromPat.jet_step _ _) _ _) with (afterJets iEvent ev) in Hw, Hk.
  fold jets in Hw.
  cbn [counter ints set_counter] in Hw, Hk.
  destruct (afterMuons_outside iEvent ev) as (_ & Mi & _).
  destruct (afterElectrons_outside iEvent ev) as (_ & Ei & _).
  assert (Hid : forall k, ints (afterElectrons iEvent ev) j_id k = ints ev j_id k)
    by (intros k; rewrite Ei, Mi by reflexivity; reflexivity).
  rewrite Hid in Hw. split.
  - rewrite Kid. exact Hw.
  - intros k Hne. rewrite Kid, Hk by exact Hne. apply Hid.
Qed.

Lemma fillMET_first mets ev :
  match mets with
  | [] =>
      counter (MiniFromPat.fillMET mets ev) nmet = 0
      /\ forall a k, floats (MiniFromPat.fillMET mets ev) a k = floats ev a k
  | met :: _ =>
      counter (MiniFromPat.fillMET mets ev) nmet = 1
      /\ floats (MiniFromPat.fillMET mets ev) met_pt 0 = MET.pt met
      /\ floats (MiniFromPat.fillMET mets ev) met_phi 0 = MET.phi met
  end.
Proof.
  unfold MiniFromPat.fillMET. destruct mets; repeat split.
Qed.

(** **** X7: in an event with a primary vertex, [recoAnalysis] stores the
    first entry of the missing-energy collection and no other: [nmet] is 1
    and entry 0 holds its pt and phi, or [nmet] is 0 and the two arrays
    are left as they were when the collection is empty. *)
Theorem recoAnalysis_stores_first_met (iEvent : Event.t) (ev : MiniEvent.t) :
  0 <= primaryVertex (Event.vertices iEvent) ->
  exists ev',
    MiniFromPat.recoAnalysis iEvent ev = Some ev'
    /\ match Event.mets iEvent with
       | [] =>
           counter ev' nmet = 0
           /\ forall k, floats ev' met_pt k = floats ev met_pt k
                        /\ floats ev' met_phi k = floats ev met_phi k
       | met :: _ =>
           counter ev' nmet = 1
           /\ floats ev' met_pt 0 = MET.pt met
           /\ floats ev' met_phi 0 = MET.phi met
       end.
Proof.
  intros Hpv.
  exists (afterPF iEvent ev). split; [apply recoAnalysis_stages; exact Hpv|].
  destruct (afterPF_outside iEvent ev) as (Pc & _ & Pf).
  destruct (afterJets_outside iEvent ev) as (_ & _ & Jf).
  destruct (afterElectrons_outside iEvent ev) as (_ & _ & Ef).
  destruct (afterMuons_outside iEvent ev) as (_ & _ & Mf).
  pose proof (fillMET_first (Event.mets iEvent) (afterJets iEvent ev)) as Hm.
  fold (afterMET iEvent ev) in Hm.
  rewrite Pc, !Pf by reflexivity.
  destruct (Event.mets iEvent) as [|met rest].
  - destruct Hm as [Hc Hf]. split; [exact Hc|]. intros k.
    rewrite !Pf, !Hf, !Jf, !Ef, !Mf by reflexivity. split; reflexivity.
  - exact Hm.
Qed.

(** **** X8: in an event with a primary vertex, [recoAnalysis] stores the
    particle-flow electrons and muons with pt not below 10 and |eta| not
    above 3, in the order of the collection, in the entries 0 .. npf-1 of
    the [pf_] arrays, each with its isolation over all the particle-flow
    candidates of the event. *)
Theorem recoAnalysis_stores_pf_leptons (iEvent : Event.t) (ev : MiniEvent.t) :
  0 <= primaryVertex (Event.vertices iEvent) ->
  let leptons := filter selectedLepton (Event.pfCands iEvent) in
  exists ev',
    MiniFromPat.recoAnalysis iEvent ev = Some ev'
    /\ counter ev' npf = Z.of_nat (length leptons)
    /\ forall i cand, nth_error leptons i = Some cand ->
         let k := Z.of_nat i in
         ints ev' pf_pid k = Candidate.pdgId cand
         /\ floats ev' pf_pt k = Candidate.pt cand
         /\ floats ev' pf_eta k = Candidate.eta cand
         /\ floats ev' pf_phi k = Candidate.phi cand
         /\ floats ev' pf_mass k = Candidate.mass cand
         /\ floats ev' pf_relIso k = MiniFromPat.isoPF cand (Event.pfCands iEvent)
         /\ ints ev' pf_hp k = int_of_bool (Candidate.trackHighPurity cand).
Proof.
  intros Hpv leptons.
  exists (afterPF iEvent ev). split; [apply recoAnalysis_stages; exact Hpv|].
  destruct (fold_appends _ _ _ (fun ev => counter ev npf) pfRow selectedLepton
              (pfRowOf (Event.pfCands iEvent))
              (MiniFromPat.pf_step (Event.pfCands iEvent))
              (pf_step_skip _) (pf_step_fill _)
              (Event.pfCands iEvent) (set_counter (afterMET iEvent ev) npf 0))
    as (Pc & Pr & _).
  change (fold_left (MiniFromPat.pf_step _) _ _) with (afterPF iEvent ev) in Pc, Pr.
  fold leptons in Pc, Pr.
  cbn [counter set_counter Counter_beq] in Pc, Pr. rewrite Z.add_0_l in Pc.
  split; [exact Pc|].
  intros i cand Hi k. specialize (Pr i cand Hi). rewrite Z.add_0_l in Pr. fold k in Pr.
  unfold pfRow, pfRowOf in Pr. injection Pr as H1 H2 H3 H4 H5 H6 H7. auto 10.
Qed.

(** [recoAnalysis] always returns. *)
Lemma recoAnalysis_returns (iEvent : Event.t) (ev : MiniEvent.t) :
  MiniFromPat.recoAnalysis iEvent ev
  = Some (if primaryVertex (Event.vertices iEvent) <? 0 then ev else afterPF iEvent ev).
Proof.
  destruct (Z.ltb_spec (primaryVertex (Event.vertices iEvent)) 0) as [Hno|Hpv];
    [|apply recoAnalysis_stages; exact Hpv].
  unfold MiniFromPat.recoAnalysis.
  destruct (Z.ltb_spec (primaryVertex (Event.vertices iEvent)) 0); [reflexivity|lia].
Qed.

Lemma afterPF_outside_reco (iEvent : Event.t) (ev : MiniEvent.t) :
  agreeOutside recoCounters recoInts recoFloats ev (afterPF iEvent ev).
Proof.
  apply (agreeOutside_trans _ _ _ _ (afterMET iEvent ev));
    [|eapply agreeOutside_weaken; [| | |apply afterPF_outside]; inclusion].
  apply (agreeOutside_trans _ _ _ _ (afterJets iEvent ev));
    [|eapply agreeOutside_weaken; [| | |apply afterMET_outside]; inclusion].
  apply (agreeOutside_trans _ _ _ _ (afterElectrons iEvent ev));
    [|eapply agreeOutside_weaken; [| | |apply afterJets_outside]; inclusion].
  apply (agreeOutside_trans _ _ _ _ (afterMuons iEvent ev));
    [|eapply agreeOutside_weaken; [| | |apply afterElectrons_outside]; inclusion].
  eapply agreeOutside_weaken; [| | |apply afterMuons_outside]; inclusion.
Qed.

(** *** The association with the generator level, lepton by lepton *)



(** **** X9: [recoAnalysis] always returns, and it writes the counters and
    arrays of the reconstructed level and nothing else of the record; the
    generator level, that the associations read, stays as it was. *)
Theorem recoAnalysis_writes_reconstructed_level_only (iEvent : Event.t) (ev : MiniEvent.t) :
  exists ev',
    MiniFromPat.recoAnalysis iEvent ev = Some ev'
    /\ agreeOutside recoCounters recoInts recoFloats ev ev'.
Proof.
  eexists. split; [apply recoAnalysis_returns|].
  destruct (primaryVertex (Event.vertices iEvent) <? 0);
    [apply agreeOutside_refl|apply afterPF_outside_reco].
Qed.

(** *** One event *)

(** **** X10: [analyze] never ends in an exception: whatever the event, it
    appends one entry to the tree, the record as the event leaves it, with
    the run, luminosity block and event numbers of the event. *)
Theorem analyze_appends_one_entry (iEvent : Event.t) (ev : MiniEvent.t)
    (tree : list MiniEvent.t) :
  exists ev',
    MiniFromPat.analyze iEvent (ev, tree) = Some (ev', tree ++ [ev'])
    /\ counter ev' run = Event.id_run iEvent
    /\ counter ev' lumi = Event.luminosityBlock iEvent
    /\ counter ev' event = Event.id_event iEvent.
Proof.
  unfold MiniFromPat.analyze.
  set (ev0 := if negb (Event.isRealData iEvent) then _ else ev).
  rewrite (recoAnalysis_returns iEvent ev0). cbn [bind].
  eexists. split; [reflexivity|]. repeat split.
Qed.

(** **** X11: on real data [genAnalysis] is not run, so the entry that
    [analyze] appends carries the generator level of the record as the
    event before left it. *)
Theorem analyze_real_data_keeps_generator_level (iEvent : Event.t) (ev : MiniEvent.t)
    (tree : list MiniEvent.t) :
  Event.isRealData iEvent = true ->
  exists ev',
    MiniFromPat.analyze iEvent (ev, tree) = Some (ev', tree ++ [ev'])
    /\ agreeOutside (recoCounters ++ [run; lumi; event]) recoInts recoFloats ev ev'.
Proof.
  intros Hdata. unfold MiniFromPat.analyze. rewrite Hdata. cbn [negb].
  rewrite (recoAnalysis_returns iEvent ev). cbn [bind].
  eexists. split; [reflexivity|].
  apply (agreeOutside_trans _ _ _ _
           (if primaryVertex (Event.vertices iEvent) <? 0 then ev else afterPF iEvent ev));
    [|outside; reflexivity].
  destruct (primaryVertex (Event.vertices iEvent) <? 0); [apply agreeOutside_refl|].
  eapply agreeOutside_weaken; [| | |apply afterPF_outside_reco]; inclusion.
Qed.

(** **** X12: in an event with no primary vertex [recoAnalysis] returns
    before it resets a counter, so the entry that [analyze] appends
    carries the reconstructed level of the record as the event before
    left it, beside the generator level and the numbers of this event. *)
Theorem analyze_without_vertex_keeps_reconstructed_level (iEvent : Event.t)
    (ev : MiniEvent.t) (tree : list MiniEvent.t) :
  primaryVertex (Event.vertices iEvent) < 0 ->
  exists ev',
    MiniFromPat.analyze iEvent (ev, tree) = Some (ev', tree ++ [ev'])
    /\ agreeOutside (generatorCounters ++ [run; lumi; event]) generatorInts generatorFloats
         ev ev'.
Proof.
  intros Hno. unfold MiniFromPat.analyze, MiniFromPat.recoAnalysis.
  destruct (Z.ltb_spec (primaryVertex (Event.vertices iEvent)) 0) as [_|]; [|lia].
  cbn [bind]. eexists. split; [reflexivity|].
  eapply (agreeOutside_trans _ _ _ _
            (if negb (Event.isRealData iEvent)
             then MiniFromPat.genAnalysis iEvent ev else ev));
    [|outside; reflexivity].
  destruct (Event.isRealData iEvent); cbn [negb]; [apply agreeOutside_refl|].
  destruct (genAnalysis_stage_frames iEvent ev) as (ev1 & Hj & Hl).
  apply (agreeOutside_trans _ _ _ _ ev1);
    [eapply agreeOutside_weaken; [| | |exact Hj]|eapply agreeOutside_weaken; [| | |exact Hl]];
    inclusion.
Qed.

End ReconstructedLevel.



(** ** The muon filter *)

Section MuonFilter.
Context {C : Collaborators}.

(** *** The shape of the products *)

Lemma push_if_filter {A} (f : A -> bool) (l : list A) (a : A) :
  PatMuonFilter.push_if (f a) (filter f l) a = filter f (l ++ [a]).
Proof.
  rewrite filter_app. cbn [filter]. unfold PatMuonFilter.push_if.
  destruct (f a); [reflexivity|rewrite app_nil_r; reflexivity].
Qed.

Lemma push_if_map {A B} (g : A -> B) (c : bool) (l : list A) (a : A) :
  PatMuonFilter.push_if c (map g l) (g a) = map g (PatMuonFilter.push_if c l a).
Proof.
  unfold PatMuonFilter.push_if. destruct c; [|reflexivity].
  rewrite map_app. reflexivity.
Qed.

Lemma muon_step_productsOf vertices done muon out :
  PatMuonFilter.muon_step vertices (primaryVertex vertices) (productsOf vertices done) muon
  = Some out ->
  out = productsOf vertices (done ++ [muon]).
Proof.
  unfold PatMuonFilter.muon_step, productsOf.
  assert (Hskip : PatMuonFilter.preselected muon = false ->
                  forall tier, filter (keeps tier vertices) (done ++ [muon])
                               = filter (keeps tier vertices) done).
  { intros Hp tier. rewrite filter_app. cbn [filter]. unfold keeps at 2.
    rewrite Hp. cbn [andb]. apply app_nil_r. }
  unfold PatMuonFilter.preselected in Hskip.
  destruct (Muon.pt muon <? 2)%float eqn:Ept.
  { intros E. injection E as <-. rewrite !Hskip by reflexivity. reflexivity. }
  destruct (fabs (Muon.eta muon) >? 3)%cxx eqn:Eeta.
  { intros E. injection E as <-. rewrite !Hskip by reflexivity. reflexivity. }
  clear Hskip.
  destruct (PatMuonFilter.tiers vertices (primaryVertex vertices) muon)
    as [[[loose medium] tight]|] eqn:Et; [|discriminate].
  cbn [bind]. intros E. injection E as <-.
  assert (Hk : forall tier, keeps tier vertices muon = tier (loose, medium, tight)).
  { intros tier. unfold keeps, PatMuonFilter.preselected. rewrite Ept, Eeta, Et.
    reflexivity. }
  rewrite <- !push_if_filter, !Hk. unfold looseOf, mediumOf, tightOf. cbn [fst snd].
  rewrite !push_if_map. reflexivity.
Qed.

Lemma foldM_muon_step_productsOf vertices muons : forall done out,
  foldM (PatMuonFilter.muon_step vertices (primaryVertex vertices)) muons
    (productsOf vertices done) = Some out ->
  out = productsOf vertices (done ++ muons).
Proof.
  induction muons as [|muon rest IH]; intros done out H.
  - cbn [foldM] in H. injection H as <-. rewrite app_nil_r. reflexivity.
  - cbn [foldM] in H.
    destruct (PatMuonFilter.muon_step vertices (primaryVertex vertices)
                (productsOf vertices done) muon) as [out1|] eqn:E1; [|discriminate H].
    cbn [bind] in H. apply muon_step_productsOf in E1. subst out1.
    apply IH in H. rewrite <- app_assoc in H. exact H.
Qed.

Lemma produce_productsOf vertices muons out :
  PatMuonFilter.produce vertices muons = Some out -> out = productsOf vertices muons.
Proof.
  unfold PatMuonFilter.produce. intros H.
  exact (foldM_muon_step_productsOf vertices muons [] out H).
Qed.

(** **** X13: when [produce] returns, each of the three muon collections
    is the input collection filtered by the decision of its tier on the
    muon alone, in the order of the input. *)
Theorem produce_filters_in_order (vertices : list Vertex.t) (muons : list Muon.t)
    (out : PatMuonFilter.Products) :
  PatMuonFilter.produce vertices muons = Some out ->
  PatMuonFilter.LooseMuons out = filter (keeps looseOf vertices) muons
  /\ PatMuonFilter.MediumMuons out = filter (keeps mediumOf vertices) muons
  /\ PatMuonFilter.TightMuons out = filter (keeps tightOf vertices) muons.
Proof.
  intros H. apply produce_productsOf in H. subst out.
  unfold productsOf. cbn. repeat split.
Qed.

(** **** X14: when [produce] returns, the isolation collection of each
    tier runs along its muon collection: entry i is the relative
    isolation of muon i. *)
Theorem produce_isolation_aligned (vertices : list Vertex.t) (muons : list Muon.t)
    (out : PatMuonFilter.Products) :
  PatMuonFilter.produce vertices muons = Some out ->
  PatMuonFilter.LooseMuonRelIso out
  = map PatMuonFilter.relIso (PatMuonFilter.LooseMuons out)
  /\ PatMuonFilter.MediumMuonRelIso out
     = map PatMuonFilter.relIso (PatMuonFilter.MediumMuons out)
  /\ PatMuonFilter.TightMuonRelIso out
     = map PatMuonFilter.relIso (PatMuonFilter.TightMuons out).
Proof.
  intros H. apply produce_productsOf in H. subst out.
  unfold productsOf. cbn. repeat split.
Qed.

(** *** When the angle and eta selection ends in an exception *)

Lemma chamberNew_step_none dEtaCut dPhiCut dPhiBendCut result chamber :
  PatMuonFilter.chamberNew_step dEtaCut dPhiCut dPhiBendCut result chamber = None
  <-> unknownChamber chamber = true.
Proof.
  unfold PatMuonFilter.chamberNew_step, unknownChamber.
  destruct (Chamber.detector chamber =? 5); [|split; discriminate].
  destruct (Chamber.me0Matches chamber); [split; discriminate|].
  destruct (ME0Geometry_chamber (Chamber.id chamber)); cbn; split;
    (discriminate || reflexivity).
Qed.

Lemma foldM_chamberNew_step_none dEtaCut dPhiCut dPhiBendCut chambers : forall result,
  foldM (PatMuonFilter.chamberNew_step dEtaCut dPhiCut dPhiBendCut) chambers result = None
  <-> existsb unknownChamber chambers = true.
Proof.
  induction chambers as [|chamber rest IH]; intros result; [split; discriminate|].
  cbn [foldM existsb].
  pose proof (chamberNew_step_none dEtaCut dPhiCut dPhiBendCut result chamber) as Hn.
  destruct (PatMuonFilter.chamberNew_step dEtaCut dPhiCut dPhiBendCut result chamber)
    as [r|]; cbn [bind].
  - assert (Hu : unknownChamber chamber = false).
    { destruct (unknownChamber chamber); [|reflexivity].
      destruct Hn as [_ Hn]. discriminate (Hn eq_refl). }
    rewrite Hu. cbn [orb]. apply IH.
  - assert (Hu : unknownChamber chamber = true) by (apply Hn; reflexivity).
    rewrite Hu. split; reflexivity.
Qed.

(** **** X15: the angle and eta selection ends in an exception (the
    dereference of a null chamber) exactly for an ME0 muon with a match
    in an ME0 chamber that has a segment and that the geometry does not
    know, whatever the cuts; the flag raised by an earlier pair does not
    stop the loops. *)
Theorem isME0MuonSelNew_throws_iff (muon : Muon.t) (dEtaCut dPhiCut dPhiBendCut : double) :
  PatMuonFilter.isME0MuonSelNew muon dEtaCut dPhiCut dPhiBendCut = None
  <-> Muon.isME0Muon muon = true
      /\ exists chamber,
           In chamber (Muon.matches muon)
           /\ Chamber.detector chamber = 5
           /\ Chamber.me0Matches chamber <> []
           /\ ME0Geometry_chamber (Chamber.id chamber) = None.
Proof.
  unfold PatMuonFilter.isME0MuonSelNew.
  destruct (Muon.isME0Muon muon).
  - rewrite foldM_chamberNew_step_none, existsb_exists. split.
    + intros (chamber & Hin & Hu). split; [reflexivity|]. exists chamber.
      split; [exact Hin|]. unfold unknownChamber in Hu.
      apply andb_true_iff in Hu as [Hu Hg]. apply andb_true_iff in Hu as [Hd Hs].
      split; [apply Z.eqb_eq; exact Hd|].
      split; [destruct (Chamber.me0Matches chamber); [discriminate Hs|discriminate]|].
      destruct (ME0Geometry_chamber (Chamber.id chamber)); [discriminate Hg|reflexivity].
    + intros (_ & chamber & Hin & Hd & Hs & Hg). exists chamber. split; [exact Hin|].
      unfold unknownChamber. rewrite Hd, Hg.
      destruct (Chamber.me0Matches chamber); [contradiction|reflexivity].
  - split; [discriminate|]. intros [H _]. discriminate H.
Qed.

Lemma isME0MuonSelNew_none muon dEtaCut dPhiCut dPhiBendCut :
  PatMuonFilter.isME0MuonSelNew muon dEtaCut dPhiCut dPhiBendCut = None
  <-> me0Throws muon = true.
Proof.
  unfold PatMuonFilter.isME0MuonSelNew, me0Throws.
  destruct (Muon.isME0Muon muon); [apply foldM_chamberNew_step_none|].
  split; discriminate.
Qed.

(** *** When the filter ends in an exception *)

Lemma trackFlags_none muon priVertex :
  PatMuonFilter.trackFlags muon priVertex = None <-> trackThrows muon = true.
Proof.
  unfold PatMuonFilter.trackFlags, trackThrows.
  destruct (Muon.innerTrack muon), (Muon.muonBestTrack muon); cbn; split;
    (discriminate || reflexivity).
Qed.

Lemma tiers_none vertices prVtx muon priVertex :
  at_ vertices (size_t_of_int prVtx) = Some priVertex ->
  PatMuonFilter.tiers vertices prVtx muon = None
  <-> me0Throws muon || trackThrows muon = true.
Proof.
  intros Hv. unfold PatMuonFilter.tiers. rewrite Hv. cbn [bind].
  pose proof (isME0MuonSelNew_none muon 0.077
                (PatMuonFilter.dPhiCut_loose (Muon.p muon))
                (PatMuonFilter.dPhiBendCut_loose (Muon.p muon))) as HL.
  pose proof (isME0MuonSelNew_none muon 0.048
                (PatMuonFilter.dPhiCut_tight (Muon.p muon))
                (PatMuonFilter.dPhiBendCut_tight (Muon.p muon))) as HT.
  pose proof (trackFlags_none muon priVertex) as HF.
  destruct (PatMuonFilter.isME0MuonSelNew muon 0.077 _ _) as [selL|]; cbn [bind].
  - assert (Hm : me0Throws muon = false).
    { destruct (me0Throws muon); [|reflexivity]. destruct HL as [_ HL].
      discriminate (HL eq_refl). }
    rewrite Hm in *. cbn [orb].
    destruct (PatMuonFilter.trackFlags muon priVertex) as [[[[ipxy ipz] pxl] hp]|];
      cbn [bind].
    + destruct (PatMuonFilter.isME0MuonSelNew muon 0.048 _ _) as [selT|]; cbn [bind].
      * destruct (trackThrows muon); [|split; discriminate].
        destruct HF as [_ HF]. discriminate (HF eq_refl).
      * destruct HT as [HT _]. discriminate (HT eq_refl).
    + split; [intros _; apply HF; reflexivity|reflexivity].
  - assert (Hm : me0Throws muon = true) by (apply HL; reflexivity).
    rewrite Hm. split; reflexivity.
Qed.

Lemma muon_step_none vertices prVtx out muon priVertex :
  at_ vertices (size_t_of_int prVtx) = Some priVertex ->
  PatMuonFilter.muon_step vertices prVtx out muon = None <-> muonThrows muon = true.
Proof.
  intros Hv. unfold PatMuonFilter.muon_step, muonThrows, PatMuonFilter.preselected.
  destruct (Muon.pt muon <? 2)%float; [split; discriminate|].
  destruct (fabs (Muon.eta muon) >? 3)%cxx; [split; discriminate|].
  cbn [negb andb]. rewrite <- (tiers_none vertices prVtx muon priVertex Hv).
  destruct (PatMuonFilter.tiers vertices prVtx muon) as [[[l m] t]|]; cbn [bind];
    split; (discriminate || reflexivity).
Qed.

(** **** X16: in an event with a primary vertex, [produce] ends in an
    exception exactly when a muon that passes the kinematic preselection
    makes the angle and eta selection end in one (an ME0 chamber with a
    segment that the geometry does not know), or has an inner track and no
    best track. *)
Theorem produce_throws_iff (vertices : list Vertex.t) (muons : list Muon.t) :
  0 <= primaryVertex vertices ->
  PatMuonFilter.produce vertices muons = None
  <-> exists muon,
        In muon muons
        /\ PatMuonFilter.preselected muon = true
        /\ (me0Throws muon = true
            \/ (Muon.innerTrack muon <> None /\ Muon.muonBestTrack muon = None)).
Proof.
  intros Hpv. destruct (at_primaryVertex vertices Hpv) as [priVertex Hv].
  assert (Hloop : forall out,
            foldM (PatMuonFilter.muon_step vertices (primaryVertex vertices)) muons out = None
            <-> existsb muonThrows muons = true).
  { induction muons as [|muon rest IH]; intros out; [split; discriminate|].
    cbn [foldM existsb].
    pose proof (muon_step_none vertices _ out muon priVertex Hv) as Hn.
    destruct (PatMuonFilter.muon_step vertices (primaryVertex vertices) out muon)
      as [out1|]; cbn [bind].
    - assert (Hu : muonThrows muon = false).
      { destruct (muonThrows muon); [|reflexivity].
        destruct Hn as [_ Hn]. discriminate (Hn eq_refl). }
      rewrite Hu. cbn [orb]. apply IH.
    - assert (Hu : muonThrows muon = true) by (apply Hn; reflexivity).
      rewrite Hu. split; reflexivity. }
  unfold PatMuonFilter.produce. rewrite Hloop, existsb_exists.
  split; intros (muon & Hin & H); exists muon; (split; [exact Hin|]).
  - unfold muonThrows in H. apply andb_true_iff in H as [Hp H].
    split; [exact Hp|]. apply orb_true_iff in H as [H|H]; [left; exact H|right].
    unfold trackThrows in H.
    destruct (Muon.innerTrack muon), (Muon.muonBestTrack muon); try discriminate H.
    split; [discriminate|reflexivity].
  - destruct H as [Hp H]. unfold muonThrows. rewrite Hp. cbn [andb].
    apply orb_true_iff. destruct H as [H|[Hi Hb]]; [left; exact H|right].
    unfold trackThrows. rewrite Hb. destruct (Muon.innerTrack muon); [reflexivity|].
    contradiction.
Qed.

(** *** Looser cuts select more *)

Lemma looser_refl a : looser a a.
Proof. intros d H. exact H. Qed.

Lemma looser_ord a b : is_nan b = false -> ord a <= ord b -> looser a b.
Proof.
  intros Nb Hab d. rewrite !ltb_ord, Nb.
  destruct (is_nan d); [discriminate|]. destruct (is_nan a); [discriminate|].
  cbn [negb andb]. rewrite !Z.ltb_lt. lia.
Qed.

Lemma looser_std_min (m c1 c2 : double) :
  is_nan c1 = false -> is_nan c2 = false -> ord c1 <= ord c2 ->
  looser (std_min m c1) (std_min m c2).
Proof.
  intros N1 N2 H12. unfold std_min. rewrite !ltb_ord, N1, N2.
  destruct (is_nan m) eqn:Nm; cbn [negb andb]; [apply looser_refl|].
  destruct (Z.ltb_spec (ord c1) (ord m)), (Z.ltb_spec (ord c2) (ord m));
    try apply looser_refl; apply looser_ord; assumption || lia.
Qed.

Lemma passesAngle_looser e p b e' p' b' pair :
  looser e e' -> looser p p' -> looser b b' ->
  passesAngle e p b pair = true -> passesAngle e' p' b' pair = true.
Proof.
  intros He Hp Hb. unfold passesAngle.
  destruct (ME0Geometry_chamber (Chamber.id (fst pair))) as [me0chamber|]; [|discriminate].
  intros H. apply andb_prop in H as [H E3]. apply andb_prop in H as [E1 E2].
  rewrite (He _ E1), (Hp _ E2), (Hb _ E3). reflexivity.
Qed.

Lemma isME0MuonSelNew_looser muon e p b e' p' b' :
  looser e e' -> looser p p' -> looser b b' ->
  PatMuonFilter.isME0MuonSelNew muon e p b = Some true ->
  PatMuonFilter.isME0MuonSelNew muon e' p' b' = Some true.
Proof.
  intros He Hp Hb Hsel.
  assert (Hthrows : me0Throws muon = false).
  { destruct (me0Throws muon) eqn:Ht; [|reflexivity].
    apply (isME0MuonSelNew_none muon e p b) in Ht. congruence. }
  unfold me0Throws in Hthrows.
  destruct (Muon.isME0Muon muon) eqn:Eme0.
  - cbn [andb] in Hthrows.
    assert (Hgeo : forall chamber, In chamber (Muon.matches muon) ->
              Chamber.detector chamber = 5 -> Chamber.me0Matches chamber <> [] ->
              ME0Geometry_chamber (Chamber.id chamber) <> None).
    { intros chamber Hin Hd Hs Hg.
      assert (Hu : existsb unknownChamber (Muon.matches muon) = true).
      { apply existsb_exists. exists chamber. split; [exact Hin|].
        unfold unknownChamber. rewrite Hd, Hg.
        destruct (Chamber.me0Matches chamber); [contradiction|reflexivity]. }
      congruence. }
    rewrite (isME0MuonSelNew_any muon e p b Hgeo), Eme0 in Hsel.
    rewrite (isME0MuonSelNew_any muon e' p' b' Hgeo), Eme0.
    cbn [andb] in *. injection Hsel as Hsel. f_equal.
    apply existsb_exists in Hsel as (pair & Hin & Hpass).
    apply existsb_exists. exists pair. split; [exact Hin|].
    exact (passesAngle_looser e p b e' p' b' pair He Hp Hb Hpass).
  - unfold PatMuonFilter.isME0MuonSelNew in Hsel. rewrite Eme0 in Hsel. discriminate Hsel.
Qed.

Lemma tight_cuts_looser mom :
  looser 0.048 0.077
  /\ looser (PatMuonFilter.dPhiCut_tight mom) (PatMuonFilter.dPhiCut_loose mom)
  /\ looser (PatMuonFilter.dPhiBendCut_tight mom) (PatMuonFilter.dPhiBendCut_loose mom).
Proof.
  split; [apply looser_ord; [reflexivity|apply Z.leb_le; vm_compute; reflexivity]|].
  split; apply looser_std_min; try reflexivity; apply Z.leb_le; vm_compute; reflexivity.
Qed.

(** **** X17: at every momentum, NaN included, a muon that the angle and
    eta selection accepts with the cuts of the tight tier is accepted with
    the cuts of the loose tier: the tight cuts are nowhere above the
    loose ones. *)
Theorem me0_tight_selection_implies_loose (muon : Muon.t) (mom : double) :
  PatMuonFilter.isME0MuonSelNew muon 0.048
    (PatMuonFilter.dPhiCut_tight mom) (PatMuonFilter.dPhiBendCut_tight mom) = Some true ->
  PatMuonFilter.isME0MuonSelNew muon 0.077
    (PatMuonFilter.dPhiCut_loose mom) (PatMuonFilter.dPhiBendCut_loose mom) = Some true.
Proof.
  destruct (tight_cuts_looser mom) as (He & Hp & Hb).
  apply isME0MuonSelNew_looser; assumption.
Qed.

(** The three decisions on one muon are nested when the standard ones
    are. *)
Lemma tiers_nested vertices prVtx muon loose medium tight :
  PatMuonFilter.tiers vertices prVtx muon = Some (loose, medium, tight) ->
  (forall v, isTightMuon muon v = true -> isMediumMuon muon = true) ->
  (isMediumMuon muon = true -> isLooseMuon muon = true) ->
  (tight = true -> medium = true) /\ (medium = true -> loose = true).
Proof.
  intros Ht Htm Hml. unfold PatMuonFilter.tiers in Ht.
  destruct (at_ vertices (size_t_of_int prVtx)) as [priVertex|]; [|discriminate Ht].
  cbn [bind] in Ht.
  pose proof (me0_cuts := tight_cuts_looser (Muon.p muon)).
  destruct me0_cuts as (He & Hp & Hb).
  pose proof (isME0MuonSelNew_looser muon _ _ _ _ _ _ He Hp Hb) as Hsel.
  destruct (PatMuonFilter.isME0MuonSelNew muon 0.077 _ _) as [selL|]; [|discriminate Ht].
  cbn [bind] in Ht.
  destruct (PatMuonFilter.trackFlags muon priVertex) as [[[[ipxy ipz] pxl] hp]|];
    [|discriminate Ht].
  cbn [bind] in Ht.
  destruct (PatMuonFilter.isME0MuonSelNew muon 0.048 _ _) as [selT|]; [|discriminate Ht].
  cbn [bind] in Ht. injection Ht as <- <- <-.
  assert (HTL : selT = true -> selL = true).
  { intros ->. specialize (Hsel eq_refl). injection Hsel as ->. reflexivity. }
  specialize (Htm priVertex).
  destruct (isTightMuon muon priVertex), (isMediumMuon muon), (isLooseMuon muon),
    ((fabs (Muon.eta muon) >? 2.4)%cxx), selT, selL, ipxy, ipz, pxl, hp,
    ((double_of_int prVtx >? -0.5)%cxx);
    cbn; split; intros; try reflexivity; try discriminate;
    try (discriminate (Htm eq_refl)); try (discriminate (Hml eq_refl));
    try (discriminate (HTL eq_refl)).
Qed.

(** **** X18: when [produce] returns and the standard tight muons are
    medium and the standard medium muons are loose, the tight collection
    lies within the medium one and the medium one within the loose one:
    the ME0 halves of the three decisions are nested by themselves. *)
Theorem produce_tiers_nested (vertices : list Vertex.t) (muons : list Muon.t)
    (out : PatMuonFilter.Products) :
  PatMuonFilter.produce vertices muons = Some out ->
  (forall muon v, In muon muons -> isTightMuon muon v = true -> isMediumMuon muon = true) ->
  (forall muon, In muon muons -> isMediumMuon muon = true -> isLooseMuon muon = true) ->
  incl (PatMuonFilter.TightMuons out) (PatMuonFilter.MediumMuons out)
  /\ incl (PatMuonFilter.MediumMuons out) (PatMuonFilter.LooseMuons out).
Proof.
  intros H Htm Hml. apply produce_productsOf in H. subst out.
  unfold productsOf. cbn [PatMuonFilter.TightMuons PatMuonFilter.MediumMuons
                           PatMuonFilter.LooseMuons].
  assert (Hn : forall muon, In muon muons ->
            (keeps tightOf vertices muon = true -> keeps mediumOf vertices muon = true)
            /\ (keeps mediumOf vertices muon = true -> keeps looseOf vertices muon = true)).
  { intros muon Hin. unfold keeps.
    destruct (PatMuonFilter.preselected muon); cbn [andb]; [|split; discriminate].
    destruct (PatMuonFilter.tiers vertices (primaryVertex vertices) muon)
      as [[[loose medium] tight]|] eqn:Et; [|split; discriminate].
    exact (tiers_nested vertices _ muon loose medium tight Et
             (fun v => Htm muon v Hin) (Hml muon Hin)). }
  split; intros muon Hin; apply filter_In in Hin as [Hin Hk]; apply filter_In;
    (split; [exact Hin|]); apply (Hn muon Hin); exact Hk.
Qed.

(** *** The kinematic preselection *)


End MuonFilter.

(** ** The pull and distance selection in the ntupler *)

Section ForwardMuons.
Context {C : Collaborators}.

Lemma isME0MuonSel_looser muon pullXCut dXCut pullYCut dYCut dPhi dPhi' :
  looser dPhi dPhi' ->
  MiniFromPat.isME0MuonSel muon pullXCut dXCut pullYCut dYCut dPhi = true ->
  MiniFromPat.isME0MuonSel muon pullXCut dXCut pullYCut dYCut dPhi' = true.
Proof.
  intros Hl. unfold MiniFromPat.isME0MuonSel.
  destruct (Muon.isME0Muon muon); [|discriminate]. cbv zeta.
  rewrite !andb_true_iff. intros [[HX HY] HD]. repeat split; try assumption.
  apply Hl. exact HD.
Qed.

(** **** X20: beyond |eta| = 2.4 the three decisions of the ntupler on a
    muon are nested: they are the pull and distance selection with the
    direction cuts 0.1, 0.3 and 0.5, so a tight muon is medium and a
    medium muon is loose. *)
Theorem forward_muon_tiers_nested (vertices : list Vertex.t) (prVtx : Z) (muon : Muon.t)
    (isLoose isMedium isTight : bool) :
  MiniFromPat.muonTiers vertices prVtx muon = Some (isLoose, isMedium, isTight) ->
  (fabs (Muon.eta muon) >? 2.4)%cxx = true ->
  (isTight = true -> isMedium = true) /\ (isMedium = true -> isLoose = true).
Proof.
  intros Ht Hfwd. unfold MiniFromPat.muonTiers in Ht.
  assert (Hcentral : (fabs (Muon.eta muon) <? 2.4)%float = false).
  { unfold gtb in Hfwd. rewrite ltb_ord in Hfwd |- *.
    destruct (is_nan (fabs (Muon.eta muon))); [rewrite andb_false_r in Hfwd; discriminate|].
    change (is_nan 2.4) with false in *. cbn [negb andb] in *.
    apply Z.ltb_lt in Hfwd. apply Z.ltb_ge. lia. }
  rewrite Hcentral, Hfwd in Ht. cbn [andb orb bind] in Ht. injection Ht as <- <- <-.
  split; apply isME0MuonSel_looser; apply looser_ord;
    try reflexivity; apply Z.leb_le; vm_compute; reflexivity.
Qed.

Lemma me0Pairs_nil muon :
  me0Pairs muon = [] ->
  forall chamber, In chamber (Muon.matches muon) ->
  Chamber.detector chamber = 5 -> Chamber.me0Matches chamber = [].
Proof.
  unfold me0Pairs. induction (Muon.matches muon) as [|c rest IH]; intros H chamber Hin Hd;
    [contradiction|].
  cbn [flat_map] in H. apply app_eq_nil in H as [Hc Hrest].
  destruct Hin as [->|Hin]; [|exact (IH Hrest chamber Hin Hd)].
  rewrite Hd in Hc. cbn in Hc. destruct (Chamber.me0Matches chamber); [reflexivity|].
  discriminate Hc.
Qed.

(** **** X21: a muon with no segment in an ME0 chamber is judged by the
    pull and distance selection on the initial 999s of the residuals, so
    with the cuts of the ntupler it is never selected, and the angle and
    eta selection returns false for it without asking the geometry. *)
Theorem selections_without_segments (muon : Muon.t) :
  me0Pairs muon = [] ->
  (forall pullXCut dXCut pullYCut dYCut dPhi,
     MiniFromPat.isME0MuonSel muon pullXCut dXCut pullYCut dYCut dPhi
     = Muon.isME0Muon muon
       && ((999 <? pullXCut)%float || (999 <? dXCut)%float)
       && ((999 <? pullYCut)%float || (999 <? dYCut)%float)
       && (999 <? dPhi)%float)
  /\ (forall dPhi, MiniFromPat.isME0MuonSel muon 3 4 3 4 dPhi = false)
  /\ (forall dEtaCut dPhiCut dPhiBendCut,
        PatMuonFilter.isME0MuonSelNew muon dEtaCut dPhiCut dPhiBendCut = Some false).
Proof.
  intros Hnil.
  assert (Hsel : forall pullXCut dXCut pullYCut dYCut dPhi,
     MiniFromPat.isME0MuonSel muon pullXCut dXCut pullYCut dYCut dPhi
     = Muon.isME0Muon muon
       && ((999 <? pullXCut)%float || (999 <? dXCut)%float)
       && ((999 <? pullYCut)%float || (999 <? dYCut)%float)
       && (999 <? dPhi)%float).
  { intros.
    transitivity (PatMuonFilter.isME0MuonSel muon pullXCut dXCut pullYCut dYCut dPhi);
      [reflexivity|].
    rewrite isME0MuonSel_last.
    unfold lastResiduals. rewrite Hnil. cbn [map last]. unfold passesPull.
    cbn [PatMuonFilter.Residuals_init PatMuonFilter.pullX PatMuonFilter.deltaX
         PatMuonFilter.pullY PatMuonFilter.deltaY PatMuonFilter.deltaPhi].
    rewrite !andb_assoc. reflexivity. }
  split; [exact Hsel|]. split.
  - intros dPhi. rewrite Hsel.
    change (999 <? 3)%float with false. change (999 <? 4)%float with false.
    cbn [orb]. rewrite andb_false_r. reflexivity.
  - intros e p b. rewrite isME0MuonSelNew_any.
    + rewrite Hnil. cbn [existsb]. rewrite andb_false_r. reflexivity.
    + intros chamber Hin Hd Hs. exfalso. apply Hs.
      exact (me0Pairs_nil muon Hnil chamber Hin Hd).
Qed.

End ForwardMuons.

(** ** The overlap loops *)

Section Overlaps.
Context {C : Collaborators}.

(** **** X22: the overlap loops, that break at the first hit, find a jet
    to overlap exactly when some lepton of the collection has a pt within
    1% of its own of the pt of the jet and an angular distance below 0.01;
    at the generator level only electrons and muons count. *)
Theorem overlaps_iff_some_lepton :
  (forall (jet : Jet.t) (leptons : list P4),
     MiniFromPat.overlaps jet leptons = true
     <-> exists l, In l leptons
           /\ (fabs (Jet.pt jet - p4_pt l) <? 0.01 * p4_pt l)%float = true
           /\ (VectorUtil_DeltaR l (Jet.p4 jet) <? 0.01)%float = true)
  /\ (forall (jet : GenJet.t) (genParts : list Candidate.t),
        MiniFromPat.genOverlaps jet genParts = true
        <-> exists part, In part genParts
              /\ (Z.abs (Candidate.pdgId part) = 11 \/ Z.abs (Candidate.pdgId part) = 13)
              /\ (fabs (GenJet.pt jet - Candidate.pt part) <? 0.01 * Candidate.pt part)%float
                 = true
              /\ (VectorUtil_DeltaR (Candidate.p4 part) (GenJet.p4 jet) <? 0.01)%float
                 = true).
Proof.
  split.
  - intros jet leptons. induction leptons as [|l rest IH]; cbn [MiniFromPat.overlaps].
    + split; [discriminate|]. intros (l & [] & _).
    + destruct ((fabs (Jet.pt jet - p4_pt l) <? 0.01 * p4_pt l)%float
                && (VectorUtil_DeltaR l (Jet.p4 jet) <? 0.01)%float) eqn:E.
      * split; [intros _|reflexivity]. apply andb_true_iff in E as [E1 E2].
        exists l. split; [left; reflexivity|split; assumption].
      * rewrite IH. split.
        -- intros (l' & Hin & H). exists l'. split; [right; exact Hin|exact H].
        -- intros (l' & [<-|Hin] & H1 & H2); [|exists l'; auto].
           rewrite H1, H2 in E. discriminate E.
  - intros jet genParts.
    induction genParts as [|part rest IH]; cbn [MiniFromPat.genOverlaps].
    + split; [discriminate|]. intros (l & [] & _).
    + unfold MiniFromPat.notLepton.
      destruct (Z.eqb_spec (Z.abs (Candidate.pdgId part)) 11) as [H11|H11];
      destruct (Z.eqb_spec (Z.abs (Candidate.pdgId part)) 13) as [H13|H13];
        cbn [negb andb];
        try (destruct ((fabs (GenJet.pt jet - Candidate.pt part)
                        <? 0.01 * Candidate.pt part)%float
                       && (VectorUtil_DeltaR (Candidate.p4 part) (GenJet.p4 jet)
                           <? 0.01)%float) eqn:E;
             [split; [intros _|reflexivity]; apply andb_true_iff in E as [E1 E2];
              exists part; split; [left; reflexivity|]; split; [auto|split; assumption]|]);
        rewrite IH; split;
        try (intros (p' & Hin & H); exists p'; split; [right; exact Hin|exact H]);
        intros (p' & [<-|Hin] & Hid & H1 & H2);
        try (exists p'; split; [exact Hin|split; [exact Hid|split; assumption]]);
        try (rewrite H1, H2 in E; discriminate E);
        destruct Hid; contradiction.
Qed.

End Overlaps.

(** ** Two more facts on the filter *)

Section FilterEdges.
Context {C : Collaborators}.

Lemma div_nan (k mom : double) : is_nan mom = true -> is_nan (k / mom) = true.
Proof.
  rewrite !is_nan_spec, div_spec. unfold SF64div.
  destruct (Prim2SF mom); try discriminate. intros _.
  destruct (Prim2SF k); reflexivity.
Qed.

Lemma clamp_nan (q lo c : double) :
  is_nan q = true -> is_nan (std_min (std_max q lo) c) = true.
Proof.
  intros Nq. unfold std_min, std_max. rewrite (ltb_ord q lo), Nq. cbn [negb andb].
  rewrite ltb_ord, Nq, andb_false_r. cbn [andb]. exact Nq.
Qed.

Lemma below_nan (d c : double) : is_nan c = true -> (d <? c)%float = false.
Proof.
  intros Nc. rewrite ltb_ord, Nc, andb_false_r. reflexivity.
Qed.

(** **** X23: a muon whose momentum is NaN is never accepted by the angle
    and eta selection of the filter: the two momentum-dependent cuts are
    NaN, and no difference is below NaN. *)
Theorem me0_selection_rejects_nan_momentum (muon : Muon.t) (mom : double) :
  is_nan mom = true ->
  PatMuonFilter.isME0MuonSelNew muon 0.077
    (PatMuonFilter.dPhiCut_loose mom) (PatMuonFilter.dPhiBendCut_loose mom) <> Some true
  /\ PatMuonFilter.isME0MuonSelNew muon 0.048
       (PatMuonFilter.dPhiCut_tight mom) (PatMuonFilter.dPhiBendCut_tight mom) <> Some true.
Proof.
  intros Hnan.
  assert (Hrej : forall e p b, is_nan p = true ->
            PatMuonFilter.isME0MuonSelNew muon e p b <> Some true).
  { intros e p b Np Hsel.
    assert (Hthrows : me0Throws muon = false).
    { destruct (me0Throws muon) eqn:Ht; [|reflexivity].
      apply (isME0MuonSelNew_none muon e p b) in Ht. congruence. }
    unfold me0Throws in Hthrows.
    destruct (Muon.isME0Muon muon) eqn:Eme0;
      [|unfold PatMuonFilter.isME0MuonSelNew in Hsel; rewrite Eme0 in Hsel;
        discriminate Hsel].
    cbn [andb] in Hthrows.
    rewrite isME0MuonSelNew_any, Eme0 in Hsel.
    - cbn [andb] in Hsel. injection Hsel as Hsel.
      apply existsb_exists in Hsel as (pair & _ & Hpass).
      unfold passesAngle in Hpass.
      destruct (ME0Geometry_chamber (Chamber.id (fst pair))); [|discriminate Hpass].
      unfold PatMuonFilter.segmentNew_step in Hpass.
      rewrite (below_nan _ p Np), andb_false_r in Hpass. discriminate Hpass.
    - intros chamber Hin Hd Hs Hg.
      assert (Hu : existsb unknownChamber (Muon.matches muon) = true).
      { apply existsb_exists. exists chamber. split; [exact Hin|].
        unfold unknownChamber. rewrite Hd, Hg.
        destruct (Chamber.me0Matches chamber); [contradiction|reflexivity]. }
      congruence. }
  split; apply Hrej; apply clamp_nan; apply div_nan; exact Hnan.
Qed.

(** **** X24: the guard [prVtx > -0.5] of the standard tight decision
    never fails where it is evaluated: the primary vertex is read before
    it, and the read succeeds from index 0 on only. *)
Theorem tight_guard_never_fails (vertices : list Vertex.t) (muon : Muon.t)
    (t : bool * bool * bool) :
  Z.of_nat (length vertices) <= 2 ^ 31 ->
  PatMuonFilter.tiers vertices (primaryVertex vertices) muon = Some t ->
  0 <= primaryVertex vertices
  /\ (double_of_int (primaryVertex vertices) >? -0.5)%cxx = true.
Proof.
  intros Hlen Ht.
  destruct (primaryVertex_small vertices Hlen) as [Hno|Hpv].
  - unfold PatMuonFilter.tiers in Ht. rewrite Hno, (at_no_vertex vertices Hlen) in Ht.
    discriminate Ht.
  - split; [exact Hpv|]. apply double_of_int_guard. exact Hpv.
Qed.

End FilterEdges.

(** ** The isolation of a generator lepton *)

Section GeneratorIsolationSum.
Context {C : Collaborators}.

Lemma fold_constituent_step part constituents : forall genIso,
  fold_left (MiniFromPat.constituent_step part) constituents genIso
  = fold_left (fun iso k => (iso + Candidate.pt k)%float)
      (filter (inGenCone part) constituents) genIso.
Proof.
  induction constituents as [|k rest IH]; intros genIso; [reflexivity|].
  cbn [fold_left filter]. rewrite IH.
  unfold MiniFromPat.constituent_step at 1, inGenCone. cbv zeta.
  destruct (VectorUtil_DeltaR (Candidate.p4 part) (Candidate.p4 k) <? 0.01)%float;
    [reflexivity|].
  destruct ((Z.abs (Candidate.pdgId part) =? 13)
            && (VectorUtil_DeltaR (Candidate.p4 part) (Candidate.p4 k) >? 0.4)%cxx);
    [reflexivity|].
  destruct ((Z.abs (Candidate.pdgId part) =? 11)
            && (VectorUtil_DeltaR (Candidate.p4 part) (Candidate.p4 k) >? 0.3)%cxx);
    reflexivity.
Qed.

(** **** X25: the isolation of a generator lepton is the sum, in the order
    of the loops, of the pt of the constituents of the jets within 0.7 of
    the lepton that are neither within 0.01 of it (the lepton itself) nor
    beyond its cone, 0.4 for a muon and 0.3 for an electron, divided by
    the pt of the lepton. *)
Theorem genIso_sums_the_cone (part : Candidate.t) (jGenJets : list GenJet.t) :
  MiniFromPat.genIso part jGenJets
  = (fold_left (fun iso k => iso + Candidate.pt k)
       (filter (inGenCone part)
          (flat_map GenJet.getJetConstituentsQuick (filter (nearJet part) jGenJets)))
       0
     / Candidate.pt part)%float.
Proof.
  unfold MiniFromPat.genIso. f_equal. generalize 0%float.
  induction jGenJets as [|jet rest IH]; intros genIso; [reflexivity|].
  cbn [fold_left filter]. rewrite IH.
  unfold MiniFromPat.genIso_jet_step at 1, nearJet.
  destruct (VectorUtil_DeltaR (Candidate.p4 part) (GenJet.p4 jet) >? 0.7)%cxx;
    cbn [negb]; [reflexivity|].
  cbn [flat_map]. rewrite filter_app, fold_left_app, fold_constituent_step. reflexivity.
Qed.

End GeneratorIsolationSum.

(** ** The statements at concrete events *)

(** An event with one vertex, a muon of 16 GeV with the isolations 1,
    2^-24 and 2^-24, and an electron of 20 GeV with the same ones: each of
    the two binary32 additions gives 1, and the relative isolations are
    1/16 and 1/20. *)
Lemma recoAnalysis_stores_leptons_witness :
  exists ev',
    MiniFromPat.recoAnalysis Sample.busyEvent Sample.ev0 = Some ev'
    /\ MiniEvent.counter ev' MiniEvent.nl = 2
    /\ MiniEvent.ints ev' MiniEvent.l_pid 0 = 13
    /\ MiniEvent.floats ev' MiniEvent.l_pt 0 = 16%float
    /\ MiniEvent.floats ev' MiniEvent.l_relIso 0 = 0.0625%float
    /\ MiniEvent.ints ev' MiniEvent.l_pid 1 = -11
    /\ MiniEvent.floats ev' MiniEvent.l_relIso 1 = (1 / 20)%float.
Proof.
  pose proof (recoAnalysis_stores_leptons (C := Sample.collaborators)
                Sample.busyEvent Sample.ev0 ltac:(vm_compute; discriminate)) as H.
  cbv zeta in H. destruct H as (ev' & E & Hc & Hm & He).
  exists ev'. split; [exact E|]. split; [exact Hc|].
  destruct (Hm 0%nat Sample.isolatedMuon eq_refl) as (_ & Hpid & Hpt & _ & _ & Hiso).
  destruct (He 0%nat (Sample.electronAt 1) eq_refl) as (_ & Hpid' & _ & _ & _ & Hiso').
  split; [exact Hpid|]. split; [exact Hpt|]. split; [exact Hiso|].
  split; [exact Hpid'|exact Hiso'].
Defined.

(** The two jets of that event, with the discriminators 0.5 and 2^-26:
    their binary32 sum is 0.5. *)
Lemma recoAnalysis_stores_jets_witness :
  exists ev',
    MiniFromPat.recoAnalysis Sample.busyEvent Sample.ev0 = Some ev'
    /\ MiniEvent.counter ev' MiniEvent.nj = 2
    /\ MiniEvent.floats ev' MiniEvent.j_pt 1 = 60%float
    /\ MiniEvent.floats ev' MiniEvent.j_csvv2 1 = 0.25%float
    /\ MiniEvent.floats ev' MiniEvent.j_deepcsv 1 = 0.5%float.
Proof.
  pose proof (recoAnalysis_stores_jets (C := Sample.collaborators)
                Sample.busyEvent Sample.ev0 ltac:(vm_compute; discriminate)) as H.
  cbv zeta in H. destruct H as (ev' & E & Hc & Hj).
  exists ev'. split; [exact E|]. split; [exact Hc|].
  destruct (Hj 1%nat (Sample.bjet 60 (-2)) eq_refl) as (Hpt & _ & _ & _ & Hcsv & Hdeep & _).
  split; [exact Hpt|]. split; [exact Hcsv|exact Hdeep].
Defined.

(** The two jets of the event leave one word, at entry 1 of [j_id], and
    entry 0, that of the first jet, holds what it held. *)
Lemma recoAnalysis_jet_id_slot_witness :
  exists ev',
    MiniFromPat.recoAnalysis Sample.fullEvent Sample.ev0 = Some ev'
    /\ MiniEvent.ints ev' MiniEvent.j_id 1 = 3
    /\ MiniEvent.ints ev' MiniEvent.j_id 0 = 0.
Proof.
  pose proof (recoAnalysis_jet_id_slot (C := Sample.collaborators)
                Sample.fullEvent Sample.ev0 ltac:(vm_compute; discriminate)) as H.
  cbv zeta in H. destruct H as (ev' & E & Hw & Hk).
  assert (Hnl : MiniEvent.counter ev' MiniEvent.nl = 1).
  { assert (E' : MiniFromPat.recoAnalysis Sample.fullEvent Sample.ev0
                 = Some (afterPF Sample.fullEvent Sample.ev0))
      by (vm_compute; reflexivity).
    rewrite E' in E. injection E as <-. vm_compute. reflexivity. }
  rewrite Hnl in Hw, Hk.
  exists ev'. split; [exact E|]. split; [exact Hw|]. apply Hk. discriminate.
Defined.

Lemma recoAnalysis_stores_first_met_witness :
  exists ev',
    MiniFromPat.recoAnalysis Sample.fullEvent Sample.ev0 = Some ev'
    /\ MiniEvent.counter ev' MiniEvent.nmet = 1
    /\ MiniEvent.floats ev' MiniEvent.met_pt 0 = 30%float.
Proof.
  destruct (recoAnalysis_stores_first_met (C := Sample.collaborators)
              Sample.fullEvent Sample.ev0 ltac:(vm_compute; discriminate))
    as (ev' & E & Hc & Hpt & _).
  exists ev'. split; [exact E|]. split; [exact Hc|exact Hpt].
Defined.

Lemma recoAnalysis_stores_pf_leptons_witness :
  exists ev',
    MiniFromPat.recoAnalysis Sample.fullEvent Sample.ev0 = Some ev'
    /\ MiniEvent.counter ev' MiniEvent.npf = 1
    /\ MiniEvent.ints ev' MiniEvent.pf_pid 0 = 13.
Proof.
  pose proof (recoAnalysis_stores_pf_leptons (C := Sample.collaborators)
                Sample.fullEvent Sample.ev0 ltac:(vm_compute; discriminate)) as H.
  cbv zeta in H. destruct H as (ev' & E & Hc & Hp).
  exists ev'. split; [exact E|]. split; [exact Hc|].
  destruct (Hp 0%nat (Sample.candidate 13 20 0 0) eq_refl) as (Hpid & _). exact Hpid.
Defined.

(** An event of real data, after a record with three generator leptons. *)
Lemma analyze_real_data_keeps_generator_level_witness :
  exists ev',
    MiniFromPat.analyze Sample.dataEvent
      (MiniEvent.set_counter Sample.ev0 MiniEvent.ngl 3, [])
    = Some (ev', [ev'])
    /\ MiniEvent.counter ev' MiniEvent.ngl = 3.
Proof.
  destruct (analyze_real_data_keeps_generator_level (C := Sample.collaborators)
              Sample.dataEvent (MiniEvent.set_counter Sample.ev0 MiniEvent.ngl 3) []
              eq_refl) as (ev' & E & Hc & _).
  exists ev'. split; [exact E|]. exact (Hc MiniEvent.ngl eq_refl).
Defined.

(** A simulated event with no vertex, after a record with two leptons. *)
Lemma analyze_without_vertex_keeps_reconstructed_level_witness :
  exists ev',
    MiniFromPat.analyze (Sample.event [] [Sample.muon 20 0] [] [] [])
      (MiniEvent.set_counter Sample.ev0 MiniEvent.nl 2, [])
    = Some (ev', [ev'])
    /\ MiniEvent.counter ev' MiniEvent.nl = 2.
Proof.
  destruct (analyze_without_vertex_keeps_reconstructed_level (C := Sample.collaborators)
              (Sample.event [] [Sample.muon 20 0] [] [] [])
              (MiniEvent.set_counter Sample.ev0 MiniEvent.nl 2) []
              ltac:(vm_compute; reflexivity)) as (ev' & E & Hc & _).
  exists ev'. split; [exact E|]. exact (Hc MiniEvent.nl eq_refl).
Defined.

(** The filter on one vertex and three muons, of 1, 5 and 20 GeV. *)
Lemma produce_filters_in_order_witness :
  exists out,
    PatMuonFilter.produce (C := Sample.collaborators) [Sample.vertex false 10]
      [Sample.muon 1 0; Sample.muon 5 0; Sample.muon 20 0] = Some out
    /\ PatMuonFilter.LooseMuons out = [Sample.muon 5 0; Sample.muon 20 0].
Proof.
  eexists. split; [vm_compute; reflexivity|].
  destruct (produce_filters_in_order (C := Sample.collaborators) [Sample.vertex false 10]
              [Sample.muon 1 0; Sample.muon 5 0; Sample.muon 20 0] _ eq_refl) as (HL & _).
  exact HL.
Defined.

Lemma produce_isolation_aligned_witness :
  exists out,
    PatMuonFilter.produce (C := Sample.collaborators) [Sample.vertex false 10]
      [Sample.muon 1 0; Sample.muon 5 0; Sample.muon 20 0] = Some out
    /\ PatMuonFilter.LooseMuonRelIso out
       = map PatMuonFilter.relIso (PatMuonFilter.LooseMuons out).
Proof.
  eexists. split; [vm_compute; reflexivity|].
  destruct (produce_isolation_aligned (C := Sample.collaborators) [Sample.vertex false 10]
              [Sample.muon 1 0; Sample.muon 5 0; Sample.muon 20 0] _ eq_refl) as (HL & _).
  exact HL.
Defined.

(** An ME0 muon with a segment, before a geometry that knows no chamber. *)
Lemma produce_throws_iff_witness :
  PatMuonFilter.produce (C := Sample.collaborators) [Sample.vertex false 10]
    [Sample.me0muon [Sample.chamber 0 1 0 1]] = None.
Proof.
  apply (produce_throws_iff (C := Sample.collaborators) [Sample.vertex false 10]
           [Sample.me0muon [Sample.chamber 0 1 0 1]] ltac:(vm_compute; discriminate)).
  exists (Sample.me0muon [Sample.chamber 0 1 0 1]).
  split; [left; reflexivity|]. split; [reflexivity|]. left. reflexivity.
Defined.

Lemma me0_tight_selection_implies_loose_witness :
  PatMuonFilter.isME0MuonSelNew (C := Sample.collaboratorsWithGeometry)
    (Sample.me0muon [Sample.chamber 0 1 0 1]) 0.077
    (PatMuonFilter.dPhiCut_loose 100) (PatMuonFilter.dPhiBendCut_loose 100) = Some true.
Proof.
  apply (me0_tight_selection_implies_loose (C := Sample.collaboratorsWithGeometry)).
  vm_compute. reflexivity.
Defined.

Lemma produce_tiers_nested_witness :
  exists out,
    PatMuonFilter.produce (C := Sample.collaborators) [Sample.vertex false 10]
      [Sample.muon 1 0; Sample.muon 5 0; Sample.muon 20 0] = Some out
    /\ incl (PatMuonFilter.TightMuons out) (PatMuonFilter.MediumMuons out)
    /\ incl (PatMuonFilter.MediumMuons out) (PatMuonFilter.LooseMuons out).
Proof.
  eexists. split; [vm_compute; reflexivity|].
  apply (produce_tiers_nested (C := Sample.collaborators) [Sample.vertex false 10]
           [Sample.muon 1 0; Sample.muon 5 0; Sample.muon 20 0] _ eq_refl);
    intros; reflexivity.
Defined.

(** A forward ME0 muon whose only segment lies on the track. *)
Lemma forward_muon_tiers_nested_witness :
  exists isLoose isMedium isTight,
    MiniFromPat.muonTiers (C := Sample.collaborators) [Sample.vertex false 10] 0
      (Sample.me0muon [Sample.chamber 0 1 0 1]) = Some (isLoose, isMedium, isTight)
    /\ (isTight = true -> isMedium = true) /\ (isMedium = true -> isLoose = true).
Proof.
  exists true, true, true. split; [vm_compute; reflexivity|].
  apply (forward_muon_tiers_nested (C := Sample.collaborators) [Sample.vertex false 10] 0
           (Sample.me0muon [Sample.chamber 0 1 0 1]) true true true);
    vm_compute; reflexivity.
Defined.

Lemma selections_without_segments_witness :
  MiniFromPat.isME0MuonSel (C := Sample.collaborators) (Sample.me0muon []) 3 4 3 4 0.5
  = false
  /\ PatMuonFilter.isME0MuonSelNew (C := Sample.collaborators) (Sample.me0muon [])
       0.077 0.056 0.0096 = Some false.
Proof.
  destruct (selections_without_segments (C := Sample.collaborators) (Sample.me0muon [])
              eq_refl) as (_ & Hpull & Hangle).
  split; [apply Hpull|apply Hangle].
Defined.

Lemma me0_selection_rejects_nan_momentum_witness :
  PatMuonFilter.isME0MuonSelNew (C := Sample.collaboratorsWithGeometry)
    (Sample.me0muon [Sample.chamber 0 1 0 1]) 0.077
    (PatMuonFilter.dPhiCut_loose nan) (PatMuonFilter.dPhiBendCut_loose nan) <> Some true.
Proof.
  apply (me0_selection_rejects_nan_momentum (C := Sample.collaboratorsWithGeometry)
           (Sample.me0muon [Sample.chamber 0 1 0 1]) nan eq_refl).
Defined.

Lemma tight_guard_never_fails_witness :
  0 <= primaryVertex [Sample.vertex false 10]
  /\ (double_of_int (primaryVertex [Sample.vertex false 10]) >? -0.5)%cxx = true.
Proof.
  apply (tight_guard_never_fails (C := Sample.collaborators) [Sample.vertex false 10]
           (Sample.muon 5 0) (true, true, true)); vm_compute; [discriminate|reflexivity].
Defined.

(** ** The width of the arithmetic at concrete values *)

(** The conversion to [float] keeps a [float] and rounds a [double]. *)
Lemma of_double_rounds :
  Binary32.of_double 0x1.ec02f2p-6 = 0x1.ec02f2p-6%float
  /\ Binary32.of_double (-0) = (-0)%float
  /\ Binary32.of_double (1 + 0x1p-24) = 1%float
  /\ Binary32.of_double 0.1 = 0x1.99999ap-4%float.
Proof.
  repeat split; vm_compute; reflexivity.
Qed.

(** The ratio [(E/p)/E] of the energy-momentum variable is a binary32 one:
    with this energy and this ratio the variable is above the 22.6 of the
    medium tier, which the binary64 ratio would not be. *)
Lemma Ooemoop_ratio_in_binary32 :
  let patEl := Sample.electronOf 0x1.ec02f2p-6 0x1.4908a4p-2 in
  let E := Electron.ecalEnergy patEl in
  let EoverP := Electron.eSuperClusterOverP patEl in
  (MiniFromPat.Ooemoop patEl >? 22.6)%cxx = true
  /\ (fabs (1 / E - EoverP / E)%float >? 22.6)%cxx = false
  /\ MiniFromPat.isMediumElec (C := Sample.collaborators) patEl tt Sample.origin = false
  /\ MiniFromPat.isLooseElec (C := Sample.collaborators) patEl tt Sample.origin = true.
Proof.
  repeat split; vm_compute; reflexivity.
Qed.

(** The residuals of an ME0 pair are binary32 ones.  A track at 4 cm and a
    segment at 2^-30 cm are 4 cm apart, not less; and with the
    uncertainties 4 and 2^-24, whose sum is 4, positions 6 cm apart have a
    pull of 3, not less. *)
Lemma residuals_in_binary32 :
  let r := residualsOf (C := Sample.collaborators)
             (Sample.chamber 4 1 0 1, Sample.segment 0x1p-30 1) in
  let r' := residualsOf (C := Sample.collaborators)
              (Sample.chamber 6 4 0 0, Sample.segment 0 0x1p-24) in
  PatMuonFilter.deltaX r = 4%float
  /\ (PatMuonFilter.deltaX r <? 4)%float = false
  /\ (fabs (4 - 0x1p-30) <? 4)%float = true
  /\ PatMuonFilter.pullX r' = 3%float
  /\ (PatMuonFilter.pullX r' <? 3)%float = false
  /\ (fabs (6 - 0) / sqrt (4 + 0x1p-24) <? 3)%float = true.
Proof.
  repeat split; vm_compute; reflexivity.
Qed.

(** The isolation of the filter adds the three isolations in binary32. *)
Lemma relIso_in_binary32 :
  PatMuonFilter.relIso Sample.isolatedMuon = 0.0625%float
  /\ ((1 + 0x1p-24 + 0x1p-24) / 16 =? 0.0625)%float = false.
Proof.
  split; vm_compute; reflexivity.
Qed.
